(** * verify-marketplace.py: a shallow embedding and its properties

    The script validates a marketplace manifest (JSON), the skill
    documents it references, and optionally prunes dangling references.

    Modelling conventions.
    - A Python [str] is a Rocq [string]; a character is an [ascii], read
      as one of the code points U+0000..U+00FF.
    - A value loaded by [json.load] is a [json]; JSON numbers are integers
      here.  A [dict] is an association list in insertion order.
    - The validators mutate one [Report] and read the file system; the
      embedding threads a [world] (the report and the log of documents
      read) through a small state-and-exception monad.  An uncaught Python
      exception is [Raised].
    - A path built as [repo_root / normalized / "SKILL.md"] is identified
      by the string [normalized]; the file system is a record of the
      answers it gives for such paths.
    - The manifest file is identified with the value [json.load] reads
      from it; a file written by [json.dump] loads back as the value that
      was dumped. *)

From stdpp Require Import gmap strings list fin_maps.
From Stdlib Require Import Ascii String ZArith Lia DecimalString.

Set Warnings "-register-all".

Local Open Scope string_scope.
Local Open Scope list_scope.

(** ** Python string operations used by the script *)

Module Py.

Definition NL : ascii := ascii_of_nat 10.

(** [str.isspace] on the code points below 256. *)
Definition isspace (c : ascii) : bool :=
  let n := nat_of_ascii c in
  (((9 <=? n) && (n <=? 13)) || ((28 <=? n) && (n <=? 32))
   || (n =? 133) || (n =? 160))%nat.

(** [c in chars] for a one-character string [c]. *)
Fixpoint mem_char (c : ascii) (chars : string) : bool :=
  match chars with
  | EmptyString => false
  | String d chars' => if decide (c = d) then true else mem_char c chars'
  end.

Fixpoint lstrip_with (p : ascii -> bool) (s : string) : string :=
  match s with
  | EmptyString => EmptyString
  | String c s' => if p c then lstrip_with p s' else s
  end.

Fixpoint rstrip_with (p : ascii -> bool) (s : string) : string :=
  match s with
  | EmptyString => EmptyString
  | String c s' =>
      match rstrip_with p s' with
      | EmptyString => if p c then EmptyString else String c EmptyString
      | r => String c r
      end
  end.

(** [s.strip()] *)
Definition strip (s : string) : string :=
  rstrip_with isspace (lstrip_with isspace s).

(** [s.lstrip(chars)]: drops every leading character that occurs in
    [chars]; [chars] is a set of characters, not a prefix. *)
Definition lstrip (chars : string) (s : string) : string :=
  lstrip_with (fun c => mem_char c chars) s.

(** [s.split(sep)] for a one-character separator; never empty. *)
Fixpoint split (sep : ascii) (s : string) : list string :=
  match s with
  | EmptyString => [EmptyString]
  | String c s' =>
      if decide (c = sep) then EmptyString :: split sep s'
      else match split sep s' with
           | [] => [String c EmptyString]
           | h :: t => String c h :: t
           end
  end.

(** [s.startswith(p)] *)
Fixpoint startswith (p s : string) : bool :=
  match p, s with
  | EmptyString, _ => true
  | String a p', String b s' => if decide (a = b) then startswith p' s' else false
  | String _ _, EmptyString => false
  end.

Fixpoint rev_onto (s acc : string) : string :=
  match s with
  | EmptyString => acc
  | String c s' => rev_onto s' (String c acc)
  end.

(** [s.endswith(p)] *)
Definition endswith (p s : string) : bool :=
  startswith (rev_onto p EmptyString) (rev_onto s EmptyString).

(** [sub in s] *)
Fixpoint contains (sub s : string) : bool :=
  startswith sub s
  || match s with
     | EmptyString => false
     | String _ s' => contains sub s'
     end.

(** [s.partition(sep)] without the middle component: the text before and
    after the first [sep], or [(s, "")] when there is none. *)
Fixpoint partition (sep : ascii) (s : string) : string * string :=
  match s with
  | EmptyString => (EmptyString, EmptyString)
  | String c s' =>
      if decide (c = sep) then (EmptyString, s')
      else let '(h, t) := partition sep s' in (String c h, t)
  end.

(** [s[n:]] *)
Fixpoint drop_chars (n : nat) (s : string) : string :=
  match n, s with
  | O, _ => s
  | S n', String _ s' => drop_chars n' s'
  | S _, EmptyString => EmptyString
  end.

(** [s.lower()] on the code points below 256. *)
Definition lower_char (c : ascii) : ascii :=
  let n := nat_of_ascii c in
  if (((65 <=? n) && (n <=? 90))
      || ((192 <=? n) && (n <=? 222) && negb (n =? 215)))%nat
  then ascii_of_nat (n + 32) else c.

Fixpoint lower (s : string) : string :=
  match s with
  | EmptyString => EmptyString
  | String c s' => String (lower_char c) (lower s')
  end.

Definition len (s : string) : nat := String.length s.

(** Truth value of a string: non-empty. *)
Definition nonempty (s : string) : bool :=
  match s with EmptyString => false | _ => true end.

(** [Path(p).parts] for a relative path: the components between
    slashes, without the empty ones and the ["."] ones. *)
Definition path_parts (p : string) : list string :=
  filter (fun s => s <> "" /\ s <> ".") (split "/"%char p).

End Py.

(** ** Values loaded from JSON *)

Inductive json :=
| JNull
| JBool (b : bool)
| JNum (n : Z)
| JStr (s : string)
| JArr (l : list json)
| JObj (d : list (string * json)).

(** Truth value of a Python object ([if x:], [not x]). *)
Definition truthy (j : json) : bool :=
  match j with
  | JNull => false
  | JBool b => b
  | JNum n => negb (n =? 0)%Z
  | JStr s => Py.nonempty s
  | JArr l => match l with [] => false | _ => true end
  | JObj d => match d with [] => false | _ => true end
  end.

(** [d.get(k)] and [k in d] on a dict. *)
Fixpoint dict_get (k : string) (d : list (string * json)) : option json :=
  match d with
  | [] => None
  | (k', v) :: d' => if decide (k = k') then Some v else dict_get k d'
  end.

Definition dict_has (k : string) (d : list (string * json)) : bool :=
  match dict_get k d with Some _ => true | None => false end.

(** [d[k] = v]: replaces the value in place, or appends a new key. *)
Fixpoint dict_set (k : string) (v : json) (d : list (string * json))
  : list (string * json) :=
  match d with
  | [] => [(k, v)]
  | (k', v') :: d' =>
      if decide (k = k') then (k', v) :: d' else (k', v') :: dict_set k v d'
  end.

Fixpoint chars_of (s : string) : list json :=
  match s with
  | EmptyString => []
  | String c s' => JStr (String c EmptyString) :: chars_of s'
  end.

(** What [for x in j] iterates over; [None] when [j] is not iterable
    (TypeError). *)
Definition py_iter (j : json) : option (list json) :=
  match j with
  | JArr l => Some l
  | JStr s => Some (chars_of s)
  | JObj d => Some (map (fun kv => JStr kv.1) d)
  | _ => None
  end.

(** [str(n)] for a non-negative int. *)
Definition str_nat (n : nat) : string :=
  DecimalString.NilZero.string_of_uint (Nat.to_uint n).

(** ** Report data *)

(** The file [repo_root / normalized / "SKILL.md"]. *)
Inductive fspath := SkillMd (normalized : string).

(** An f-string, kept as its literal parts and interpolated values. *)
Inductive frag :=
| Lit (s : string)
| Str (s : string)
| Val (j : json)
| Num (n : nat)
| PathOf (p : fspath)
| ManifestPath.

Definition msg := list frag.

Record entry := {
  severity : string;
  rule : string;
  message : msg;
  path : option fspath;
  fix_ : option msg }.

Record Stats := {
  plugins_checked : nat;
  skills_checked : nat;
  skills_missing : nat;
  orphans_found : nat }.

Record Report := {
  errors : list entry;
  warnings : list entry;
  stats : Stats }.

(** [Report()] *)
Definition Report_init : Report :=
  {| errors := []; warnings := [];
     stats := {| plugins_checked := 0; skills_checked := 0;
                 skills_missing := 0; orphans_found := 0 |} |}.

(** [Report.error]; every path and fix text the script passes is a
    non-empty string, so both are stored when given. *)
Definition Report_error (rl : string) (m : msg) (p : option fspath)
    (f : option msg) (r : Report) : Report :=
  {| errors := errors r ++ [{| severity := "error"; rule := rl; message := m;
                               path := p; fix_ := f |}];
     warnings := warnings r; stats := stats r |}.

(** [Report.warning] *)
Definition Report_warning (rl : string) (m : msg) (p : option fspath)
    (f : option msg) (r : Report) : Report :=
  {| errors := errors r;
     warnings := warnings r ++ [{| severity := "warning"; rule := rl;
                                   message := m; path := p; fix_ := f |}];
     stats := stats r |}.

(** [Report.passed] *)
Definition passed (r : Report) : bool :=
  (List.length (errors r) =? 0)%nat.

Definition with_stats (f : Stats -> Stats) (r : Report) : Report :=
  {| errors := errors r; warnings := warnings r; stats := f (stats r) |}.

Definition incr_plugins_checked (s : Stats) : Stats :=
  {| plugins_checked := plugins_checked s + 1; skills_checked := skills_checked s;
     skills_missing := skills_missing s; orphans_found := orphans_found s |}.
Definition incr_skills_checked (s : Stats) : Stats :=
  {| plugins_checked := plugins_checked s; skills_checked := skills_checked s + 1;
     skills_missing := skills_missing s; orphans_found := orphans_found s |}.
Definition incr_skills_missing (s : Stats) : Stats :=
  {| plugins_checked := plugins_checked s; skills_checked := skills_checked s;
     skills_missing := skills_missing s + 1; orphans_found := orphans_found s |}.
Definition incr_orphans_found (s : Stats) : Stats :=
  {| plugins_checked := plugins_checked s; skills_checked := skills_checked s;
     skills_missing := skills_missing s; orphans_found := orphans_found s + 1 |}.

(** ** The file system and the effects of a run *)

Record FS := {
  (** [(repo_root / normalized / "SKILL.md").is_file()] *)
  is_file : string -> bool;
  (** [read_text] of that file: the content, or the text of the exception *)
  read_text : string -> string + string;
  (** [(repo_root / "skills").is_dir()] *)
  skills_is_dir : bool;
  (** for every SKILL.md that [rglob] yields under skills/, in its order,
      the directory holding it, relative to repo_root, as a string *)
  rglob_skill_md : list string }.

Record world := {
  report : Report;
  reads : list string }.

Inductive res (A : Type) :=
| Ok (a : A) (w : world)
| Raised.
Arguments Ok {A} a w.
Arguments Raised {A}.

Definition M (A : Type) : Type := world -> res A.

Definition ret {A} (a : A) : M A := fun w => Ok a w.
Definition raise {A} : M A := fun _ => Raised.
Definition bind {A B} (m : M A) (k : A -> M B) : M B :=
  fun w => match m w with
           | Ok a w' => k a w'
           | Raised => Raised
           end.

Notation "x <- m ;; k" := (bind m (fun x => k))
  (at level 100, m at next level, right associativity).
Notation "m ;; k" := (bind m (fun _ => k))
  (at level 100, right associativity).

Definition on_report (f : Report -> Report) : M unit :=
  fun w => Ok tt {| report := f (report w); reads := reads w |}.

Definition error (rl : string) (m : msg) (p : option fspath) (f : option msg)
  : M unit := on_report (Report_error rl m p f).
Definition warning (rl : string) (m : msg) (p : option fspath) (f : option msg)
  : M unit := on_report (Report_warning rl m p f).
Definition count (f : Stats -> Stats) : M unit := on_report (with_stats f).

(** [skill_md.read_text(encoding="utf-8")], logging the access. *)
Definition do_read (fs : FS) (normalized : string) : M (string + string) :=
  fun w => Ok (read_text fs normalized)
              {| report := report w; reads := reads w ++ [normalized] |}.

Definition when (b : bool) (m : M unit) : M unit :=
  if b then m else ret tt.

(** [for x in l: body(x)] *)
Fixpoint for_each {A} (l : list A) (body : A -> M unit) : M unit :=
  match l with
  | [] => ret tt
  | x :: l' => body x ;; for_each l' body
  end.

Definition world_init : world := {| report := Report_init; reads := [] |}.

(** ** Regular expressions ([re]) *)

Module Re.

Inductive re :=
| Void
| Eps
| Cls (p : ascii -> bool)
| Cat (r1 r2 : re)
| Alt (r1 r2 : re)
| Star (r : re).

(** [r+] *)
Definition Plus (r : re) : re := Cat r (Star r).

Fixpoint nullable (r : re) : bool :=
  match r with
  | Void => false
  | Eps => true
  | Cls _ => false
  | Cat r1 r2 => nullable r1 && nullable r2
  | Alt r1 r2 => nullable r1 || nullable r2
  | Star _ => true
  end.

Fixpoint deriv (c : ascii) (r : re) : re :=
  match r with
  | Void => Void
  | Eps => Void
  | Cls p => if p c then Eps else Void
  | Cat r1 r2 =>
      if nullable r1 then Alt (Cat (deriv c r1) r2) (deriv c r2)
      else Cat (deriv c r1) r2
  | Alt r1 r2 => Alt (deriv c r1) (deriv c r2)
  | Star r1 => Cat (deriv c r1) (Star r1)
  end.

(** Does the whole of [s] match [r]? *)
Fixpoint fullmatch (r : re) (s : string) : bool :=
  match s with
  | EmptyString => nullable r
  | String c s' => fullmatch (deriv c r) s'
  end.

(** [re.compile("^" + r + "$").match(s)]: without MULTILINE, [$] holds at
    the end of the string and also just before a newline that is the
    last character, so the pattern accepts [s] when [s], or [s] without
    one final newline, matches [r] in full. *)
Definition match_anchored (r : re) (s : string) : bool :=
  fullmatch (Cat r (Alt Eps (Cls (fun c => bool_decide (c = Py.NL))))) s.

(** The strings a regular expression denotes. *)
Inductive lang : re -> string -> Prop :=
| lang_eps : lang Eps EmptyString
| lang_cls p c : p c = true -> lang (Cls p) (String c EmptyString)
| lang_cat r1 r2 s1 s2 : lang r1 s1 -> lang r2 s2 -> lang (Cat r1 r2) (s1 +:+ s2)
| lang_alt_l r1 r2 s : lang r1 s -> lang (Alt r1 r2) s
| lang_alt_r r1 r2 s : lang r2 s -> lang (Alt r1 r2) s
| lang_star_nil r : lang (Star r) EmptyString
| lang_star_cons r s1 s2 :
    lang r s1 -> lang (Star r) s2 -> lang (Star r) (s1 +:+ s2).

End Re.

(** ** Constants *)

(** The four field collections are Python sets of strings: the order in
    which a [for] loop visits them depends on the hash seed of the
    process.  Each list below gives one such order; the properties stated
    on the entries these loops report do not depend on it. *)
Definition REQUIRED_MARKETPLACE_FIELDS : list string := ["name"; "plugins"].
Definition REQUIRED_PLUGIN_FIELDS : list string := ["name"; "source"].
Definition RECOMMENDED_PLUGIN_FIELDS : list string := ["description"; "category"].
Definition REQUIRED_FRONTMATTER_FIELDS : list string := ["name"; "description"].
Definition MAX_NAME_LENGTH : nat := 64.
Definition MAX_DESCRIPTION_LENGTH : nat := 1024.
Definition MAX_SKILL_LINES : nat := 500.

Definition is_lower (c : ascii) : bool :=
  let n := nat_of_ascii c in ((97 <=? n) && (n <=? 122))%nat.
Definition is_digit (c : ascii) : bool :=
  let n := nat_of_ascii c in ((48 <=? n) && (n <=? 57))%nat.
Definition is_lower_digit (c : ascii) : bool := is_lower c || is_digit c.
Definition is_hyphen (c : ascii) : bool := bool_decide (c = "-"%char).

(** The pattern between the anchors of
    [^[a-z][a-z0-9]*(-[a-z0-9]+)*$]. *)
Definition NAME_PATTERN : Re.re :=
  Re.Cat (Re.Cls is_lower)
    (Re.Cat (Re.Star (Re.Cls is_lower_digit))
            (Re.Star (Re.Cat (Re.Cls is_hyphen) (Re.Plus (Re.Cls is_lower_digit))))).

Definition GERUND_SUFFIXES : list string := ["ing"; "ment"; "tion"; "sion"].
Definition FIRST_PERSON_STARTS : list string := ["i "; "we "; "my "; "our "].

(** The sets above are Python sets: the order in which a [for] loop visits
    them is not fixed by the language.  They are visited here in the order
    they are written, which only fixes the order of the entries reported
    for one object. *)

(** ** Frontmatter parser *)

Inductive fmval :=
| Scalar (s : string)
| Items (l : list string).

Record fmstate := {
  fm : gmap string fmval;
  current_key : option string;
  current_list : option (list string) }.

(** [current_key and current_list is not None], giving both. *)
Definition open_list (st : fmstate) : option (string * list string) :=
  match current_key st, current_list st with
  | Some k, Some l => if Py.nonempty k then Some (k, l) else None
  | _, _ => None
  end.

(** [if current_key and current_list is not None: fm[current_key] = current_list] *)
Definition save_list (st : fmstate) : gmap string fmval :=
  match open_list st with
  | Some (k, l) => <[k := Items l]> (fm st)
  | None => fm st
  end.

(** One round of the loop over the lines between the delimiters. *)
Definition fm_line (st : fmstate) (line : string) : fmstate :=
  let stripped := Py.strip line in
  if negb (Py.nonempty stripped) || Py.startswith "#" stripped then st
  else if Py.startswith "- " stripped then
    match open_list st with
    | Some (_, l) =>
        {| fm := fm st; current_key := current_key st;
           current_list := Some (l ++ [Py.strip (Py.drop_chars 2 stripped)]) |}
    | None => st
    end
  else if Py.contains ":" stripped then
    let '(key, value) := Py.partition ":"%char stripped in
    let key := Py.strip key in
    let value := Py.strip value in
    let fm1 := save_list st in
    if Py.nonempty value
    then {| fm := <[key := Scalar value]> fm1; current_key := Some key;
            current_list := None |}
    else {| fm := fm1; current_key := Some key; current_list := Some [] |}
  else st.

(** The lines before the first line that is the delimiter, or [None]
    when no line is. *)
Fixpoint until_delimiter (ls : list string) : option (list string) :=
  match ls with
  | [] => None
  | l :: ls' =>
      if decide (Py.strip l = "---") then Some []
      else match until_delimiter ls' with
           | Some body => Some (l :: body)
           | None => None
           end
  end.

Definition fm_init : fmstate :=
  {| fm := ∅; current_key := None; current_list := None |}.

(** [parse_frontmatter(content)], returning the pair [(dict, error)]. *)
Definition parse_frontmatter (content : string)
  : option (gmap string fmval) * option string :=
  match Py.split Py.NL content with
  | [] => (None, Some "No YAML frontmatter found (missing opening ---)")
  | first :: rest =>
      if decide (Py.strip first = "---") then
        match until_delimiter rest with
        | None => (None, Some "Unclosed YAML frontmatter (missing closing ---)")
        | Some body => (Some (save_list (fold_left fm_line body fm_init)), None)
        end
      else (None, Some "No YAML frontmatter found (missing opening ---)")
  end.

(** ** Validators *)

(** [x in data] for a string [x]: a key of a dict, an element of a list
    (the only JSON value equal to a str is that str), a substring of a
    str.  Numbers, booleans and None do not support [in]; the value given
    for them is not used. *)
Definition member_of (x : string) (data : json) : bool :=
  match data with
  | JObj d => dict_has x d
  | JArr l =>
      existsb (fun v => match v with JStr s => bool_decide (s = x) | _ => false end) l
  | JStr s => Py.contains x s
  | JNull | JBool _ | JNum _ => false
  end.

(** [validate_marketplace_structure(data, report)].  Python dispatches
    [field not in data] and [data["plugins"]] on the type of [data]: on a
    list or a str the membership tests succeed and only the subscript
    [data["plugins"]], evaluated when ["plugins" in data] holds, is a
    TypeError; on a number, a boolean or None the first membership test
    is one. *)
Definition validate_marketplace_structure (data : json) : M unit :=
  match data with
  | JObj d =>
      for_each REQUIRED_MARKETPLACE_FIELDS (fun field =>
        when (negb (dict_has field d))
          (error "required-field" [Lit "Missing required field: "; Str field]
             None None)) ;;
      match dict_get "plugins" d with
      | Some (JArr _) | None => ret tt
      | Some _ =>
          error "invalid-type" [Lit "Field 'plugins' must be an array"] None None
      end
  | JArr _ | JStr _ =>
      for_each REQUIRED_MARKETPLACE_FIELDS (fun field =>
        when (negb (member_of field data))
          (error "required-field" [Lit "Missing required field: "; Str field]
             None None)) ;;
      if member_of "plugins" data then raise else ret tt
  | JNull | JBool _ | JNum _ => raise
  end.

(** [parts[-1] if parts else ""] and [parts[-2] if len(parts) >= 2 else ""] *)
Definition last_part (parts : list string) : string :=
  default "" (last parts).
Definition parent_part (parts : list string) : string :=
  match rev parts with
  | _ :: p :: _ => p
  | _ => ""
  end.

(** [name.split("-")[0]] *)
Definition first_word (name : string) : string :=
  default "" (head (Py.split "-"%char name)).

(** [validate_name(name, skill_path, skill_md, report)].  The name comes
    from the frontmatter mapping and is a string or a list; [len] takes
    both, but [NAME_PATTERN.match] raises TypeError on a list. *)
Definition validate_name (name : fmval) (skill_path : string) : M unit :=
  match name with
  | Items _ => raise
  | Scalar name =>
      let skill_md := Some (SkillMd skill_path) in
      when (MAX_NAME_LENGTH <? Py.len name)%nat
        (error "name-too-long"
           [Lit "Name '"; Str name; Lit "' exceeds "; Num MAX_NAME_LENGTH;
            Lit " chars ("; Num (Py.len name); Lit ")"] skill_md None) ;;
      when (negb (Re.match_anchored NAME_PATTERN name))
        (error "invalid-name-format"
           [Lit "Name '"; Str name;
            Lit "' must be lowercase letters, numbers, and hyphens only"]
           skill_md None) ;;
      when (Py.contains "--" name)
        (error "consecutive-hyphens"
           [Lit "Name '"; Str name; Lit "' contains consecutive hyphens"]
           skill_md None) ;;
      when (negb (existsb (fun s => Py.endswith s (first_word name)) GERUND_SUFFIXES))
        (warning "non-gerund-name"
           [Lit "Name '"; Str name; Lit "' first word '"; Str (first_word name);
            Lit "' doesn't appear to be gerund form"] skill_md None) ;;
      let parts := Py.path_parts skill_path in
      let dir_name := last_part parts in
      let parent_dir := parent_part parts in
      let parent_prefixed :=
        if Py.nonempty parent_dir then parent_dir +:+ "-" +:+ dir_name else "" in
      when (bool_decide (name <> dir_name) && bool_decide (name <> parent_prefixed))
        (warning "name-mismatch"
           [Lit "Frontmatter name '"; Str name;
            Lit "' doesn't match directory name '"; Str dir_name; Lit "' or '";
            Str parent_prefixed; Lit "'"] skill_md None)
  end.

(** [validate_description(desc, skill_md, report)]; [desc.lower()] raises
    AttributeError on a list. *)
Definition validate_description (desc : fmval) (skill_path : string) : M unit :=
  match desc with
  | Items _ => raise
  | Scalar desc =>
      let skill_md := Some (SkillMd skill_path) in
      when (MAX_DESCRIPTION_LENGTH <? Py.len desc)%nat
        (error "description-too-long"
           [Lit "Description exceeds "; Num MAX_DESCRIPTION_LENGTH;
            Lit " chars ("; Num (Py.len desc); Lit ")"] skill_md None) ;;
      let lower := Py.strip (Py.lower desc) in
      when (existsb (fun p => Py.startswith p lower) FIRST_PERSON_STARTS)
        (warning "first-person-description"
           [Lit "Description should be third-person (avoid 'I', 'We')"]
           skill_md None) ;;
      when (negb (Py.contains "use when" lower))
        (warning "missing-use-when"
           [Lit "Description should include 'Use when' trigger clause"]
           skill_md None)
  end.

(** Truth value of a frontmatter value. *)
Definition fm_truthy (v : fmval) : bool :=
  match v with
  | Scalar s => Py.nonempty s
  | Items l => match l with [] => false | _ => true end
  end.

(** [len(content.split("\n"))] *)
Definition line_count (content : string) : nat :=
  List.length (Py.split Py.NL content).

(** Truth value of the error component: a non-empty string. *)
Definition err_truthy (err : option string) : bool :=
  match err with
  | Some e => Py.nonempty e
  | None => false
  end.

(** The part of [validate_skill_md] after the size check. *)
Definition check_frontmatter (content : string) (skill_path : string) : M unit :=
  let skill_md := Some (SkillMd skill_path) in
  let '(fm, err) := parse_frontmatter content in
  if err_truthy err then
    error "invalid-frontmatter" [Str (default "" err)] skill_md None
  else
    match fm with
    | None =>
        error "missing-frontmatter" [Lit "No frontmatter found"] skill_md None
    | Some fm =>
        for_each REQUIRED_FRONTMATTER_FIELDS (fun field =>
          when (bool_decide (fm !! field = None))
            (error "missing-frontmatter-field"
               [Lit "Missing required frontmatter field: "; Str field]
               skill_md None)) ;;
        match fm !! "name" with
        | Some name => when (fm_truthy name) (validate_name name skill_path)
        | None => ret tt
        end ;;
        match fm !! "description" with
        | Some desc => when (fm_truthy desc) (validate_description desc skill_path)
        | None => ret tt
        end
    end.

(** [validate_skill_md(skill_md, skill_path, report)] *)
Definition validate_skill_md (fs : FS) (skill_path : string) : M unit :=
  let skill_md := Some (SkillMd skill_path) in
  r <- do_read fs skill_path ;;
  match r with
  | inr e =>
      error "read-error"
        [Lit "Cannot read "; PathOf (SkillMd skill_path); Lit ": "; Str e]
        skill_md None
  | inl content =>
      when (MAX_SKILL_LINES <? line_count content)%nat
        (warning "skill-too-large"
           [Lit "SKILL.md is "; Num (line_count content); Lit " lines (max ";
            Num MAX_SKILL_LINES; Lit ")"] skill_md None) ;;
      check_frontmatter content skill_path
  end.

(** [skill_path.lstrip("./")] *)
Definition normalize (skill_path : string) : string :=
  Py.lstrip "./" skill_path.

(** One round of the loop over [skills] in [validate_plugin]; the
    ownership map is the dict [all_skill_paths], mutated in place. *)
Definition validate_skill (fs : FS) (plugin_name : json)
    (all_skill_paths : gmap string json) (skill_path : json)
  : M (gmap string json) :=
  count incr_skills_checked ;;
  match skill_path with
  | JStr skill_path =>
      let normalized := normalize skill_path in
      if negb (is_file fs normalized) then
        count incr_skills_missing ;;
        error "missing-skill"
          [Lit "Skill path does not exist: "; Str skill_path]
          (Some (SkillMd normalized))
          (Some [Lit "Remove '"; Str skill_path; Lit "' from plugin '";
                 Val plugin_name; Lit "' or create "; PathOf (SkillMd normalized)]) ;;
        ret all_skill_paths
      else
        match all_skill_paths !! normalized with
        | Some owner =>
            error "duplicate-path"
              [Lit "Skill path '"; Str skill_path; Lit "' appears in both '";
               Val owner; Lit "' and '"; Val plugin_name; Lit "'"] None None
        | None => ret tt
        end ;;
        let all_skill_paths := <[normalized := plugin_name]> all_skill_paths in
        validate_skill_md fs normalized ;;
        ret all_skill_paths
  | _ => raise
  end.

(** [for x in l: acc = body(acc, x)] *)
Fixpoint fold_each {A S} (body : S -> A -> M S) (l : list A) (acc : S) : M S :=
  match l with
  | [] => ret acc
  | x :: l' => acc' <- body acc x ;; fold_each body l' acc'
  end.

(** [plugin.get("name", f"plugin[{idx}]")] *)
Definition plugin_name_of (d : list (string * json)) (idx : nat) : json :=
  default (JStr ("plugin[" +:+ str_nat idx +:+ "]")) (dict_get "name" d).

(** [validate_plugin(plugin, idx, all_skill_paths, report, repo_root)] *)
Definition validate_plugin (fs : FS) (plugin : json) (idx : nat)
    (all_skill_paths : gmap string json) : M (gmap string json) :=
  count incr_plugins_checked ;;
  match plugin with
  | JObj d =>
      let plugin_name := plugin_name_of d idx in
      for_each REQUIRED_PLUGIN_FIELDS (fun field =>
        when (negb (dict_has field d))
          (error "required-field"
             [Lit "Plugin '"; Val plugin_name;
              Lit "': missing required field '"; Str field; Lit "'"] None None)) ;;
      for_each RECOMMENDED_PLUGIN_FIELDS (fun field =>
        when (negb (dict_has field d))
          (warning "recommended-field"
             [Lit "Plugin '"; Val plugin_name;
              Lit "': missing recommended field '"; Str field; Lit "'"] None None)) ;;
      match default (JArr []) (dict_get "skills" d) with
      | JArr skills => fold_each (validate_skill fs plugin_name) skills all_skill_paths
      | _ =>
          error "invalid-type"
            [Lit "Plugin '"; Val plugin_name; Lit "': 'skills' must be an array"]
            None None ;;
          ret all_skill_paths
      end
  | _ => raise
  end.

(** [for i, plugin in enumerate(plugins): validate_plugin(...)], from
    index [idx] on. *)
Fixpoint validate_plugins (fs : FS) (plugins : list json) (idx : nat)
    (all_skill_paths : gmap string json) : M (gmap string json) :=
  match plugins with
  | [] => ret all_skill_paths
  | plugin :: rest =>
      paths <- validate_plugin fs plugin idx all_skill_paths ;;
      validate_plugins fs rest (S idx) paths
  end.

(** [find_orphan_skills(repo_root, registered_paths, report)] *)
Definition find_orphan_skills (fs : FS) (registered_paths : gmap string json)
  : M (list string) :=
  if negb (skills_is_dir fs) then ret []
  else
    fold_each (fun orphans normalized =>
      match registered_paths !! normalized with
      | Some _ => ret orphans
      | None =>
          count incr_orphans_found ;;
          warning "orphan-skill"
            [Lit "Skill exists on disk but not in marketplace.json: "; Str normalized]
            (Some (SkillMd normalized))
            (Some [Lit "Add './"; Str normalized;
                   Lit "' to a plugin in marketplace.json"]) ;;
          ret (orphans ++ [normalized])
      end) (rglob_skill_md fs) [].

(** How a plugin name behaves as a key of the dict [seen]: a false value
    is skipped before the lookup, a list or dict cannot be hashed
    (TypeError), and [True] is the same key as [1]. *)
Inductive name_class :=
| Skip
| Key (k : Z + string)
| Unhashable.

Definition classify (name : json) : name_class :=
  match name with
  | JNull => Skip
  | JBool b => if b then Key (inl 1%Z) else Skip
  | JNum n => if (n =? 0)%Z then Skip else Key (inl n)
  | JStr s => if Py.nonempty s then Key (inr s) else Skip
  | JArr l => match l with [] => Skip | _ => Unhashable end
  | JObj d => match d with [] => Skip | _ => Unhashable end
  end.

(** [enumerate(l)], counting from [i]. *)
Fixpoint enumerate_from {A} (i : nat) (l : list A) : list (nat * A) :=
  match l with
  | [] => []
  | x :: l' => (i, x) :: enumerate_from (S i) l'
  end.

(** One round of the loop of [check_unique_plugin_names]. *)
Definition check_name (seen : gmap (Z + string) nat) (ip : nat * json)
  : M (gmap (Z + string) nat) :=
  match ip.2 with
  | JObj d =>
      let name := default (JStr "") (dict_get "name" d) in
      match classify name with
      | Skip => ret seen
      | Unhashable => raise
      | Key k =>
          match seen !! k with
          | Some j =>
              error "duplicate-plugin-name"
                [Lit "Plugin name '"; Val name;
                 Lit "' is used by plugins at index "; Num j; Lit " and "; Num ip.1]
                None None
          | None => ret tt
          end ;;
          ret (<[k := ip.1]> seen)
      end
  | _ => raise
  end.

(** [check_unique_plugin_names(plugins, report)] *)
Definition check_unique_plugin_names (plugins : list json) : M unit :=
  fold_each check_name (enumerate_from 0 plugins) ∅ ;; ret tt.

(** ** Fix mode *)

(** What [apply_fixes] prints and writes. *)
Inductive fix_event :=
| RemovedMissing (sp : string) (plugin_name : json)
| RemovedEmpty (n : nat)
| Written (data : json).

(** The inner loop of [apply_fixes]: the references kept, and the removals
    printed.  [None] when an element has no [lstrip]. *)
Fixpoint fix_skills (fs : FS) (pname : json) (skills : list json)
  : option (list json * list fix_event) :=
  match skills with
  | [] => Some ([], [])
  | JStr sp :: rest =>
      r ← fix_skills fs pname rest;
      if is_file fs (normalize sp) then Some (JStr sp :: r.1, r.2)
      else Some (r.1, RemovedMissing sp pname :: r.2)
  | _ :: _ => None
  end.

(** One round of the outer loop, with [plugin["skills"] = valid]. *)
Definition fix_plugin (fs : FS) (plugin : json) : option (json * list fix_event) :=
  match plugin with
  | JObj d =>
      skills ← py_iter (default (JArr []) (dict_get "skills" d));
      r ← fix_skills fs (default (JStr "?") (dict_get "name" d)) skills;
      Some (JObj (dict_set "skills" (JArr r.1) d), r.2)
  | _ => None
  end.

Fixpoint fix_plugins (fs : FS) (plugins : list json)
  : option (list json * list fix_event) :=
  match plugins with
  | [] => Some ([], [])
  | p :: rest =>
      r ← fix_plugin fs p;
      rs ← fix_plugins fs rest;
      Some (r.1 :: rs.1, r.2 ++ rs.2)
  end.

(** [p.get("skills")] as a truth value, for a plugin of the list. *)
Definition has_skills (p : json) : bool :=
  match p with
  | JObj d => match dict_get "skills" d with Some v => truthy v | None => false end
  | _ => false
  end.

Record fix_result := {
  fixed : bool;
  fix_events : list fix_event;
  fix_data : json }.

(** [apply_fixes(marketplace_path, data, repo_root, report)]: the plugins
    of [data["plugins"]] are mutated in place by the first loop, so the
    second pass filters the mutated ones.  [None] is an exception; all of
    them happen before the file is opened. *)
Definition apply_fixes (fs : FS) (data : json) : option fix_result :=
  match data with
  | JObj d =>
      plugins ← py_iter (default (JArr []) (dict_get "plugins" d));
      r ← fix_plugins fs plugins;
      _ ← dict_get "plugins" d;
      let original_count := List.length plugins in
      let kept := List.filter has_skills r.1 in
      let data' := JObj (dict_set "plugins" (JArr kept) d) in
      let emptied := (List.length kept <? original_count)%nat in
      let ev :=
        r.2 ++ (if emptied then [RemovedEmpty (original_count - List.length kept)]
                else []) in
      let fixed := match r.2 with [] => emptied | _ => true end in
      Some {| fixed := fixed;
              fix_events := if fixed then ev ++ [Written data'] else ev;
              fix_data := data' |}
  | _ => None
  end.

(** ** Main *)

(** What [verify] finds at [marketplace_path]: no file; a file that
    [json.load] rejects with [JSONDecodeError], with the text of the
    exception; a file on which [open] or [json.load] raises another
    exception, which [verify] does not catch (the file cannot be read, is
    not UTF-8, nests too deeply); the decoded value. *)
Inductive source :=
| NotAFile
| InvalidJson (e : string)
| LoadFailed
| Loaded (data : json).

Definition get_report : M Report := fun w => Ok (report w) w.

(** [verify(marketplace_path, output_json, fix)]; the result is what fix
    mode printed and wrote, the report is in the world.  On a decoded
    value that is not a dict, [data.get("plugins", [])] is an
    AttributeError. *)
Definition verify (fs : FS) (src : source) (fix_mode : bool) : M (list fix_event) :=
  match src with
  | NotAFile =>
      error "file-not-found" [Lit "File not found: "; ManifestPath] None None ;;
      ret []
  | InvalidJson e =>
      error "invalid-json" [Lit "Invalid JSON: "; Str e] None None ;;
      ret []
  | LoadFailed => raise
  | Loaded data =>
      validate_marketplace_structure data ;;
      match data with
      | JObj d =>
          match default (JArr []) (dict_get "plugins" d) with
          | JArr plugins =>
              check_unique_plugin_names plugins ;;
              all_skill_paths <- validate_plugins fs plugins 0 ∅ ;;
              find_orphan_skills fs all_skill_paths ;;
              r <- get_report ;;
              if fix_mode && negb (passed r) then
                match apply_fixes fs data with
                | Some f => ret (fix_events f)
                | None => raise
                end
              else ret []
          | _ => ret []
          end
      | _ => raise
      end
  end.

(** The exit status of [main]: [sys.exit(0 if report.passed() else 1)],
    and 1 when the interpreter ends on an uncaught exception. *)
Definition main (fs : FS) (src : source) (fix_mode : bool) : nat :=
  match verify fs src fix_mode world_init with
  | Ok _ w => if passed (report w) then 0 else 1
  | Raised => 1
  end.

(** The manifest file after a run: what the last write put there. *)
Fixpoint last_written (evs : list fix_event) (src : source) : source :=
  match evs with
  | [] => src
  | Written data :: evs' => last_written evs' (Loaded data)
  | _ :: evs' => last_written evs' src
  end.

Definition manifest_after (fs : FS) (src : source) (fix_mode : bool) : source :=
  match verify fs src fix_mode world_init with
  | Ok evs _ => last_written evs src
  | Raised => src
  end.

(** * Specification-side definitions and sample inputs *)

(** The rule identifiers of a list of entries. *)
Definition rules_of (l : list entry) : list string := map rule l.

(** The entries of a list that carry a given rule. *)
Definition with_rule (rl : string) (l : list entry) : list entry :=
  List.filter (fun e => bool_decide (rule e = rl)) l.

(** Normalization as the specification words it: one leading ["./"] is
    removed when present, and the path is unchanged otherwise. *)
Definition strip_dot_slash (p : string) : string :=
  if Py.startswith "./" p then Py.drop_chars 2 p else p.

(** A line break, and a document made of newline-terminated lines. *)
Definition nl : string := String Py.NL EmptyString.

Fixpoint unlines (ls : list string) : string :=
  match ls with
  | [] => EmptyString
  | l :: ls' => l +:+ nl +:+ unlines ls'
  end.

(** A string without line breaks. *)
Definition one_line (s : string) : Prop := List.length (Py.split Py.NL s) = 1.

(** A well-formed skill document. *)
Definition good_header : list string :=
  ["---"; "name: writing-tests"; "description: Use when writing tests."; "---"].

Definition good_doc : string := unlines good_header.

(** A plugin entry with the required fields and a list of references. *)
Definition plugin_entry (name : string) (skills : list string) : json :=
  JObj [("name", JStr name); ("source", JStr "s");
        ("description", JStr "d"); ("category", JStr "c");
        ("skills", JArr (map JStr skills))].

Definition manifest_of (plugins : list json) : json :=
  JObj [("name", JStr "m"); ("plugins", JArr plugins)].

(** A file system whose skill documents are the paths of [present], each
    holding [good_doc], with [found] what the walk of skills/ yields. *)
Definition fs_with (present found : list string) : FS :=
  {| is_file := fun p => bool_decide (p ∈ present);
     read_text := fun _ => inl good_doc;
     skills_is_dir := true;
     rglob_skill_md := found |}.

(** A skill kept in a hidden directory, referenced the usual way. *)
Definition hidden_ref : string := "./.claude/skills/writing-tests".
Definition fs_hidden : FS :=
  fs_with [".claude/skills/writing-tests"] [].

(** A document of exactly 500 lines, each ended by a line break. *)
Definition doc_500 : string := unlines (good_header ++ repeat "x" 496).

(** The effect of a computation on the world when it returns. *)
Definition outcome {A} (m : M A) (w : world) : option world :=
  match m w with
  | Ok _ w' => Some w'
  | Raised => None
  end.

(** [keeps R m]: whenever [m] returns, the world it leaves is related by
    [R] to the world it started in. *)
Definition keeps (R : world -> world -> Prop) {A} (m : M A) : Prop :=
  forall w a w', m w = Ok a w' -> R w w'.

(** The report only grew, by entries that satisfy [P]. *)
Definition adds (P : entry -> Prop) (w w' : world) : Prop :=
  exists es ws,
    errors (report w') = errors (report w) ++ es
    /\ warnings (report w') = warnings (report w) ++ ws
    /\ Forall P es /\ Forall P ws.

Definition rule_in (L : list string) (e : entry) : Prop := In (rule e) L.

(** The rules each validator can report. *)
Definition name_rules : list string :=
  ["name-too-long"; "invalid-name-format"; "consecutive-hyphens";
   "non-gerund-name"; "name-mismatch"].
Definition description_rules : list string :=
  ["description-too-long"; "first-person-description"; "missing-use-when"].
Definition skill_md_rules : list string :=
  ["read-error"; "skill-too-large"; "invalid-frontmatter";
   "missing-frontmatter-field"] ++ name_rules ++ description_rules.
Definition plugin_rules : list string :=
  ["required-field"; "recommended-field"; "invalid-type"; "missing-skill";
   "duplicate-path"] ++ skill_md_rules.
Definition verify_rules : list string :=
  ["file-not-found"; "invalid-json"; "duplicate-plugin-name"; "orphan-skill"]
  ++ plugin_rules.

(** ** Names *)

(** A character of [[a-z0-9-]]. *)
Definition allowed (c : ascii) : bool := is_lower c || is_digit c || is_hyphen c.

Definition is_upper (c : ascii) : bool :=
  let n := nat_of_ascii c in ((65 <=? n) && (n <=? 90))%nat.

Fixpoint chars (s : string) : list ascii :=
  match s with
  | EmptyString => []
  | String c s' => c :: chars s'
  end.

(** [s] without one final line break, if it has one. *)
Fixpoint chomp (s : string) : string :=
  match s with
  | EmptyString => EmptyString
  | String c EmptyString => if decide (c = Py.NL) then EmptyString else s
  | String c s' => String c (chomp s')
  end.

(** The three error entries of [validate_name]. *)
Definition name_too_long (name p : string) : entry :=
  {| severity := "error"; rule := "name-too-long";
     message := [Lit "Name '"; Str name; Lit "' exceeds "; Num MAX_NAME_LENGTH;
                 Lit " chars ("; Num (Py.len name); Lit ")"];
     path := Some (SkillMd p); fix_ := None |}.
Definition invalid_name_format (name p : string) : entry :=
  {| severity := "error"; rule := "invalid-name-format";
     message := [Lit "Name '"; Str name;
                 Lit "' must be lowercase letters, numbers, and hyphens only"];
     path := Some (SkillMd p); fix_ := None |}.
Definition consecutive_hyphens (name p : string) : entry :=
  {| severity := "error"; rule := "consecutive-hyphens";
     message := [Lit "Name '"; Str name; Lit "' contains consecutive hyphens"];
     path := Some (SkillMd p); fix_ := None |}.

(** ** Histories of claims *)

(** In a history of (key, value) pairs, oldest first, the value of the
    most recent pair with key [k]. *)
Definition latest {K V : Type} `{EqDecision K} (history : list (K * V)) (k : K)
  : option V :=
  snd <$> last (filter (fun kv => kv.1 = k) history).

(** The name of a plugin entry as [check_unique_plugin_names] reads it,
    and the dict key it stands for, if it is looked up at all. *)
Definition plugin_name_val (p : json) : json :=
  match p with
  | JObj d => default (JStr "") (dict_get "name" d)
  | _ => JStr ""
  end.

Definition plugin_key (p : json) : option (Z + string) :=
  match classify (plugin_name_val p) with
  | Key k => Some k
  | _ => None
  end.

(** A plugin entry that is an object whose name, if any, can be hashed. *)
Definition is_plain_plugin (p : json) : bool :=
  match p with
  | JObj d =>
      match classify (default (JStr "") (dict_get "name" d)) with
      | Unhashable => false
      | _ => true
      end
  | _ => false
  end.

Definition dup_name_entry (name : json) (j i : nat) : entry :=
  {| severity := "error"; rule := "duplicate-plugin-name";
     message := [Lit "Plugin name '"; Val name;
                 Lit "' is used by plugins at index "; Num j; Lit " and "; Num i];
     path := None; fix_ := None |}.

(** The duplicate-name errors of the plugins [rest], which start at
    index [i], after the named plugins of [history]: each plugin whose
    name occurred before is reported once, against the latest index at
    which it occurred. *)
Fixpoint dup_name_errors (history : list ((Z + string) * nat)) (i : nat)
    (rest : list json) : list entry :=
  match rest with
  | [] => []
  | p :: rest' =>
      match plugin_key p with
      | Some k =>
          match latest history k with
          | Some j => [dup_name_entry (plugin_name_val p) j i]
          | None => []
          end ++ dup_name_errors (history ++ [(k, i)]) (S i) rest'
      | None => dup_name_errors history (S i) rest'
      end
  end.

(** Three plugins of the same name. *)
Definition three_same_name : list json :=
  [plugin_entry "p" []; plugin_entry "p" []; plugin_entry "p" []].

(** [total R m]: [m] always returns, leaving a world related by [R]. *)
Definition total (R : world -> world -> Prop) {A} (m : M A) : Prop :=
  forall w, exists a w', m w = Ok a w' /\ R w w'.

(** The report grew by entries with rules of [L]; the counters and the
    read log are as before. *)
Definition grows (L : list string) (w w' : world) : Prop :=
  adds (rule_in L) w w'
  /\ stats (report w') = stats (report w)
  /\ reads w' = reads w.

(** A frontmatter value that is not a non-empty list. *)
Definition scalar_or_false (v : option fmval) : bool :=
  match v with
  | Some (Items (_ :: _)) => false
  | _ => true
  end.

(** A document whose name and description, if given, are not lists. *)
Definition safe_doc (content : string) : bool :=
  match parse_frontmatter content with
  | (Some fm, _) =>
      scalar_or_false (fm !! "name") && scalar_or_false (fm !! "description")
  | _ => true
  end.

(** A file system all of whose readable skill documents are safe. *)
Definition safe_fs (fs : FS) : Prop :=
  forall p, match read_text fs p with
            | inl content => safe_doc content = true
            | inr _ => True
            end.

(** ** Claims on skill paths *)

Definition dup_path_entry (skill_path : string) (owner plugin_name : json) : entry :=
  {| severity := "error"; rule := "duplicate-path";
     message := [Lit "Skill path '"; Str skill_path; Lit "' appears in both '";
                 Val owner; Lit "' and '"; Val plugin_name; Lit "'"];
     path := None; fix_ := None |}.

(** The references of a list of skills whose document exists, each with
    the name of the plugin that makes it. *)
Definition resolving (fs : FS) (plugin_name : json) (skills : list json)
  : list (string * json) :=
  omap (fun s => match s with
                 | JStr sp =>
                     if is_file fs (normalize sp) then Some (sp, plugin_name)
                     else None
                 | _ => None
                 end) skills.

Definition claims_of_plugin (fs : FS) (idx : nat) (plugin : json)
  : list (string * json) :=
  match plugin with
  | JObj d =>
      match default (JArr []) (dict_get "skills" d) with
      | JArr skills => resolving fs (plugin_name_of d idx) skills
      | _ => []
      end
  | _ => []
  end.

(** All resolving references of a run, in the order they are visited;
    the plugins start at index [idx]. *)
Fixpoint claims_from (fs : FS) (idx : nat) (plugins : list json)
  : list (string * json) :=
  match plugins with
  | [] => []
  | p :: rest => claims_of_plugin fs idx p ++ claims_from fs (S idx) rest
  end.

(** The history of ownership the claims make: normalized path, claimer. *)
Definition owners (claims : list (string * json)) : list (string * json) :=
  map (fun c => (normalize c.1, c.2)) claims.

(** The duplicate-path errors of [claims] after [history]: a claim on a
    path claimed before is reported once, against the latest claimer. *)
Fixpoint dup_path_errors (history claims : list (string * json)) : list entry :=
  match claims with
  | [] => []
  | c :: rest =>
      match latest history (normalize c.1) with
      | Some owner => [dup_path_entry c.1 owner c.2]
      | None => []
      end ++ dup_path_errors (history ++ [(normalize c.1, c.2)]) rest
  end.

(** What a part of the plugin loop did, given the claims [cl] it made
    after [history] and the number [k] of plugins it visited. *)
Definition tracks (history cl : list (string * json)) (k : nat)
    (paths' : gmap string json) (w w' : world) : Prop :=
  (forall n, paths' !! n = latest (history ++ owners cl) n)
  /\ with_rule "duplicate-path" (errors (report w'))
     = with_rule "duplicate-path" (errors (report w)) ++ dup_path_errors history cl
  /\ reads w' = reads w ++ map (fun c => normalize c.1) cl
  /\ plugins_checked (stats (report w')) = plugins_checked (stats (report w)) + k
  /\ orphans_found (stats (report w')) = orphans_found (stats (report w)).

(** A plugin entry that is an object whose skills, when a list, are
    strings. *)
Definition is_str (j : json) : bool :=
  match j with JStr _ => true | _ => false end.

Definition is_wf_plugin (p : json) : bool :=
  match p with
  | JObj d =>
      match default (JArr []) (dict_get "skills" d) with
      | JArr skills => forallb is_str skills
      | _ => true
      end
  | _ => false
  end.

(** Three plugins that reference the same document. *)
Definition three_claimers : list json :=
  [plugin_entry "a" ["./skills/writing-tests"];
   plugin_entry "b" ["skills/writing-tests"];
   plugin_entry "c" ["./skills/writing-tests"]].

Definition fs_one_skill : FS :=
  fs_with ["skills/writing-tests"] ["skills/writing-tests"].

(** ** Orphans and structure *)

Definition orphan_entry (normalized : string) : entry :=
  {| severity := "warning"; rule := "orphan-skill";
     message := [Lit "Skill exists on disk but not in marketplace.json: ";
                 Str normalized];
     path := Some (SkillMd normalized);
     fix_ := Some [Lit "Add './"; Str normalized;
                   Lit "' to a plugin in marketplace.json"] |}.

(** The documents found on disk that no claim registers. *)
Definition unregistered (fs : FS) (claims : list (string * json)) : list string :=
  if skills_is_dir fs
  then filter (fun n => n ∉ map (fun c => normalize c.1) claims) (rglob_skill_md fs)
  else [].

Definition required_field_entry (field : string) : entry :=
  {| severity := "error"; rule := "required-field";
     message := [Lit "Missing required field: "; Str field];
     path := None; fix_ := None |}.

Definition invalid_plugins_entry : entry :=
  {| severity := "error"; rule := "invalid-type";
     message := [Lit "Field 'plugins' must be an array"];
     path := None; fix_ := None |}.

(** The errors of the structural check on a manifest object, in one of
    the orders the loop over the required fields can give them. *)
Definition structure_errors (d : list (string * json)) : list entry :=
  (if dict_has "name" d then [] else [required_field_entry "name"])
  ++ (if dict_has "plugins" d then [] else [required_field_entry "plugins"])
  ++ match dict_get "plugins" d with
     | Some (JArr _) | None => []
     | Some _ => [invalid_plugins_entry]
     end.

(** A manifest whose plugins field is not a sequence, over a file system
    with a skill document that no plugin references. *)
Definition manifest_bad_plugins : json :=
  JObj [("name", JStr "m"); ("plugins", JStr "none")].

Definition fs_lonely : FS := fs_with [] ["skills/lonely"].

(** What a run of [verify] without fix mode leaves behind, on a manifest
    object whose plugins are [plugins]. *)
Record run_facts (fs : FS) (d : list (string * json)) (plugins : list json)
    (w' : world) : Prop := {
  rf_structure : exists recorded rest,
                   errors (report w') = recorded ++ rest
                   /\ Permutation recorded (structure_errors d);
  rf_names : with_rule "duplicate-plugin-name" (errors (report w'))
             = dup_name_errors [] 0 plugins;
  rf_paths : with_rule "duplicate-path" (errors (report w'))
             = dup_path_errors [] (claims_from fs 0 plugins);
  rf_reads : reads w' = map (fun c => normalize c.1) (claims_from fs 0 plugins);
  rf_plugins : plugins_checked (stats (report w')) = List.length plugins;
  rf_orphans : with_rule "orphan-skill" (warnings (report w'))
               = map orphan_entry (unregistered fs (claims_from fs 0 plugins));
  rf_orphans_found : orphans_found (stats (report w'))
                     = List.length (unregistered fs (claims_from fs 0 plugins)) }.

(** A manifest with a dangling reference and a plugin left without
    skills once it is pruned. *)
Definition manifest_dangling : json :=
  manifest_of [plugin_entry "a" ["./skills/writing-tests"; "./skills/gone"];
               plugin_entry "b" ["./skills/nothing"]].

(** The manifest of the end-to-end scenarios. *)
Definition manifest_simple : list (string * json) :=
  [("name", JStr "m");
   ("plugins", JArr [plugin_entry "p" ["./skills/writing-tests"]])].

Definition fields_of_three_claimers : list (string * json) :=
  [("name", JStr "m"); ("plugins", JArr three_claimers)].

(** A string that holds no line break. *)
Definition clean (s : string) : Prop := Forall (fun c => c <> Py.NL) (chars s).

(** A frontmatter mapping whose scalar values hold no line break. *)
Definition clean_scalars (m : gmap string fmval) : Prop :=
  forall k v, m !! k = Some (Scalar v) -> clean v.

(** The manifest of the documented end-to-end scenarios. *)
Definition manifest_scenario : json :=
  JObj [("name", JStr "m");
        ("plugins",
         JArr [JObj [("name", JStr "p"); ("source", JStr "s");
                     ("skills", JArr [JStr "./skills/writing-tests"])]])].


(** * The rest of the script *)

(** ** Renderings of the report *)

(** The dict [Report.to_dict] returns. *)
Record report_dict := {
  status : string;
  dict_errors : list entry;
  dict_warnings : list entry;
  dict_stats : Stats }.

(** [Report.to_dict] *)
Definition to_dict (r : Report) : report_dict :=
  {| status := if passed r then "PASS" else "FAIL";
     dict_errors := errors r;
     dict_warnings := warnings r;
     dict_stats := stats r |}.

(** The line [to_table] gives one entry; the fix text, when there is
    one, follows a line break inside the same element. *)
Definition entry_line (e : entry) : msg :=
  [Lit "- ["; Str (rule e); Lit "]"]
  ++ match path e with
     | Some p => [Lit " "; PathOf p]
     | None => []
     end
  ++ [Lit " - "] ++ message e
  ++ match fix_ e with
     | Some f => Lit (nl +:+ "  Fix: ") :: f
     | None => []
     end.

(** One of the two optional sections of the table. *)
Definition table_section (title : string) (l : list entry) : list msg :=
  match l with
  | [] => []
  | _ => [Lit "### "; Lit title; Lit " ("; Num (List.length l); Lit ")"]
         :: map entry_line l ++ [[Lit ""]]
  end.

(** The list [lines] that [Report.to_table] builds. *)
Definition table_lines (r : Report) : list msg :=
  let status := if passed r then "PASS" else "FAIL" in
  [[Lit "## Marketplace Validation Report"]; [Lit ""];
   [Lit "Status: "; Str status]; [Lit ""]]
  ++ table_section "Errors" (errors r)
  ++ table_section "Warnings" (warnings r)
  ++ [[Lit "### Summary"];
      [Lit "- Plugins checked: "; Num (plugins_checked (stats r))];
      [Lit "- Skills checked: "; Num (skills_checked (stats r))];
      [Lit "- Skills missing: "; Num (skills_missing (stats r))];
      [Lit "- Orphans found: "; Num (orphans_found (stats r))];
      [Lit "- Errors: "; Num (List.length (errors r))];
      [Lit "- Warnings: "; Num (List.length (warnings r))]].

(** ["\n".join(lines)] *)
Definition join_lines (lines : list msg) : msg :=
  match lines with
  | [] => []
  | first :: rest => first ++ flat_map (fun line => Lit nl :: line) rest
  end.

(** [Report.to_table]: the text returned. *)
Definition to_table (r : Report) : msg := join_lines (table_lines r).

(** ** Entries and sample inputs for the properties below *)

Definition file_not_found_entry : entry :=
  {| severity := "error"; rule := "file-not-found";
     message := [Lit "File not found: "; ManifestPath];
     path := None; fix_ := None |}.

Definition invalid_json_entry (e : string) : entry :=
  {| severity := "error"; rule := "invalid-json";
     message := [Lit "Invalid JSON: "; Str e];
     path := None; fix_ := None |}.

(** A character that [lstrip("./")] removes. *)
Definition dot_or_slash (c : ascii) : Prop := c = "."%char \/ c = "/"%char.

(** A manifest without a plugins field. *)
Definition manifest_no_plugins : list (string * json) := [("name", JStr "m")].

(** A skill document whose name is given as a list. *)
Definition list_name_doc : string :=
  unlines ["---"; "name:"; "- writing-tests"; "description: Use when writing tests.";
           "---"].

(** The last character of [s] exists and does not satisfy [p]. *)
Fixpoint last_not (p : ascii -> bool) (s : string) : bool :=
  match s with
  | EmptyString => false
  | String c EmptyString => negb (p c)
  | String _ s' => last_not p s'
  end.

(** The entries of [validate_description]. *)
Definition description_too_long (desc p : string) : entry :=
  {| severity := "error"; rule := "description-too-long";
     message := [Lit "Description exceeds "; Num MAX_DESCRIPTION_LENGTH;
                 Lit " chars ("; Num (Py.len desc); Lit ")"];
     path := Some (SkillMd p); fix_ := None |}.
Definition first_person_description (p : string) : entry :=
  {| severity := "warning"; rule := "first-person-description";
     message := [Lit "Description should be third-person (avoid 'I', 'We')"];
     path := Some (SkillMd p); fix_ := None |}.
Definition missing_use_when (p : string) : entry :=
  {| severity := "warning"; rule := "missing-use-when";
     message := [Lit "Description should include 'Use when' trigger clause"];
     path := Some (SkillMd p); fix_ := None |}.

(** ** Counters and entries *)

(** The counters agree with the rest of the world: every skill counted
    as checked was counted missing or had its document read, and the
    missing and orphan counts are the numbers of entries of those rules. *)
Definition counters_agree (w : world) : Prop :=
  skills_checked (stats (report w))
  = skills_missing (stats (report w)) + List.length (reads w)
  /\ skills_missing (stats (report w))
     = List.length (with_rule "missing-skill" (errors (report w)))
  /\ orphans_found (stats (report w))
     = List.length (with_rule "orphan-skill" (warnings (report w))).

(** None of what [counters_agree] relates has changed. *)
Definition steady (w w' : world) : Prop :=
  skills_checked (stats (report w')) = skills_checked (stats (report w))
  /\ skills_missing (stats (report w')) = skills_missing (stats (report w))
  /\ orphans_found (stats (report w')) = orphans_found (stats (report w))
  /\ reads w' = reads w
  /\ with_rule "missing-skill" (errors (report w'))
     = with_rule "missing-skill" (errors (report w))
  /\ with_rule "orphan-skill" (warnings (report w'))
     = with_rule "orphan-skill" (warnings (report w)).

Definition agreement_kept (w w' : world) : Prop :=
  counters_agree w -> counters_agree w'.

(** ** What fix mode leaves *)

(** A reference that resolves to a document. *)
Definition resolves (fs : FS) (s : json) : bool :=
  match s with
  | JStr sp => is_file fs (normalize sp)
  | _ => false
  end.

(** The references a plugin entry lists, as [apply_fixes] walks them. *)
Definition skills_of (p : json) : list json :=
  match p with
  | JObj d => default [] (py_iter (default (JArr []) (dict_get "skills" d)))
  | _ => []
  end.

(** A plugin entry with its skills replaced by those that resolve. *)
Definition pruned (fs : FS) (p : json) : json :=
  match p with
  | JObj d => JObj (dict_set "skills" (JArr (List.filter (resolves fs) (skills_of p))) d)
  | _ => p
  end.

Definition is_written (e : fix_event) : bool :=
  match e with Written _ => true | _ => false end.

(** ** Lines of a document *)

(** A line that is the frontmatter delimiter. *)
Definition is_delimiter (l : string) : Prop := Py.strip l = "---".

(** A line the parser skips: blank, or a comment. *)
Definition is_skipped (l : string) : Prop :=
  Py.strip l = "" \/ Py.startswith "#" (Py.strip l) = true.

Definition NO_OPENING : string := "No YAML frontmatter found (missing opening ---)".
Definition UNCLOSED : string := "Unclosed YAML frontmatter (missing closing ---)".

(** A frontmatter mapping whose scalars are non-empty and whose lists
    sit under non-empty keys. *)
Definition well_valued (m : gmap string fmval) : Prop :=
  (forall k v, m !! k = Some (Scalar v) -> v <> "")
  /\ (forall k l, m !! k = Some (Items l) -> k <> "").

(** A line [key:] that opens a list under [key]. *)
Definition opens_list (key line : string) : Prop :=
  Py.nonempty (Py.strip line) = true
  /\ Py.startswith "#" (Py.strip line) = false
  /\ Py.startswith "- " (Py.strip line) = false
  /\ Py.contains ":" (Py.strip line) = true
  /\ Py.strip (Py.partition ":"%char (Py.strip line)).1 = key
  /\ Py.strip (Py.partition ":"%char (Py.strip line)).2 = ""
  /\ key <> "".

(** A line [- item]. *)
Definition is_item (line : string) : Prop :=
  Py.startswith "- " (Py.strip line) = true.

(** [stripped[2:].strip()] of a list-item line. *)
Definition item_text (line : string) : string :=
  Py.strip (Py.drop_chars 2 (Py.strip line)).

(** A line [key: value] with a non-empty value. *)
Definition sets_scalar (key value line : string) : Prop :=
  Py.nonempty (Py.strip line) = true
  /\ Py.startswith "#" (Py.strip line) = false
  /\ Py.startswith "- " (Py.strip line) = false
  /\ Py.contains ":" (Py.strip line) = true
  /\ Py.strip (Py.partition ":"%char (Py.strip line)).1 = key
  /\ Py.strip (Py.partition ":"%char (Py.strip line)).2 = value
  /\ value <> "".

(** A document with a list-valued field and one with a repeated key. *)
Definition tags_doc : string :=
  unlines ["---"; "name: writing-tests"; "tags:"; "  - alpha"; "- beta  "; "---";
           "body"].
Definition repeated_key_doc : string :=
  unlines ["---"; "name: first"; "# note"; "name:   second  "; "---"].

(** ** Hyphens in names *)

(** No two hyphens in a row in [s], [prev] telling whether a hyphen
    comes just before it. *)
Fixpoint no_double_hyphen (prev : bool) (s : string) : bool :=
  match s with
  | EmptyString => true
  | String c s' =>
      if is_hyphen c then (if prev then false else no_double_hyphen true s')
      else no_double_hyphen false s'
  end.

(** Whether [s], read after a character that was a hyphen or not
    ([prev]), ends on a hyphen. *)
Fixpoint ends_on_hyphen (prev : bool) (s : string) : bool :=
  match s with
  | EmptyString => prev
  | String c s' => ends_on_hyphen (is_hyphen c) s'
  end.

(** The error of [validate_plugin] on a skills field that is no list. *)
Definition invalid_skills_entry (plugin_name : json) : entry :=
  {| severity := "error"; rule := "invalid-type";
     message := [Lit "Plugin '"; Val plugin_name; Lit "': 'skills' must be an array"];
     path := None; fix_ := None |}.

(** A plugin entry whose skills field is a string. *)
Definition plugin_skills_string : list (string * json) :=
  [("name", JStr "p"); ("source", JStr "s"); ("skills", JStr "skills/writing-tests")].

(** A file system in which every document reads as [list_name_doc]. *)
Definition fs_list_name : FS :=
  {| is_file := fun _ => true; read_text := fun _ => inl list_name_doc;
     skills_is_dir := false; rglob_skill_md := [] |}.
(** ** Checks that do not look at the report *)

Definition stats_plus (a b : Stats) : Stats :=
  {| plugins_checked := plugins_checked a + plugins_checked b;
     skills_checked := skills_checked a + skills_checked b;
     skills_missing := skills_missing a + skills_missing b;
     orphans_found := orphans_found a + orphans_found b |}.

(** The world [w] with what [w0] holds put in front: the entries and the
    reads of [w0] come first, the counters add up. *)
Definition ahead (w0 w : world) : world :=
  {| report := {| errors := errors (report w0) ++ errors (report w);
                  warnings := warnings (report w0) ++ warnings (report w);
                  stats := stats_plus (stats (report w0)) (stats (report w)) |};
     reads := reads w0 ++ reads w |}.

Definition shifted {A} (w0 : world) (r : res A) : res A :=
  match r with
  | Ok a w => Ok a (ahead w0 w)
  | Raised => Raised
  end.

(** [m] does not look at what the world holds when it starts: started
    with more in front it returns the same value, or raises alike, and
    leaves what it would have left, behind what was in front. *)
Definition blind {A} (m : M A) : Prop :=
  forall w0 w, m (ahead w0 w) = shifted w0 (m w).

(** The three checks of [verify] that follow the structural check. *)
Definition later_checks (fs : FS) (plugins : list json) : M unit :=
  check_unique_plugin_names plugins ;;
  all_skill_paths <- validate_plugins fs plugins 0 ∅ ;;
  find_orphan_skills fs all_skill_paths ;;
  ret tt.

(** The rules the checks on a loaded manifest can report. *)
Definition loaded_rules : list string :=
  ["duplicate-plugin-name"; "orphan-skill"] ++ plugin_rules.

(** A skill document whose name has an uppercase letter. *)
Definition upper_name_doc : string :=
  unlines ["---"; "name: Writing"; "description: Use when writing tests."; "---"].

(** The entries the structural check adds on a list or a str that does
    not hold "plugins", in one of the orders of its loop. *)
Definition missing_fields (data : json) : list entry :=
  (if member_of "name" data then [] else [required_field_entry "name"])
  ++ [required_field_entry "plugins"].

(** * Properties *)

(** ** Report and exit status *)

Lemma passed_true_iff (r : Report) : passed r = true <-> errors r = [].
Proof.
  unfold passed. destruct (errors r) as [|e l]; simpl.
  - split; reflexivity.
  - split; discriminate.
Qed.

Lemma passed_warning rl m p f r : passed (Report_warning rl m p f r) = passed r.
Proof. reflexivity. Qed.


(** ** Normalization of skill references *)

Lemma normalize_dot_slash (q : string) : normalize ("./" +:+ q) = normalize q.
Proof. reflexivity. Qed.

Lemma normalize_clean (c : ascii) (q : string) :
  c <> "."%char -> c <> "/"%char ->
  normalize (String c q) = String c q /\
  normalize ("./" +:+ String c q) = String c q.
Proof.
  intros H1 H2. unfold normalize, Py.lstrip. simpl.
  destruct (decide (c = "."%char)) as [|_]; [contradiction|].
  destruct (decide (c = "/"%char)) as [|_]; [contradiction|].
  split; reflexivity.
Qed.

(** C2: on the reference "./.claude/skills/writing-tests" the code's
    normalization also removes the dot of the directory name, where one
    leading "./" removed leaves ".claude/skills/writing-tests"; the
    document that exists there is then looked up elsewhere and reported
    missing. *)
Theorem C2_normalize_strips_too_much :
  normalize hidden_ref = "claude/skills/writing-tests"
  /\ strip_dot_slash hidden_ref = ".claude/skills/writing-tests"
  /\ is_file fs_hidden (strip_dot_slash hidden_ref) = true
  /\ (rules_of <$>
        (errors <$> (report <$>
           outcome (verify fs_hidden
                      (Loaded (manifest_of [plugin_entry "p" [hidden_ref]])) false)
                   world_init)))
     = Some ["missing-skill"].
Proof. vm_compute. repeat split. Qed.

(** ** Size check *)

Lemma split_length_cons (sep : ascii) (c : ascii) (s : string) :
  c <> sep -> List.length (Py.split sep (String c s)) = List.length (Py.split sep s).
Proof.
  intros Hc. simpl. destruct (decide (c = sep)) as [|_]; [contradiction|].
  destruct (Py.split sep s) eqn:E; [|reflexivity].
  destruct s; simpl in E; [discriminate|].
  destruct (decide (a = sep)); [discriminate|].
  destruct (Py.split sep s); discriminate.
Qed.

Lemma line_count_app_line (l rest : string) :
  one_line l -> line_count (l +:+ nl +:+ rest) = S (line_count rest).
Proof.
  unfold one_line, line_count. induction l as [|c l IH]; intros H.
  - simpl. destruct (decide (Py.NL = Py.NL)); [reflexivity|contradiction].
  - simpl in H |- *. destruct (decide (c = Py.NL)) as [->|Hc].
    + simpl in H. injection H as H. destruct l; simpl in H; [discriminate|].
      destruct (decide (a = Py.NL)); [discriminate|].
      destruct (Py.split Py.NL l); discriminate.
    + assert (Hl : List.length (Py.split Py.NL l) = 1).
      { destruct (Py.split Py.NL l) eqn:E; [|exact H].
        destruct l; simpl in E; [discriminate|].
        destruct (decide (a = Py.NL)); [discriminate|].
        destruct (Py.split Py.NL l); discriminate. }
      specialize (IH Hl).
      change ((l +:+ nl +:+ rest)) with (l +:+ nl +:+ rest) in IH.
      destruct (Py.split Py.NL (l +:+ nl +:+ rest)) eqn:E.
      * simpl in IH. discriminate.
      * simpl in IH |- *. exact IH.
Qed.

(** A document of [n] newline-terminated lines counts as [n + 1]. *)
Lemma line_count_unlines (ls : list string) :
  Forall one_line ls -> line_count (unlines ls) = S (List.length ls).
Proof.
  induction 1 as [|l ls Hl _ IH]; [reflexivity|].
  simpl. rewrite line_count_app_line by exact Hl. now rewrite IH.
Qed.

(** C8: a document of 500 newline-terminated lines is counted as 501
    lines and draws the skill-too-large warning. *)
Theorem C8_500_lines_flagged :
  line_count doc_500 = 501
  /\ (with_rule "skill-too-large" <$>
        (warnings <$> (report <$>
           outcome (validate_skill_md
                      {| is_file := fun _ => true;
                         read_text := fun _ => inl doc_500;
                         skills_is_dir := false; rglob_skill_md := [] |}
                      "writing-tests") world_init)))
     = Some [{| severity := "warning"; rule := "skill-too-large";
                message := [Lit "SKILL.md is "; Num 501; Lit " lines (max ";
                            Num 500; Lit ")"];
                path := Some (SkillMd "writing-tests"); fix_ := None |}].
Proof. split; vm_compute; reflexivity. Qed.

(** ** Reasoning about the effects of the validators *)

Section Keeps.
Variable R : world -> world -> Prop.
Hypothesis R_refl : forall w, R w w.
Hypothesis R_trans : forall a b c, R a b -> R b c -> R a c.

Lemma keeps_ret {A} (a : A) : keeps R (ret a).
Proof using R_refl. intros w a' w' H. injection H as _ <-. apply R_refl. Qed.

Lemma keeps_raise {A} : keeps R (@raise A).
Proof. intros w a w' H. discriminate. Qed.

Lemma keeps_bind {A B} (m : M A) (k : A -> M B) :
  keeps R m -> (forall a, keeps R (k a)) -> keeps R (bind m k).
Proof using R_trans.
  intros Hm Hk w b w' H. unfold bind in H.
  destruct (m w) as [a w1|] eqn:E; [|discriminate].
  eapply R_trans; [eapply Hm, E | eapply Hk, H].
Qed.

Lemma keeps_when (b : bool) (m : M unit) : keeps R m -> keeps R (when b m).
Proof using R_refl. intros Hm. destruct b; [exact Hm | apply keeps_ret]. Qed.

Lemma keeps_for_each {A} (l : list A) (body : A -> M unit) :
  (forall x, keeps R (body x)) -> keeps R (for_each l body).
Proof using R_refl R_trans.
  intros Hb. induction l as [|x l IH]; simpl.
  - apply keeps_ret.
  - apply keeps_bind; [apply Hb | intros _; exact IH].
Qed.

Lemma keeps_fold_each {A S} (body : S -> A -> M S) (l : list A) (acc : S) :
  (forall s x, keeps R (body s x)) -> keeps R (fold_each body l acc).
Proof using R_refl R_trans.
  intros Hb. revert acc. induction l as [|x l IH]; intros acc; simpl.
  - apply keeps_ret.
  - apply keeps_bind; [apply Hb | intros s; apply IH].
Qed.

Lemma keeps_get_report : keeps R get_report.
Proof using R_refl. intros w a w' H. injection H as _ <-. apply R_refl. Qed.
End Keeps.

Lemma adds_refl P w : adds P w w.
Proof. exists [], []. rewrite !app_nil_r. auto. Qed.

Lemma adds_trans P a b c : adds P a b -> adds P b c -> adds P a c.
Proof.
  intros (e1 & w1 & He1 & Hw1 & Pe1 & Pw1) (e2 & w2 & He2 & Hw2 & Pe2 & Pw2).
  exists (e1 ++ e2), (w1 ++ w2).
  rewrite He2, He1, Hw2, Hw1, <- !app_assoc.
  repeat split; try reflexivity; apply Forall_app; auto.
Qed.

Lemma adds_weaken (P Q : entry -> Prop) w w' :
  (forall e, P e -> Q e) -> adds P w w' -> adds Q w w'.
Proof.
  intros HPQ (es & ws & He & Hw & Pe & Pw). exists es, ws.
  repeat split; auto; eapply Forall_impl; eauto.
Qed.

Lemma keeps_weaken (P Q : entry -> Prop) {A} (m : M A) :
  (forall e, P e -> Q e) -> keeps (adds P) m -> keeps (adds Q) m.
Proof. intros HPQ Hm w a w' H. eapply adds_weaken; [exact HPQ | eapply Hm, H]. Qed.

Lemma error_adds (P : entry -> Prop) rl m p f :
  P {| severity := "error"; rule := rl; message := m; path := p; fix_ := f |} ->
  keeps (adds P) (error rl m p f).
Proof.
  intros HP w a w' H. injection H as _ <-.
  eexists [_], []. simpl. rewrite app_nil_r. repeat split; auto.
Qed.

Lemma warning_adds (P : entry -> Prop) rl m p f :
  P {| severity := "warning"; rule := rl; message := m; path := p; fix_ := f |} ->
  keeps (adds P) (warning rl m p f).
Proof.
  intros HP w a w' H. injection H as _ <-.
  eexists [], [_]. simpl. rewrite app_nil_r. repeat split; auto.
Qed.

Lemma count_adds (P : entry -> Prop) f : keeps (adds P) (count f).
Proof.
  intros w a w' H. injection H as _ <-.
  exists [], []. simpl. rewrite !app_nil_r. auto.
Qed.

Lemma do_read_adds (P : entry -> Prop) fs p : keeps (adds P) (do_read fs p).
Proof.
  intros w a w' H. injection H as _ <-.
  exists [], []. simpl. rewrite !app_nil_r. auto.
Qed.

Lemma rule_in_here L rl sev m p f :
  In rl L ->
  rule_in L {| severity := sev; rule := rl; message := m; path := p; fix_ := f |}.
Proof. intros H. exact H. Qed.

Lemma rule_in_incl L L' e : incl L L' -> rule_in L e -> rule_in L' e.
Proof. intros H Hin. apply H, Hin. Qed.

Lemma keeps_incl (L L' : list string) {A} (m : M A) :
  incl L L' -> keeps (adds (rule_in L)) m -> keeps (adds (rule_in L')) m.
Proof. intros H. apply keeps_weaken. intros e. now apply rule_in_incl. Qed.

Ltac incl_rules :=
  let x := fresh "x" in let Hx := fresh "Hx" in
  intros x Hx; cbv in Hx |- *; tauto.

Create HintDb adds_db.

(** Decomposes a goal [keeps (adds (rule_in L)) m] along the structure of
    [m]; validators already treated are looked up in [adds_db]. *)
Ltac adds_step :=
  lazymatch goal with
  | |- keeps _ (ret _) => apply keeps_ret; apply adds_refl
  | |- keeps _ raise => apply keeps_raise
  | |- keeps _ get_report => apply keeps_get_report; apply adds_refl
  | |- keeps _ (count _) => apply count_adds
  | |- keeps _ (do_read _ _) => apply do_read_adds
  | |- keeps _ (error _ _ _ _) => apply error_adds; apply rule_in_here; simpl; tauto
  | |- keeps _ (warning _ _ _ _) =>
      apply warning_adds; apply rule_in_here; simpl; tauto
  | |- keeps _ (when _ _) => apply keeps_when; [apply adds_refl|]
  | |- keeps _ (for_each _ _) =>
      apply keeps_for_each; [apply adds_refl | apply adds_trans | intros ?]
  | |- keeps _ (fold_each _ _ _) =>
      apply keeps_fold_each; [apply adds_refl | apply adds_trans | intros ? ?]
  | |- keeps _ (bind _ _) => apply keeps_bind; [apply adds_trans | | intros ?]
  | |- keeps _ (match ?x with _ => _ end) => destruct x
  | |- keeps _ _ =>
      eapply keeps_incl; [| solve [eauto 2 with adds_db nocore]]; [incl_rules]
  end.

Ltac adds_auto := repeat adds_step.

(** ** The frontmatter parser always answers *)

Lemma parse_frontmatter_cases (content : string) :
  (exists fm, parse_frontmatter content = (Some fm, None))
  \/ (exists e, parse_frontmatter content = (None, Some e) /\ e <> "").
Proof.
  unfold parse_frontmatter.
  destruct (Py.split Py.NL content) as [|first rest].
  - right. eexists. split; [reflexivity | discriminate].
  - destruct (decide (Py.strip first = "---")).
    + destruct (until_delimiter rest).
      * left. eexists. reflexivity.
      * right. eexists. split; [reflexivity | discriminate].
    + right. eexists. split; [reflexivity | discriminate].
Qed.

Lemma validate_name_adds name p :
  keeps (adds (rule_in name_rules)) (validate_name name p).
Proof. unfold validate_name. adds_auto. Qed.

Lemma validate_description_adds desc p :
  keeps (adds (rule_in description_rules)) (validate_description desc p).
Proof. unfold validate_description. adds_auto. Qed.

#[local] Hint Resolve validate_name_adds validate_description_adds : adds_db.

Lemma check_frontmatter_adds content p :
  keeps (adds (rule_in skill_md_rules)) (check_frontmatter content p).
Proof.
  unfold check_frontmatter.
  destruct (parse_frontmatter_cases content) as [(fm & ->)|(e & -> & He)].
  - simpl. adds_auto.
  - simpl. destruct e; [contradiction|]. simpl. adds_auto.
Qed.
#[local] Hint Resolve check_frontmatter_adds : adds_db.

Lemma validate_skill_md_adds fs p :
  keeps (adds (rule_in skill_md_rules)) (validate_skill_md fs p).
Proof. unfold validate_skill_md. adds_auto. Qed.
#[local] Hint Resolve validate_skill_md_adds : adds_db.

Lemma validate_skill_adds fs pn paths sp :
  keeps (adds (rule_in plugin_rules)) (validate_skill fs pn paths sp).
Proof. unfold validate_skill. adds_auto. Qed.
#[local] Hint Resolve validate_skill_adds : adds_db.

Lemma validate_plugin_adds fs plugin idx paths :
  keeps (adds (rule_in plugin_rules)) (validate_plugin fs plugin idx paths).
Proof. unfold validate_plugin. adds_auto. Qed.

Lemma validate_plugins_adds fs plugins idx paths :
  keeps (adds (rule_in plugin_rules)) (validate_plugins fs plugins idx paths).
Proof.
  revert idx paths. induction plugins as [|p ps IH]; intros idx paths; simpl.
  - adds_auto.
  - apply keeps_bind; [apply adds_trans | apply validate_plugin_adds |].
    intros paths'. apply IH.
Qed.

Lemma find_orphan_skills_adds fs registered :
  keeps (adds (rule_in ["orphan-skill"])) (find_orphan_skills fs registered).
Proof. unfold find_orphan_skills. adds_auto. Qed.

Lemma check_name_adds seen ip :
  keeps (adds (rule_in ["duplicate-plugin-name"])) (check_name seen ip).
Proof. unfold check_name. adds_auto. Qed.
#[local] Hint Resolve check_name_adds : adds_db.

Lemma check_unique_plugin_names_adds plugins :
  keeps (adds (rule_in ["duplicate-plugin-name"])) (check_unique_plugin_names plugins).
Proof. unfold check_unique_plugin_names. adds_auto. Qed.

Lemma validate_marketplace_structure_adds data :
  keeps (adds (rule_in ["required-field"; "invalid-type"]))
        (validate_marketplace_structure data).
Proof. unfold validate_marketplace_structure. adds_auto. Qed.
#[local] Hint Resolve validate_plugins_adds find_orphan_skills_adds
  check_unique_plugin_names_adds validate_marketplace_structure_adds : adds_db.

Lemma verify_adds fs src fix_mode :
  keeps (adds (rule_in verify_rules)) (verify fs src fix_mode).
Proof. unfold verify. adds_auto. Qed.

(** Every entry of the report of a run carries one of [verify_rules]. *)
Lemma verify_rules_only fs src fix_mode evs w :
  verify fs src fix_mode world_init = Ok evs w ->
  Forall (rule_in verify_rules) (errors (report w) ++ warnings (report w)).
Proof.
  intros H. apply verify_adds in H. destruct H as (es & ws & He & Hw & Pe & Pw).
  simpl in He, Hw. rewrite He, Hw. apply Forall_app. split; assumption.
Qed.

(** C10: the parser returns a mapping and no error, or no mapping and a
    non-empty error, for every document; the missing-frontmatter entry is
    therefore reported by no call of [validate_skill_md] and appears in
    the report of no run. *)
Theorem C10_missing_frontmatter_unreachable :
  (forall content,
      (exists fm, parse_frontmatter content = (Some fm, None))
      \/ (exists e, parse_frontmatter content = (None, Some e) /\ e <> ""))
  /\ (forall fs p w a w',
         validate_skill_md fs p w = Ok a w' ->
         adds (fun e => rule e <> "missing-frontmatter") w w')
  /\ (forall fs src fix_mode evs w,
         verify fs src fix_mode world_init = Ok evs w ->
         forall e, In e (errors (report w) ++ warnings (report w)) ->
                   rule e <> "missing-frontmatter").
Proof.
  split; [exact parse_frontmatter_cases|]. split.
  - intros fs p w a w' H. apply validate_skill_md_adds in H.
    eapply adds_weaken; [|exact H].
    intros e He Heq. unfold rule_in in He. rewrite Heq in He. cbv in He.
    intuition discriminate.
  - intros fs src fix_mode evs w H e He.
    apply verify_rules_only in H. rewrite List.Forall_forall in H.
    specialize (H e He). intros Heq. unfold rule_in in H. rewrite Heq in H.
    cbv in H. intuition discriminate.
Qed.

(** ** Regular expressions: the matcher decides the language *)

Lemma append_nil_l (s : string) : "" +:+ s = s.
Proof. reflexivity. Qed.

Lemma append_cons (c : ascii) (s t : string) : String c s +:+ t = String c (s +:+ t).
Proof. reflexivity. Qed.

Lemma app_empty_r (s : string) : s +:+ "" = s.
Proof.
  induction s as [|c s IH]; [reflexivity|]. now rewrite append_cons, IH.
Qed.

Lemma app_assoc' (a b c : string) : (a +:+ b) +:+ c = a +:+ (b +:+ c).
Proof.
  induction a as [|x a IH]; [reflexivity|]. now rewrite !append_cons, IH.
Qed.

Module ReFacts.
Import Re.

Lemma lang_void_inv s : lang Void s -> False.
Proof. inversion 1. Qed.

Lemma lang_eps_inv s : lang Eps s -> s = "".
Proof. inversion 1; reflexivity. Qed.

Lemma lang_cls_inv p s : lang (Cls p) s -> exists c, s = String c "" /\ p c = true.
Proof. inversion 1; subst. eauto. Qed.

Lemma lang_cat_inv r1 r2 s :
  lang (Cat r1 r2) s -> exists s1 s2, s = s1 +:+ s2 /\ lang r1 s1 /\ lang r2 s2.
Proof. inversion 1; subst. eauto. Qed.

Lemma lang_alt_inv r1 r2 s : lang (Alt r1 r2) s -> lang r1 s \/ lang r2 s.
Proof. inversion 1; subst; auto. Qed.

Lemma lang_star_inv r s :
  lang (Star r) s ->
  s = "" \/ exists s1 s2, s = s1 +:+ s2 /\ lang r s1 /\ lang (Star r) s2.
Proof. inversion 1; subst; [left; reflexivity | right; eauto]. Qed.

Lemma lang_star_cons_inv r c s :
  lang (Star r) (String c s) ->
  exists s1 s2, s = s1 +:+ s2 /\ lang r (String c s1) /\ lang (Star r) s2.
Proof.
  intros H. remember (Star r) as r' eqn:Er. remember (String c s) as t eqn:Et.
  revert s Et.
  induction H as [| | | | | |r0 u1 u2 H1 _ H2 IH2]; intros v Et; try discriminate.
  injection Er as ->. destruct u1 as [|c1 u1].
  - rewrite append_nil_l in Et. apply IH2; [reflexivity | exact Et].
  - rewrite append_cons in Et. injection Et as -> <-. eauto.
Qed.

Lemma nullable_spec r : nullable r = true <-> lang r "".
Proof.
  induction r as [| |p|r1 IH1 r2 IH2|r1 IH1 r2 IH2|r IH]; simpl.
  - split; [discriminate | intros H; destruct (lang_void_inv _ H)].
  - split; [intros _; constructor | reflexivity].
  - split; [discriminate|]. intros H. apply lang_cls_inv in H as (c & Hc & _).
    discriminate.
  - rewrite andb_true_iff, IH1, IH2. split.
    + intros [H1 H2]. change "" with ("" +:+ ""). now constructor.
    + intros H. apply lang_cat_inv in H as (s1 & s2 & Hs & H1 & H2).
      destruct s1; [|discriminate]. rewrite append_nil_l in Hs. subst s2. auto.
  - rewrite orb_true_iff, IH1, IH2. split.
    + intros [H|H]; [now apply lang_alt_l | now apply lang_alt_r].
    + apply lang_alt_inv.
  - split; [intros _; constructor | reflexivity].
Qed.

Lemma deriv_spec c r : forall s, lang (deriv c r) s <-> lang r (String c s).
Proof.
  induction r as [| |p|r1 IH1 r2 IH2|r1 IH1 r2 IH2|r IH]; intros s; simpl.
  - split; intros H; destruct (lang_void_inv _ H).
  - split; intros H; [destruct (lang_void_inv _ H)|].
    apply lang_eps_inv in H. discriminate.
  - destruct (p c) eqn:Ep; split; intros H.
    + apply lang_eps_inv in H as ->. now constructor.
    + apply lang_cls_inv in H as (c' & Hc & _). injection Hc as <- ->. constructor.
    + destruct (lang_void_inv _ H).
    + apply lang_cls_inv in H as (c' & Hc & Hp). injection Hc as <- ->. congruence.
  - assert (Hleft : forall s, lang (Cat (deriv c r1) r2) s ->
                              lang (Cat r1 r2) (String c s)).
    { intros t H. apply lang_cat_inv in H as (s1 & s2 & -> & H1 & H2).
      apply IH1 in H1. change (String c (s1 +:+ s2)) with (String c s1 +:+ s2).
      now constructor. }
    destruct (nullable r1) eqn:En; split; intros H.
    + apply lang_alt_inv in H as [H|H]; [now apply Hleft|].
      apply IH2 in H. change (String c s) with ("" +:+ String c s).
      constructor; [now apply nullable_spec | exact H].
    + apply lang_cat_inv in H as (s1 & s2 & Hs & H1 & H2).
      destruct s1 as [|c1 s1]; rewrite ?append_nil_l, ?append_cons in Hs.
      * subst s2. apply lang_alt_r. now apply IH2.
      * injection Hs as <- ->. apply lang_alt_l. constructor; [now apply IH1 | exact H2].
    + now apply Hleft.
    + apply lang_cat_inv in H as (s1 & s2 & Hs & H1 & H2).
      destruct s1 as [|c1 s1]; rewrite ?append_nil_l, ?append_cons in Hs.
      * apply nullable_spec in H1. congruence.
      * injection Hs as <- ->. constructor; [now apply IH1 | exact H2].
  - split; intros H.
    + apply lang_alt_inv in H as [H|H];
        [apply lang_alt_l, IH1, H | apply lang_alt_r, IH2, H].
    + apply lang_alt_inv in H as [H|H];
        [apply lang_alt_l, IH1, H | apply lang_alt_r, IH2, H].
  - split; intros H.
    + apply lang_cat_inv in H as (s1 & s2 & -> & H1 & H2).
      apply IH in H1. change (String c (s1 +:+ s2)) with (String c s1 +:+ s2).
      now constructor.
    + apply lang_star_cons_inv in H as (s1 & s2 & -> & H1 & H2).
      constructor; [now apply IH | exact H2].
Qed.

Lemma fullmatch_spec s : forall r, fullmatch r s = true <-> lang r s.
Proof.
  induction s as [|c s IH]; intros r; simpl.
  - apply nullable_spec.
  - rewrite IH. apply deriv_spec.
Qed.

(** What the anchored match accepts: the language, and the language
    followed by one line break. *)
Lemma match_anchored_spec r s :
  match_anchored r s = true <->
  lang r s \/ exists body, s = body +:+ String Py.NL "" /\ lang r body.
Proof.
  unfold match_anchored. rewrite fullmatch_spec. split.
  - intros H. apply lang_cat_inv in H as (s1 & s2 & -> & H1 & H2).
    apply lang_alt_inv in H2 as [H2|H2].
    + apply lang_eps_inv in H2 as ->. rewrite app_empty_r. now left.
    + apply lang_cls_inv in H2 as (c & -> & Hc).
      apply bool_decide_eq_true in Hc as ->. right. eauto.
  - intros [H|(body & -> & H)].
    + rewrite <- (app_empty_r s). constructor; [exact H|]. apply lang_alt_l. constructor.
    + constructor; [exact H|]. apply lang_alt_r. constructor.
      now apply bool_decide_eq_true.
Qed.

End ReFacts.

(** ** Name conventions *)

Lemma chars_app (a b : string) : chars (a +:+ b) = chars a ++ chars b.
Proof.
  induction a as [|c a IH]; [reflexivity|].
  rewrite append_cons. simpl. now rewrite IH.
Qed.

Lemma lang_star_chars (P : ascii -> Prop) r s :
  (forall t, Re.lang r t -> Forall P (chars t)) ->
  Re.lang (Re.Star r) s -> Forall P (chars s).
Proof.
  intros Hr H. remember (Re.Star r) as r' eqn:Er.
  induction H as [| | | | | |r0 u1 u2 H1 _ H2 IH2]; try discriminate.
  - constructor.
  - injection Er as ->. rewrite chars_app. apply Forall_app. split; auto.
Qed.

Lemma lang_cls_chars (P : ascii -> Prop) p s :
  (forall c, p c = true -> P c) -> Re.lang (Re.Cls p) s -> Forall P (chars s).
Proof.
  intros Hp H. apply ReFacts.lang_cls_inv in H as (c & -> & Hc).
  repeat constructor. auto.
Qed.

Lemma lower_digit_allowed c : is_lower_digit c = true -> allowed c = true.
Proof. unfold allowed, is_lower_digit. intros ->. reflexivity. Qed.

Lemma hyphen_allowed c : is_hyphen c = true -> allowed c = true.
Proof. unfold allowed. intros ->. now rewrite orb_true_r. Qed.

Lemma lower_allowed c : is_lower c = true -> allowed c = true.
Proof. unfold allowed. intros ->. reflexivity. Qed.

(** A string of the language of [NAME_PATTERN] starts with a lowercase
    letter and stays within [[a-z0-9-]]. *)
Lemma name_pattern_shape s :
  Re.lang NAME_PATTERN s ->
  Forall (fun c => allowed c = true) (chars s)
  /\ exists c rest, s = String c rest /\ is_lower c = true.
Proof.
  unfold NAME_PATTERN. intros H.
  apply ReFacts.lang_cat_inv in H as (s1 & s23 & -> & H1 & H23).
  apply ReFacts.lang_cat_inv in H23 as (s2 & s3 & -> & H2 & H3).
  apply ReFacts.lang_cls_inv in H1 as (c & -> & Hc). split.
  - rewrite !chars_app. repeat (apply Forall_app; split).
    + repeat constructor. now apply lower_allowed.
    + eapply lang_star_chars; [|exact H2]. intros t Ht.
      eapply lang_cls_chars; [|exact Ht]. apply lower_digit_allowed.
    + eapply lang_star_chars; [|exact H3]. intros t Ht.
      apply ReFacts.lang_cat_inv in Ht as (t1 & t2 & -> & Ht1 & Ht2).
      rewrite chars_app. apply Forall_app. split.
      * eapply lang_cls_chars; [|exact Ht1]. apply hyphen_allowed.
      * unfold Re.Plus in Ht2.
        apply ReFacts.lang_cat_inv in Ht2 as (t3 & t4 & -> & Ht3 & Ht4).
        rewrite chars_app. apply Forall_app. split.
        -- eapply lang_cls_chars; [|exact Ht3]. apply lower_digit_allowed.
        -- eapply lang_star_chars; [|exact Ht4]. intros t Ht.
           eapply lang_cls_chars; [|exact Ht]. apply lower_digit_allowed.
  - exists c, (s2 +:+ s3). split; [reflexivity | exact Hc].
Qed.

Lemma newline_not_allowed : allowed Py.NL = false.
Proof. reflexivity. Qed.

Lemma chomp_allowed s :
  Forall (fun c => allowed c = true) (chars s) -> chomp s = s.
Proof.
  induction s as [|c s IH]; [reflexivity|]. simpl. intros H.
  apply Forall_cons in H as [Hc Hs]. destruct s as [|c' s].
  - destruct (decide (c = Py.NL)) as [->|_]; [|reflexivity].
    rewrite newline_not_allowed in Hc. discriminate.
  - f_equal. apply IH, Hs.
Qed.

Lemma chomp_newline s : chomp (s +:+ String Py.NL "") = s.
Proof.
  induction s as [|c s IH]; [reflexivity|].
  rewrite append_cons. simpl. rewrite IH.
  destruct (s +:+ String Py.NL "") eqn:E; [|reflexivity].
  destruct s; discriminate.
Qed.

(** A name the anchored pattern accepts is, one final line break left
    aside, a string of the language. *)
Lemma match_anchored_chomp name :
  Re.match_anchored NAME_PATTERN name = true -> Re.lang NAME_PATTERN (chomp name).
Proof.
  intros H. apply ReFacts.match_anchored_spec in H as [H|(body & -> & H)].
  - rewrite chomp_allowed; [exact H|]. apply name_pattern_shape, H.
  - now rewrite chomp_newline.
Qed.

Lemma upper_not_allowed c : is_upper c = true -> allowed c = false.
Proof. destruct c as [[] [] [] [] [] [] [] []]; vm_compute; congruence. Qed.

Lemma digit_hyphen_not_lower c :
  is_digit c || is_hyphen c = true -> is_lower c = false.
Proof. destruct c as [[] [] [] [] [] [] [] []]; vm_compute; congruence. Qed.

(** The errors one call of [validate_name] appends. *)
Lemma validate_name_errors name p w :
  exists w',
    validate_name (Scalar name) p w = Ok tt w'
    /\ errors (report w') =
       errors (report w)
       ++ (if (MAX_NAME_LENGTH <? Py.len name)%nat then [name_too_long name p] else [])
       ++ (if Re.match_anchored NAME_PATTERN name then []
           else [invalid_name_format name p])
       ++ (if Py.contains "--" name then [consecutive_hyphens name p] else []).
Proof.
  unfold validate_name, bind, when.
  destruct (MAX_NAME_LENGTH <? Py.len name)%nat;
    destruct (Re.match_anchored NAME_PATTERN name);
    destruct (Py.contains "--" name);
    destruct (negb (existsb _ GERUND_SUFFIXES));
    destruct (bool_decide _ && bool_decide _);
    (eexists; split; [reflexivity|]); simpl;
    rewrite <- ?List.app_assoc, ?List.app_nil_r; reflexivity.
Qed.

(** *** Names read from frontmatter hold no line break *)

Lemma split_clean (s : string) : Forall clean (Py.split Py.NL s).
Proof.
  induction s as [|c s IH]; simpl.
  - repeat constructor.
  - destruct (decide (c = Py.NL)) as [->|Hc].
    + constructor; [constructor | exact IH].
    + destruct (Py.split Py.NL s) as [|h t]; [repeat constructor; exact Hc|].
      apply Forall_cons in IH as [Hh Ht]. constructor; [|exact Ht].
      constructor; assumption.
Qed.

Lemma lstrip_with_clean p s : clean s -> clean (Py.lstrip_with p s).
Proof.
  unfold clean. induction s as [|c s IH]; simpl; intros H; [exact H|].
  destruct (p c); [|exact H]. apply IH. now apply Forall_cons in H as [_ H].
Qed.

Lemma rstrip_with_clean p s : clean s -> clean (Py.rstrip_with p s).
Proof.
  unfold clean. induction s as [|c s IH]; simpl; intros H; [exact H|].
  apply Forall_cons in H as [Hc Hs]. specialize (IH Hs).
  destruct (Py.rstrip_with p s) as [|c' r].
  - destruct (p c); repeat constructor. exact Hc.
  - simpl. constructor; assumption.
Qed.

Lemma strip_clean s : clean s -> clean (Py.strip s).
Proof. intros H. apply rstrip_with_clean, lstrip_with_clean, H. Qed.

Lemma partition_clean sep s :
  clean s -> clean (Py.partition sep s).1 /\ clean (Py.partition sep s).2.
Proof.
  unfold clean. induction s as [|c s IH]; simpl; intros H.
  - split; constructor.
  - apply Forall_cons in H as [Hc Hs]. destruct (decide (c = sep)).
    + split; [constructor | exact Hs].
    + destruct (Py.partition sep s) as [h t]. destruct (IH Hs) as [Hh Ht].
      simpl in *. split; [constructor; assumption | exact Ht].
Qed.

Lemma save_list_clean st : clean_scalars (fm st) -> clean_scalars (save_list st).
Proof.
  unfold save_list. destruct (open_list st) as [[k l]|]; [|auto].
  intros H k' v Hk. destruct (decide (k = k')) as [->|Hne].
  - rewrite lookup_insert_eq in Hk. discriminate.
  - rewrite lookup_insert_ne in Hk by exact Hne. eapply H, Hk.
Qed.

Lemma fm_line_clean st line :
  clean line -> clean_scalars (fm st) -> clean_scalars (fm (fm_line st line)).
Proof.
  intros Hl Hst. unfold fm_line.
  destruct (negb (Py.nonempty (Py.strip line)) || Py.startswith "#" (Py.strip line));
    [exact Hst|].
  destruct (Py.startswith "- " (Py.strip line)).
  { destruct (open_list st) as [[k l]|]; exact Hst. }
  destruct (Py.contains ":" (Py.strip line)); [|exact Hst].
  destruct (Py.partition ":" (Py.strip line)) as [key value] eqn:Ep.
  pose proof (partition_clean ":"%char _ (strip_clean _ Hl)) as [_ Hv].
  rewrite Ep in Hv. simpl in Hv.
  destruct (Py.nonempty (Py.strip value)); simpl.
  - intros k v Hk. destruct (decide (Py.strip key = k)) as [Heq|Hne].
    + rewrite Heq, lookup_insert_eq in Hk. injection Hk as <-.
      now apply strip_clean.
    + rewrite lookup_insert_ne in Hk by exact Hne.
      eapply (save_list_clean st Hst), Hk.
  - apply save_list_clean, Hst.
Qed.

Lemma fold_fm_line_clean (body : list string) :
  forall st, Forall clean body -> clean_scalars (fm st) ->
             clean_scalars (fm (fold_left fm_line body st)).
Proof.
  induction body as [|l body IH]; intros st Hb Hst; [exact Hst|].
  apply Forall_cons in Hb as [Hl Hb]. simpl. apply IH; [exact Hb|].
  now apply fm_line_clean.
Qed.

Lemma until_delimiter_clean (ls : list string) :
  forall body, Forall clean ls -> until_delimiter ls = Some body -> Forall clean body.
Proof.
  induction ls as [|l ls IH]; intros body Hls H; [discriminate|].
  apply Forall_cons in Hls as [Hl Hls]. simpl in H.
  destruct (decide (Py.strip l = "---")).
  - injection H as <-. constructor.
  - destruct (until_delimiter ls) as [b|]; [|discriminate].
    injection H as <-. constructor; [exact Hl | now apply IH].
Qed.

(** No scalar of a parsed frontmatter holds a line break. *)
Lemma parse_frontmatter_clean content m :
  parse_frontmatter content = (Some m, None) -> clean_scalars m.
Proof.
  unfold parse_frontmatter. pose proof (split_clean content) as Hs.
  destruct (Py.split Py.NL content) as [|first rest]; [discriminate|].
  apply Forall_cons in Hs as [_ Hrest].
  destruct (decide (Py.strip first = "---")); [|discriminate].
  destruct (until_delimiter rest) as [body|] eqn:Eb; [|discriminate].
  intros H. injection H as <-.
  apply save_list_clean, fold_fm_line_clean.
  - eapply until_delimiter_clean; eauto.
  - intros k v Hk. simpl in Hk. rewrite lookup_empty in Hk. discriminate.
Qed.

Lemma chomp_clean s : clean s -> chomp s = s.
Proof.
  unfold clean. induction s as [|c s IH]; [reflexivity|]. simpl. intros H.
  apply Forall_cons in H as [Hc Hs]. destruct s as [|c' s].
  - destruct (decide (c = Py.NL)); [contradiction | reflexivity].
  - f_equal. apply IH, Hs.
Qed.

(** C7: on every name that [validate_skill_md] reads from the
    frontmatter of a document and hands to [validate_name], a name in the
    language of the pattern, without "--" and of at most 64 characters,
    draws none of the naming errors, and a name that holds a character
    outside [a-z0-9-] or an uppercase letter, or begins with a digit or a
    hyphen, draws invalid-name-format. *)
Theorem C7_name_format content (m : gmap string fmval) name p w :
  parse_frontmatter content = (Some m, None) ->
  m !! "name" = Some (Scalar name) ->
  (Re.lang NAME_PATTERN name -> Py.contains "--" name = false ->
   Py.len name <= MAX_NAME_LENGTH ->
   exists w', validate_name (Scalar name) p w = Ok tt w'
              /\ errors (report w') = errors (report w))
  /\ ((exists c, In c (chars name) /\ allowed c = false)
      \/ (exists c, In c (chars name) /\ is_upper c = true)
      \/ (exists c rest, name = String c rest
                         /\ is_digit c || is_hyphen c = true) ->
      exists w', validate_name (Scalar name) p w = Ok tt w'
                 /\ In (invalid_name_format name p) (errors (report w'))).
Proof.
  intros Hparse Hname.
  assert (Hchomp : chomp name = name).
  { apply chomp_clean. eapply parse_frontmatter_clean; eauto. }
  destruct (validate_name_errors name p w) as (w' & Hrun & Herr).
  split.
  - intros Hlang Hhy Hlen. exists w'. split; [exact Hrun|]. rewrite Herr.
    assert (Hm : Re.match_anchored NAME_PATTERN name = true).
    { apply ReFacts.match_anchored_spec. now left. }
    rewrite Hm, Hhy.
    destruct (MAX_NAME_LENGTH <? Py.len name)%nat eqn:E.
    + apply Nat.ltb_lt in E. lia.
    + simpl. now rewrite List.app_nil_r.
  - intros Hbad. exists w'. split; [exact Hrun|]. rewrite Herr.
    destruct (Re.match_anchored NAME_PATTERN name) eqn:Hm.
    + exfalso. apply match_anchored_chomp in Hm. rewrite Hchomp in Hm.
      apply name_pattern_shape in Hm as [Hall (c0 & rest0 & Hs & Hlow)].
      rewrite List.Forall_forall in Hall.
      destruct Hbad as [(c & Hin & Hc)|[(c & Hin & Hc)|(c & rest & Heq & Hc)]].
      * specialize (Hall c Hin). congruence.
      * apply upper_not_allowed in Hc. specialize (Hall c Hin). congruence.
      * rewrite Heq in Hs. injection Hs as -> ->.
        apply digit_hyphen_not_lower in Hc. congruence.
    + apply in_or_app. right. apply in_or_app. right. apply in_or_app. left.
      left. reflexivity.
Qed.

(** ** Histories *)

Section Latest.
Context {K V : Type} `{EqDecision K}.

Lemma latest_nil (k : K) : latest (@nil (K * V)) k = None.
Proof. reflexivity. Qed.

Lemma latest_snoc (history : list (K * V)) (k' : K) (v : V) (k : K) :
  latest (history ++ [(k', v)]) k
  = if decide (k' = k) then Some v else latest history k.
Proof.
  unfold latest. rewrite filter_app.
  destruct (decide (k' = k)) as [->|Hne].
  - rewrite filter_cons_True by reflexivity. rewrite filter_nil.
    now rewrite last_snoc.
  - rewrite filter_cons_False by exact Hne. rewrite filter_nil.
    now rewrite app_nil_r.
Qed.

(** [latest] is the value of the last pair with that key. *)
Lemma latest_Some (history : list (K * V)) (k : K) (v : V) :
  latest history k = Some v ->
  exists h1 h2, history = h1 ++ (k, v) :: h2
                /\ Forall (fun kv => kv.1 <> k) h2.
Proof.
  unfold latest. intros H.
  destruct (last (filter (fun kv => kv.1 = k) history)) as [[k0 v0]|] eqn:E;
    [|discriminate].
  injection H as ->.
  assert (Hk : k0 = k).
  { apply last_Some in E as (l' & El).
    assert (Hin : (k0, v) ∈ filter (fun kv : K * V => kv.1 = k) history).
    { rewrite El. apply elem_of_app. right. apply list_elem_of_singleton.
      reflexivity. }
    apply list_elem_of_filter in Hin as [Hk _]. exact Hk. }
  subst k0. apply last_filter_Some in E as (h1 & h2 & -> & Hno). eauto.
Qed.
End Latest.

(** ** Unique plugin names *)

Lemma check_names_run (rest : list json) :
  forall (history : list ((Z + string) * nat)) (i : nat)
         (seen : gmap (Z + string) nat) (w : world),
    (forall k, seen !! k = latest history k) ->
    forallb is_plain_plugin rest = true ->
    exists seen' w',
      fold_each check_name (enumerate_from i rest) seen w = Ok seen' w'
      /\ errors (report w') = errors (report w) ++ dup_name_errors history i rest
      /\ warnings (report w') = warnings (report w)
      /\ stats (report w') = stats (report w)
      /\ reads w' = reads w.
Proof.
  induction rest as [|p rest IH]; intros history i seen w Hseen Hplain.
  - exists seen, w. simpl. rewrite app_nil_r. auto.
  - simpl in Hplain. apply andb_true_iff in Hplain as [Hp Hrest].
    destruct p as [| | | | |d]; try discriminate.
    simpl. unfold bind. unfold check_name at 1. simpl.
    unfold plugin_key, plugin_name_val. unfold is_plain_plugin in Hp.
    destruct (classify (default (JStr "") (dict_get "name" d))) as [|k|] eqn:Ec;
      [| |discriminate].
    + apply IH; assumption.
    + assert (Hseen' : forall k0, <[k:=i]> seen !! k0 = latest (history ++ [(k, i)]) k0).
      { intros k0. rewrite latest_snoc. destruct (decide (k = k0)) as [->|Hne].
        - apply lookup_insert_eq.
        - rewrite lookup_insert_ne by exact Hne. apply Hseen. }
      rewrite <- Hseen. destruct (seen !! k) as [j|]; simpl.
      * match goal with
        | |- context [fold_each check_name _ _ ?w1] =>
            destruct (IH _ (S i) _ w1 Hseen' Hrest)
              as (s' & w' & -> & He & Hw & Hs & Hr)
        end.
        exists s', w'. simpl in *. rewrite He, <- List.app_assoc. auto.
      * destruct (IH _ (S i) _ w Hseen' Hrest) as (s' & w' & -> & He & Hw & Hs & Hr).
        exists s', w'. auto.
Qed.

Lemma check_unique_plugin_names_run (plugins : list json) (w : world) :
  forallb is_plain_plugin plugins = true ->
  exists w',
    check_unique_plugin_names plugins w = Ok tt w'
    /\ errors (report w') = errors (report w) ++ dup_name_errors [] 0 plugins
    /\ warnings (report w') = warnings (report w)
    /\ stats (report w') = stats (report w)
    /\ reads w' = reads w.
Proof.
  intros Hplain. unfold check_unique_plugin_names, bind.
  destruct (check_names_run plugins [] 0 ∅ w) as (s' & w' & -> & He & Hw & Hs & Hr).
  - intros k. rewrite lookup_empty. reflexivity.
  - exact Hplain.
  - exists w'. auto.
Qed.

(** C6, as amended: on plugin entries that are objects with hashable
    names the check returns and reports, for each plugin whose name
    occurred before, exactly one duplicate-plugin-name error, which cites
    the latest earlier index of that name and the current index; nothing
    else in the report changes. *)
Theorem C6_duplicate_names (plugins : list json) (w : world) :
  forallb is_plain_plugin plugins = true ->
  exists w',
    check_unique_plugin_names plugins w = Ok tt w'
    /\ errors (report w') = errors (report w) ++ dup_name_errors [] 0 plugins
    /\ warnings (report w') = warnings (report w)
    /\ stats (report w') = stats (report w).
Proof.
  intros Hplain.
  destruct (check_unique_plugin_names_run plugins w Hplain)
    as (w' & E & He & Hw & Hs & _).
  exists w'. auto.
Qed.

(** ** Validators that always return *)

Lemma grows_refl L w : grows L w w.
Proof. split; [apply adds_refl | split; reflexivity]. Qed.

Lemma grows_trans L a b c : grows L a b -> grows L b c -> grows L a c.
Proof.
  intros (H1 & S1 & R1) (H2 & S2 & R2). split; [eapply adds_trans; eauto|].
  split; congruence.
Qed.

Lemma grows_incl L L' w w' : incl L L' -> grows L w w' -> grows L' w w'.
Proof.
  intros Hi (H & S & R). split; [|split; assumption].
  eapply adds_weaken; [|exact H]. intros e. now apply rule_in_incl.
Qed.

Section Total.
Variable R : world -> world -> Prop.
Hypothesis R_refl : forall w, R w w.
Hypothesis R_trans : forall a b c, R a b -> R b c -> R a c.

Lemma total_ret {A} (a : A) : total R (ret a).
Proof using R_refl. intros w. exists a, w. split; [reflexivity | apply R_refl]. Qed.

Lemma total_bind {A B} (m : M A) (k : A -> M B) :
  total R m -> (forall a, total R (k a)) -> total R (bind m k).
Proof using R_trans.
  intros Hm Hk w. destruct (Hm w) as (a & w1 & E1 & R1).
  destruct (Hk a w1) as (b & w2 & E2 & R2).
  exists b, w2. unfold bind. rewrite E1. split; [exact E2 | eauto].
Qed.

Lemma total_when (b : bool) (m : M unit) : total R m -> total R (when b m).
Proof using R_refl. intros Hm. destruct b; [exact Hm | apply total_ret]. Qed.

Lemma total_for_each {A} (l : list A) (body : A -> M unit) :
  (forall x, total R (body x)) -> total R (for_each l body).
Proof using R_refl R_trans.
  intros Hb. induction l as [|x l IH]; simpl.
  - apply total_ret.
  - apply total_bind; [apply Hb | intros _; exact IH].
Qed.
End Total.

Lemma total_incl L L' {A} (m : M A) :
  incl L L' -> total (grows L) m -> total (grows L') m.
Proof.
  intros Hi Hm w. destruct (Hm w) as (a & w' & E & G).
  exists a, w'. split; [exact E | eapply grows_incl; eauto].
Qed.

Lemma error_total L rl m p f : In rl L -> total (grows L) (error rl m p f).
Proof.
  intros Hin w. eexists tt, _. split; [reflexivity|].
  split; [|split; reflexivity].
  eexists [_], []. simpl. rewrite app_nil_r. repeat split; auto.
  all: repeat constructor; exact Hin.
Qed.

Lemma warning_total L rl m p f : In rl L -> total (grows L) (warning rl m p f).
Proof.
  intros Hin w. eexists tt, _. split; [reflexivity|].
  split; [|split; reflexivity].
  eexists [], [_]. simpl. rewrite app_nil_r. repeat split; auto.
  all: repeat constructor; exact Hin.
Qed.

Create HintDb total_db.

Ltac total_step :=
  lazymatch goal with
  | |- total _ (ret _) => apply total_ret; apply grows_refl
  | |- total _ (error _ _ _ _) => apply error_total; simpl; tauto
  | |- total _ (warning _ _ _ _) => apply warning_total; simpl; tauto
  | |- total _ (when _ _) => apply total_when; [apply grows_refl|]
  | |- total _ (for_each _ _) =>
      apply total_for_each; [apply grows_refl | apply grows_trans | intros ?]
  | |- total _ (bind _ _) => apply total_bind; [apply grows_trans | | intros ?]
  | |- total _ _ =>
      eapply total_incl; [| solve [eauto 2 with total_db nocore]]; [incl_rules]
  end.

Ltac total_auto := repeat total_step.

Lemma validate_name_total name p :
  total (grows name_rules) (validate_name (Scalar name) p).
Proof. unfold validate_name. total_auto. Qed.

Lemma validate_description_total desc p :
  total (grows description_rules) (validate_description (Scalar desc) p).
Proof. unfold validate_description. total_auto. Qed.
#[local] Hint Resolve validate_name_total validate_description_total : total_db.

Lemma check_frontmatter_total content p :
  safe_doc content = true ->
  total (grows skill_md_rules) (check_frontmatter content p).
Proof.
  unfold safe_doc, check_frontmatter.
  destruct (parse_frontmatter_cases content) as [(fm & ->)|(e & -> & He)].
  - simpl. intros Hs. apply andb_true_iff in Hs as [Hn Hd].
    apply total_bind; [apply grows_trans | total_auto |intros _].
    apply total_bind; [apply grows_trans | |intros _].
    + destruct (fm !! "name") as [[s|[|x l]]|]; try discriminate;
        [total_auto | unfold when; simpl; total_auto | total_auto].
    + destruct (fm !! "description") as [[s|[|x l]]|]; try discriminate;
        [total_auto | unfold when; simpl; total_auto | total_auto].
  - intros _. simpl. destruct e; [contradiction|]. simpl. total_auto.
Qed.

(** Reading and validating a skill document: the document is read once,
    the counters are untouched and the report grows by entries of the
    document rules. *)
Lemma validate_skill_md_run fs p w :
  safe_fs fs ->
  exists w',
    validate_skill_md fs p w = Ok tt w'
    /\ adds (rule_in skill_md_rules) w w'
    /\ stats (report w') = stats (report w)
    /\ reads w' = reads w ++ [p].
Proof.
  intros Hsafe. specialize (Hsafe p). unfold validate_skill_md, bind, do_read.
  destruct (read_text fs p) as [content|e].
  - set (w1 := {| report := report w; reads := reads w ++ [p] |}).
    assert (Hbody : total (grows skill_md_rules)
              (when (MAX_SKILL_LINES <? line_count content)%nat
                 (warning "skill-too-large"
                    [Lit "SKILL.md is "; Num (line_count content);
                     Lit " lines (max "; Num MAX_SKILL_LINES; Lit ")"]
                    (Some (SkillMd p)) None) ;;
               check_frontmatter content p)).
    { apply total_bind; [apply grows_trans | total_auto |intros _].
      now apply check_frontmatter_total. }
    destruct (Hbody w1) as ([] & w' & E & Ha & Hs & Hr).
    exists w'. split; [exact E|]. split; [exact Ha|]. split; [exact Hs | exact Hr].
  - destruct (error_total skill_md_rules "read-error"
                [Lit "Cannot read "; PathOf (SkillMd p); Lit ": "; Str e]
                (Some (SkillMd p)) None (or_introl eq_refl)
                {| report := report w; reads := reads w ++ [p] |})
      as ([] & w' & E & Ha & Hs & Hr).
    exists w'. split; [exact E|]. split; [exact Ha|]. split; [exact Hs | exact Hr].
Qed.

(** ** Claims on skill paths *)

Lemma with_rule_app rl l1 l2 : with_rule rl (l1 ++ l2) = with_rule rl l1 ++ with_rule rl l2.
Proof. apply List.filter_app. Qed.

Lemma with_rule_other rl L es :
  ~ In rl L -> Forall (rule_in L) es -> with_rule rl es = [].
Proof.
  intros Hn H. induction H as [|e es He _ IH]; [reflexivity|].
  unfold with_rule in *. simpl. rewrite IH.
  rewrite bool_decide_eq_false_2; [reflexivity|].
  intros Heq. apply Hn. rewrite <- Heq. exact He.
Qed.

(** Entries of other rules leave the entries of rule [rl] as they are. *)
Lemma adds_with_rule rl L w w' :
  ~ In rl L -> adds (rule_in L) w w' ->
  with_rule rl (errors (report w')) = with_rule rl (errors (report w))
  /\ with_rule rl (warnings (report w')) = with_rule rl (warnings (report w)).
Proof.
  intros Hn (es & ws & -> & -> & He & Hw). rewrite !with_rule_app.
  rewrite (with_rule_other rl L es), (with_rule_other rl L ws) by assumption.
  now rewrite !app_nil_r.
Qed.

Lemma owners_app c1 c2 : owners (c1 ++ c2) = owners c1 ++ owners c2.
Proof. apply List.map_app. Qed.

Lemma dup_path_errors_app history c1 c2 :
  dup_path_errors history (c1 ++ c2)
  = dup_path_errors history c1 ++ dup_path_errors (history ++ owners c1) c2.
Proof.
  revert history. induction c1 as [|c c1 IH]; intros history; simpl.
  - now rewrite app_nil_r.
  - rewrite IH, <- !List.app_assoc. reflexivity.
Qed.

Lemma tracks_nil history paths w w' :
  (forall n, paths !! n = latest history n) ->
  with_rule "duplicate-path" (errors (report w'))
    = with_rule "duplicate-path" (errors (report w)) ->
  reads w' = reads w ->
  plugins_checked (stats (report w')) = plugins_checked (stats (report w)) ->
  orphans_found (stats (report w')) = orphans_found (stats (report w)) ->
  tracks history [] 0 paths w w'.
Proof.
  intros Hp He Hr Hc Ho. unfold tracks. simpl. rewrite !app_nil_r, Nat.add_0_r.
  auto.
Qed.

Lemma tracks_app history c1 c2 k1 k2 p1 p2 w w1 w2 :
  tracks history c1 k1 p1 w w1 ->
  tracks (history ++ owners c1) c2 k2 p2 w1 w2 ->
  tracks history (c1 ++ c2) (k1 + k2) p2 w w2.
Proof.
  intros (P1 & E1 & R1 & C1 & O1) (P2 & E2 & R2 & C2 & O2). unfold tracks.
  rewrite owners_app, dup_path_errors_app, List.map_app, !List.app_assoc.
  split; [exact P2|]. split; [now rewrite E2, E1|]. split; [now rewrite R2, R1|].
  split; [lia | congruence].
Qed.

Lemma bind_run {A B} (m : M A) (k : A -> M B) w a w1 :
  m w = Ok a w1 -> bind m k w = k a w1.
Proof. intros H. unfold bind. now rewrite H. Qed.

Lemma count_bind f {A} (k : M A) w :
  (count f ;; k) w = k {| report := with_stats f (report w); reads := reads w |}.
Proof. reflexivity. Qed.

Lemma seq_run {A} (a b : M unit) (c : M A) w w1 :
  (a ;; b) w = Ok tt w1 -> (a ;; b ;; c) w = c w1.
Proof.
  unfold bind. destruct (a w) as [[] wa|]; [|discriminate].
  intros ->. reflexivity.
Qed.

(** One reference: what [validate_skill] does with it. *)
Lemma validate_skill_run fs pn history paths sp w :
  safe_fs fs ->
  (forall n, paths !! n = latest history n) ->
  exists paths' w',
    validate_skill fs pn paths (JStr sp) w = Ok paths' w'
    /\ tracks history (resolving fs pn [JStr sp]) 0 paths' w w'.
Proof.
  intros Hsafe Hpaths. unfold validate_skill, resolving. simpl.
  unfold bind at 1. simpl.
  destruct (is_file fs (normalize sp)) eqn:Efile; simpl.
  - set (w0 := {| report := with_stats incr_skills_checked (report w);
                  reads := reads w |}).
    assert (Hdup : exists w1,
               (match paths !! normalize sp with
                | Some owner =>
                    error "duplicate-path"
                      [Lit "Skill path '"; Str sp; Lit "' appears in both '";
                       Val owner; Lit "' and '"; Val pn; Lit "'"] None None
                | None => ret tt
                end) w0 = Ok tt w1
               /\ errors (report w1)
                  = errors (report w)
                    ++ match latest history (normalize sp) with
                       | Some owner => [dup_path_entry sp owner pn]
                       | None => []
                       end
               /\ stats (report w1) = stats (report w0) /\ reads w1 = reads w).
    { rewrite <- Hpaths. destruct (paths !! normalize sp) as [owner|].
      - eexists. split; [reflexivity|]. simpl. auto.
      - exists w0. simpl. rewrite app_nil_r. auto. }
    destruct Hdup as (w1 & E1 & He1 & Hs1 & Hr1).
    rewrite (bind_run _ _ _ _ _ E1).
    destruct (validate_skill_md_run fs (normalize sp) w1 Hsafe)
      as (w2 & E2 & Ha2 & Hs2 & Hr2).
    rewrite (bind_run _ _ _ _ _ E2).
    eexists _, w2. split; [reflexivity|].
    apply (adds_with_rule "duplicate-path") in Ha2 as [Hf2 _];
      [|cbv; intuition discriminate].
    unfold tracks. simpl. split; [|split; [|split; [|split]]].
    + intros n. rewrite (latest_snoc history (normalize sp) pn n).
      destruct (decide (normalize sp = n)) as [->|Hne].
      * apply lookup_insert_eq.
      * rewrite lookup_insert_ne by exact Hne. apply Hpaths.
    + rewrite Hf2, He1, with_rule_app, app_nil_r. f_equal.
      destruct (latest history (normalize sp)); reflexivity.
    + rewrite Hr2, Hr1. reflexivity.
    + rewrite Hs2, Hs1. simpl. lia.
    + rewrite Hs2, Hs1. reflexivity.
  - eexists _, _. split; [reflexivity|].
    apply tracks_nil; simpl; try reflexivity; try exact Hpaths.
    rewrite with_rule_app. simpl. now rewrite app_nil_r.
Qed.

Lemma resolving_cons fs pn s skills :
  resolving fs pn (s :: skills) = resolving fs pn [s] ++ resolving fs pn skills.
Proof.
  unfold resolving. simpl.
  destruct s as [| | |sp| |]; try reflexivity.
  destruct (is_file fs (normalize sp)); reflexivity.
Qed.

Lemma validate_skills_run fs pn (skills : list json) :
  forall history paths w,
    safe_fs fs ->
    (forall n, paths !! n = latest history n) ->
    forallb is_str skills = true ->
    exists paths' w',
      fold_each (validate_skill fs pn) skills paths w = Ok paths' w'
      /\ tracks history (resolving fs pn skills) 0 paths' w w'.
Proof.
  induction skills as [|s skills IH]; intros history paths w Hsafe Hpaths Hstr.
  - exists paths, w. split; [reflexivity|]. now apply tracks_nil.
  - simpl in Hstr. apply andb_true_iff in Hstr as [Hs Hrest].
    destruct s as [| | |sp| |]; try discriminate.
    destruct (validate_skill_run fs pn history paths sp w Hsafe Hpaths)
      as (p1 & w1 & E1 & T1).
    destruct (IH (history ++ owners (resolving fs pn [JStr sp])) p1 w1 Hsafe
                (proj1 T1) Hrest) as (p2 & w2 & E2 & T2).
    exists p2, w2. split.
    + simpl. rewrite (bind_run _ _ _ _ _ E1). exact E2.
    + rewrite resolving_cons. change 0 with (0 + 0). eapply tracks_app; eauto.
Qed.

Lemma tracks_shift history cl k0 k paths' w w1 w' :
  with_rule "duplicate-path" (errors (report w1))
    = with_rule "duplicate-path" (errors (report w)) ->
  reads w1 = reads w ->
  plugins_checked (stats (report w1)) = plugins_checked (stats (report w)) + k0 ->
  orphans_found (stats (report w1)) = orphans_found (stats (report w)) ->
  tracks history cl k paths' w1 w' ->
  tracks history cl (k0 + k) paths' w w'.
Proof.
  intros He Hr Hc Ho (P & E & R & C & O). unfold tracks.
  split; [exact P|]. split; [now rewrite E, He|]. split; [now rewrite R, Hr|].
  split; [lia | congruence].
Qed.

(** The field checks at the head of [validate_plugin]. *)
Lemma plugin_fields_total d (plugin_name : json) :
  total (grows ["required-field"; "recommended-field"])
    (for_each REQUIRED_PLUGIN_FIELDS (fun field =>
       when (negb (dict_has field d))
         (error "required-field"
            [Lit "Plugin '"; Val plugin_name;
             Lit "': missing required field '"; Str field; Lit "'"] None None)) ;;
     for_each RECOMMENDED_PLUGIN_FIELDS (fun field =>
       when (negb (dict_has field d))
         (warning "recommended-field"
            [Lit "Plugin '"; Val plugin_name;
             Lit "': missing recommended field '"; Str field; Lit "'"] None None))).
Proof. total_auto. Qed.

Lemma validate_plugin_run fs p idx history paths w :
  safe_fs fs ->
  (forall n, paths !! n = latest history n) ->
  is_wf_plugin p = true ->
  exists paths' w',
    validate_plugin fs p idx paths w = Ok paths' w'
    /\ tracks history (claims_of_plugin fs idx p) 1 paths' w w'.
Proof.
  intros Hsafe Hpaths Hwf. destruct p as [| | | | |d]; try discriminate.
  simpl in Hwf. unfold validate_plugin, claims_of_plugin.
  rewrite count_bind.
  set (w0 := {| report := with_stats incr_plugins_checked (report w);
                reads := reads w |}).
  destruct (plugin_fields_total d (plugin_name_of d idx) w0)
    as ([] & w1 & E1 & Ha1 & Hs1 & Hr1).
  apply (adds_with_rule "duplicate-path") in Ha1 as [Hf1 _];
    [|cbv; intuition discriminate].
  assert (Hshift : forall cl paths' w',
             tracks history cl 0 paths' w1 w' -> tracks history cl 1 paths' w w').
  { intros cl paths' w' T. change 1 with (1 + 0).
    eapply tracks_shift; [| | | |exact T].
    - rewrite Hf1. reflexivity.
    - rewrite Hr1. reflexivity.
    - rewrite Hs1. reflexivity.
    - rewrite Hs1. reflexivity. }
  rewrite (seq_run _ _ _ _ _ E1).
  destruct (default (JArr []) (dict_get "skills" d)) as [| | | |skills|];
    try (eexists _, _; split; [reflexivity|]; apply Hshift;
         apply tracks_nil; simpl; try reflexivity; try exact Hpaths;
         rewrite with_rule_app; simpl; now rewrite app_nil_r).
  destruct (validate_skills_run fs (plugin_name_of d idx) skills history paths w1
              Hsafe Hpaths Hwf) as (p2 & w2 & E2 & T2).
  exists p2, w2. split; [exact E2 | apply Hshift, T2].
Qed.

(** The loop over the plugins. *)
Lemma validate_plugins_run fs (plugins : list json) :
  forall idx history paths w,
    safe_fs fs ->
    (forall n, paths !! n = latest history n) ->
    forallb is_wf_plugin plugins = true ->
    exists paths' w',
      validate_plugins fs plugins idx paths w = Ok paths' w'
      /\ tracks history (claims_from fs idx plugins) (List.length plugins)
           paths' w w'.
Proof.
  induction plugins as [|p plugins IH]; intros idx history paths w Hsafe Hpaths Hwf.
  - exists paths, w. split; [reflexivity|]. now apply tracks_nil.
  - simpl in Hwf. apply andb_true_iff in Hwf as [Hp Hrest].
    destruct (validate_plugin_run fs p idx history paths w Hsafe Hpaths Hp)
      as (p1 & w1 & E1 & T1).
    destruct (IH (S idx) (history ++ owners (claims_of_plugin fs idx p)) p1 w1
                Hsafe (proj1 T1) Hrest) as (p2 & w2 & E2 & T2).
    exists p2, w2. split.
    + simpl. rewrite (bind_run _ _ _ _ _ E1). exact E2.
    + simpl. change (S (List.length plugins)) with (1 + List.length plugins).
      eapply tracks_app; eauto.
Qed.

(** ** Orphan scan and structural check *)

Lemma latest_None_iff (history : list (string * json)) (n : string) :
  latest history n = None <-> n ∉ map fst history.
Proof.
  induction history as [|[k v] history IH] using rev_ind.
  - split; [intros _; apply not_elem_of_nil | reflexivity].
  - rewrite latest_snoc, List.map_app. simpl. rewrite not_elem_of_app.
    destruct (decide (k = n)) as [->|Hne].
    + split; [discriminate|]. intros [_ H]. exfalso. apply H. now left.
    + rewrite IH. split.
      * intros H. split; [exact H|]. intros Hin.
        apply list_elem_of_singleton in Hin. congruence.
      * intros [H _]. exact H.
Qed.

Lemma owners_fst claims :
  map fst (owners claims) = map (fun c => normalize c.1) claims.
Proof. unfold owners. rewrite List.map_map. reflexivity. Qed.

(** The scan of the documents [found], against the final ownership map. *)
Lemma orphan_loop_run (registered : gmap string json) (found : list string) :
  forall orphans w,
  exists w',
    fold_each (fun orphans normalized =>
      match registered !! normalized with
      | Some _ => ret orphans
      | None =>
          count incr_orphans_found ;;
          warning "orphan-skill"
            [Lit "Skill exists on disk but not in marketplace.json: "; Str normalized]
            (Some (SkillMd normalized))
            (Some [Lit "Add './"; Str normalized;
                   Lit "' to a plugin in marketplace.json"]) ;;
          ret (orphans ++ [normalized])
      end) found orphans w
    = Ok (orphans ++ filter (fun n => registered !! n = None) found) w'
    /\ errors (report w') = errors (report w)
    /\ warnings (report w')
       = warnings (report w)
         ++ map orphan_entry (filter (fun n => registered !! n = None) found)
    /\ orphans_found (stats (report w'))
       = orphans_found (stats (report w))
         + List.length (filter (fun n => registered !! n = None) found)
    /\ plugins_checked (stats (report w')) = plugins_checked (stats (report w))
    /\ reads w' = reads w.
Proof.
  induction found as [|n found IH]; intros orphans w.
  - exists w. simpl. rewrite !app_nil_r, Nat.add_0_r. repeat split; reflexivity.
  - simpl fold_each. unfold bind at 1.
    destruct (registered !! n) as [v|] eqn:E.
    + rewrite filter_cons_False by (rewrite E; discriminate).
      simpl. apply IH.
    + rewrite filter_cons_True by exact E. simpl.
      match goal with
      | |- context [fold_each _ found ?o ?w1] =>
          destruct (IH o w1) as (w' & Erun & He & Hw & Ho & Hp & Hr)
      end.
      exists w'. rewrite Erun. simpl in *.
      rewrite <- !List.app_assoc. simpl.
      rewrite He, Hw, Ho, Hp, Hr, <- !List.app_assoc. simpl.
      repeat split; try reflexivity. lia.
Qed.

Lemma find_orphan_skills_run fs (claims : list (string * json))
    (registered : gmap string json) w :
  (forall n, registered !! n = latest (owners claims) n) ->
  exists w',
    find_orphan_skills fs registered w = Ok (unregistered fs claims) w'
    /\ errors (report w') = errors (report w)
    /\ warnings (report w')
       = warnings (report w) ++ map orphan_entry (unregistered fs claims)
    /\ orphans_found (stats (report w'))
       = orphans_found (stats (report w)) + List.length (unregistered fs claims)
    /\ plugins_checked (stats (report w')) = plugins_checked (stats (report w))
    /\ reads w' = reads w.
Proof.
  intros Hreg. unfold find_orphan_skills, unregistered.
  destruct (skills_is_dir fs); simpl.
  - assert (Hf : filter (fun n => n ∉ map (fun c => normalize c.1) claims)
                   (rglob_skill_md fs)
                 = filter (fun n => registered !! n = None) (rglob_skill_md fs)).
    { apply list_filter_iff. intros n. rewrite Hreg, latest_None_iff, owners_fst.
      reflexivity. }
    rewrite Hf. apply (orphan_loop_run registered (rglob_skill_md fs) [] w).
  - exists w. simpl. rewrite app_nil_r, Nat.add_0_r. repeat split; reflexivity.
Qed.

Lemma validate_marketplace_structure_run d w :
  exists w',
    validate_marketplace_structure (JObj d) w = Ok tt w'
    /\ errors (report w') = errors (report w) ++ structure_errors d
    /\ warnings (report w') = warnings (report w)
    /\ stats (report w') = stats (report w)
    /\ reads w' = reads w.
Proof.
  unfold validate_marketplace_structure, structure_errors, dict_has.
  simpl. unfold bind, when.
  destruct (dict_get "name" d) as [vn|];
    destruct (dict_get "plugins" d) as [[| | | | |]|];
    (eexists; split; [reflexivity|]); simpl;
    rewrite <- ?List.app_assoc, ?List.app_nil_r; repeat split; reflexivity.
Qed.

(** ** A whole run *)

Lemma with_rule_orphans l : with_rule "orphan-skill" (map orphan_entry l) = map orphan_entry l.
Proof. induction l as [|x l IH]; [reflexivity|]. unfold with_rule in *. simpl. now rewrite IH. Qed.

Lemma with_rule_dup_names h i rest :
  with_rule "duplicate-plugin-name" (dup_name_errors h i rest) = dup_name_errors h i rest.
Proof.
  revert h i. induction rest as [|p rest IH]; intros h i; [reflexivity|].
  simpl. destruct (plugin_key p) as [k|]; [|apply IH].
  rewrite with_rule_app, IH. destruct (latest h k); reflexivity.
Qed.

Lemma dup_name_errors_rules h i rest :
  Forall (rule_in ["duplicate-plugin-name"]) (dup_name_errors h i rest).
Proof.
  revert h i. induction rest as [|p rest IH]; intros h i; simpl; [constructor|].
  destruct (plugin_key p) as [k|]; [|apply IH].
  apply Forall_app. split; [|apply IH].
  destruct (latest h k); repeat constructor.
Qed.

Lemma structure_errors_rules d :
  Forall (rule_in ["required-field"; "invalid-type"]) (structure_errors d).
Proof.
  unfold structure_errors.
  destruct (dict_has "name" d); destruct (dict_has "plugins" d);
    destruct (dict_get "plugins" d) as [[| | | | |]|];
    simpl; repeat (constructor; [cbv; tauto|]); constructor.
Qed.

Lemma verify_run fs d plugins :
  safe_fs fs ->
  default (JArr []) (dict_get "plugins" d) = JArr plugins ->
  forallb is_plain_plugin plugins = true ->
  forallb is_wf_plugin plugins = true ->
  exists w',
    verify fs (Loaded (JObj d)) false world_init = Ok [] w'
    /\ run_facts fs d plugins w'.
Proof.
  intros Hsafe Hpl Hplain Hwf. unfold verify. rewrite Hpl.
  destruct (validate_marketplace_structure_run d world_init)
    as (w1 & E1 & He1 & Hw1 & Hs1 & Hr1).
  rewrite (bind_run _ _ _ _ _ E1).
  destruct (check_unique_plugin_names_run plugins w1 Hplain)
    as (w2 & E2 & He2 & Hw2 & Hs2 & Hr2).
  rewrite (bind_run _ _ _ _ _ E2).
  destruct (validate_plugins_run fs plugins 0 [] ∅ w2 Hsafe) as (paths & w3 & E3 & T3).
  { intros n. rewrite lookup_empty. reflexivity. }
  { exact Hwf. }
  rewrite (bind_run _ _ _ _ _ E3).
  pose proof (validate_plugins_adds fs plugins 0 ∅ w2 paths w3 E3) as Ha3.
  destruct T3 as (P3 & D3 & R3 & C3 & O3). simpl in P3.
  destruct (find_orphan_skills_run fs (claims_from fs 0 plugins) paths w3 P3)
    as (w4 & E4 & He4 & Hw4 & Ho4 & Hp4 & Hr4).
  rewrite (bind_run _ _ _ _ _ E4).
  exists w4. split; [reflexivity|].
  simpl in He1, Hw1, Hs1, Hr1.
  pose proof (structure_errors_rules d) as Hsr.
  assert (Hno1 : ~ In "duplicate-plugin-name" plugin_rules)
    by (cbv; intuition discriminate).
  assert (Hno2 : ~ In "orphan-skill" plugin_rules) by (cbv; intuition discriminate).
  assert (Hno3 : ~ In "duplicate-plugin-name" ["required-field"; "invalid-type"])
    by (cbv; intuition discriminate).
  assert (Hno4 : ~ In "duplicate-path" ["required-field"; "invalid-type"])
    by (cbv; intuition discriminate).
  destruct (adds_with_rule _ _ _ _ Hno1 Ha3) as [Hn3 _].
  destruct (adds_with_rule _ _ _ _ Hno2 Ha3) as [_ Hor3].
  constructor.
  - destruct Ha3 as (es & _ & Hes & _).
    exists (structure_errors d), (dup_name_errors [] 0 plugins ++ es).
    split; [|apply Permutation_refl].
    rewrite He4, Hes, He2, He1, <- !List.app_assoc. reflexivity.
  - rewrite He4, Hn3, He2, He1, with_rule_app, with_rule_dup_names.
    rewrite (with_rule_other _ _ _ Hno3 Hsr). reflexivity.
  - rewrite He4, D3, He2, He1, with_rule_app.
    rewrite (with_rule_other _ _ _ Hno4 Hsr).
    rewrite (with_rule_other "duplicate-path" ["duplicate-plugin-name"]);
      [reflexivity | cbv; intuition discriminate | apply dup_name_errors_rules].
  - rewrite Hr4, R3, Hr2, Hr1. reflexivity.
  - rewrite Hp4, C3, Hs2, Hs1. reflexivity.
  - rewrite Hw4, with_rule_app, Hor3, Hw2, Hw1, with_rule_orphans. reflexivity.
  - rewrite Ho4, O3, Hs2, Hs1. reflexivity.
Qed.

(** Fix mode never touches the report: a run with [--fix] that returns
    leaves the world a run without it leaves. *)
Lemma verify_fix_same_world fs src w evs w' :
  verify fs src true w = Ok evs w' ->
  exists evs0, verify fs src false w = Ok evs0 w'.
Proof.
  unfold verify. destruct src as [|e| |data].
  - intros H. eexists. exact H.
  - intros H. eexists. exact H.
  - discriminate.
  - unfold bind. destruct (validate_marketplace_structure data w) as [[] w1|];
      [|discriminate].
    destruct data as [| | | | |d]; try discriminate.
    destruct (default (JArr []) (dict_get "plugins" d)) as [| | | |plugins|];
      try (intros H; eexists; exact H).
    destruct (check_unique_plugin_names plugins w1) as [[] w2|]; [|discriminate].
    destruct (validate_plugins fs plugins 0 ∅ w2) as [paths w3|]; [|discriminate].
    destruct (find_orphan_skills fs paths w3) as [orphans w4|]; [|discriminate].
    destruct (apply_fixes fs (JObj d)) as [f|];
      unfold get_report, ret, raise; simpl;
      destruct (negb (passed (report w4))); try discriminate;
      intros H; injection H as _ <-; eexists; reflexivity.
Qed.

(** C3, as amended: the plugin loop returns on well-formed plugins, every
    reference to an existing document whose normalized path was claimed
    before draws one duplicate-path error that names the latest earlier
    claimer and the current plugin, and the ownership map keeps the
    latest claimer of each path. *)
Theorem C3_latest_claimer fs (plugins : list json) (w : world) :
  safe_fs fs ->
  forallb is_wf_plugin plugins = true ->
  exists paths' w',
    validate_plugins fs plugins 0 ∅ w = Ok paths' w'
    /\ with_rule "duplicate-path" (errors (report w'))
       = with_rule "duplicate-path" (errors (report w))
         ++ dup_path_errors [] (claims_from fs 0 plugins)
    /\ (forall n, paths' !! n = latest (owners (claims_from fs 0 plugins)) n).
Proof.
  intros Hsafe Hwf.
  destruct (validate_plugins_run fs plugins 0 [] ∅ w Hsafe) as (paths & w' & E & T).
  - intros n. rewrite lookup_empty. reflexivity.
  - exact Hwf.
  - exists paths, w'. destruct T as (P & D & _). auto.
Qed.

(** ** The checks do not look at the report *)

Lemma blind_ret {A} (a : A) : blind (ret a).
Proof. intros w0 w. reflexivity. Qed.

Lemma blind_raise {A} : blind (@raise A).
Proof. intros w0 w. reflexivity. Qed.

Lemma blind_bind {A B} (m : M A) (k : A -> M B) :
  blind m -> (forall a, blind (k a)) -> blind (bind m k).
Proof.
  intros Hm Hk w0 w. unfold bind. rewrite Hm.
  destruct (m w) as [a w'|]; simpl; [apply Hk | reflexivity].
Qed.

Lemma blind_when b m : blind m -> blind (when b m).
Proof. intros Hm. destruct b; [exact Hm | apply blind_ret]. Qed.

Lemma blind_for_each {A} (l : list A) body :
  (forall x, blind (body x)) -> blind (for_each l body).
Proof.
  intros Hb. induction l as [|x l IH]; simpl.
  - apply blind_ret.
  - apply blind_bind; [apply Hb | intros _; exact IH].
Qed.

Lemma blind_fold_each {A S} (body : S -> A -> M S) (l : list A) (acc : S) :
  (forall s x, blind (body s x)) -> blind (fold_each body l acc).
Proof.
  intros Hb. revert acc. induction l as [|x l IH]; intros acc; simpl.
  - apply blind_ret.
  - apply blind_bind; [apply Hb | intros s; apply IH].
Qed.

Lemma blind_error rl m p f : blind (error rl m p f).
Proof.
  intros w0 w. unfold error, on_report, shifted, Report_error. simpl.
  unfold ahead. simpl. rewrite List.app_assoc. reflexivity.
Qed.

Lemma blind_warning rl m p f : blind (warning rl m p f).
Proof.
  intros w0 w. unfold warning, on_report, shifted, Report_warning. simpl.
  unfold ahead. simpl. rewrite List.app_assoc. reflexivity.
Qed.

Lemma blind_count f :
  (forall a b, f (stats_plus a b) = stats_plus a (f b)) -> blind (count f).
Proof.
  intros Hf w0 w. unfold count, on_report, shifted, with_stats. simpl.
  unfold ahead. simpl. rewrite Hf. reflexivity.
Qed.

Lemma blind_do_read fs p : blind (do_read fs p).
Proof.
  intros w0 w. unfold do_read, shifted. simpl.
  unfold ahead. simpl. rewrite List.app_assoc. reflexivity.
Qed.

Ltac stats_plus_incr :=
  let a := fresh "a" in let b := fresh "b" in
  intros a b; unfold stats_plus, incr_plugins_checked, incr_skills_checked,
    incr_skills_missing, incr_orphans_found; simpl; f_equal; lia.

Create HintDb blind_db.

(** Decomposes a goal [blind m] along the structure of [m]; validators
    already treated are looked up in [blind_db]. *)
Ltac blind_step :=
  lazymatch goal with
  | |- blind (ret _) => apply blind_ret
  | |- blind raise => apply blind_raise
  | |- blind (count _) => apply blind_count; stats_plus_incr
  | |- blind (do_read _ _) => apply blind_do_read
  | |- blind (error _ _ _ _) => apply blind_error
  | |- blind (warning _ _ _ _) => apply blind_warning
  | |- blind (when _ _) => apply blind_when
  | |- blind (for_each _ _) => apply blind_for_each; intros ?
  | |- blind (fold_each _ _ _) => apply blind_fold_each; intros ? ?
  | |- blind (bind _ _) => apply blind_bind; [| intros ?]
  | |- blind (match ?x with _ => _ end) => destruct x
  | |- blind _ => solve [eauto 2 with blind_db nocore]
  end.

Ltac blind_auto := repeat blind_step.

Lemma validate_name_blind name p : blind (validate_name name p).
Proof. unfold validate_name. blind_auto. Qed.

Lemma validate_description_blind desc p : blind (validate_description desc p).
Proof. unfold validate_description. blind_auto. Qed.
#[local] Hint Resolve validate_name_blind validate_description_blind : blind_db.

Lemma check_frontmatter_blind content p : blind (check_frontmatter content p).
Proof. unfold check_frontmatter. blind_auto. Qed.
#[local] Hint Resolve check_frontmatter_blind : blind_db.

Lemma validate_skill_md_blind fs p : blind (validate_skill_md fs p).
Proof. unfold validate_skill_md. blind_auto. Qed.
#[local] Hint Resolve validate_skill_md_blind : blind_db.

Lemma validate_skill_blind fs pn paths sp : blind (validate_skill fs pn paths sp).
Proof. unfold validate_skill. blind_auto. Qed.
#[local] Hint Resolve validate_skill_blind : blind_db.

Lemma validate_plugin_blind fs plugin idx paths :
  blind (validate_plugin fs plugin idx paths).
Proof. unfold validate_plugin. blind_auto. Qed.

Lemma validate_plugins_blind fs plugins idx paths :
  blind (validate_plugins fs plugins idx paths).
Proof.
  revert idx paths. induction plugins as [|p ps IH]; intros idx paths; simpl.
  - apply blind_ret.
  - apply blind_bind; [apply validate_plugin_blind | intros paths'; apply IH].
Qed.

Lemma find_orphan_skills_blind fs registered :
  blind (find_orphan_skills fs registered).
Proof. unfold find_orphan_skills. blind_auto. Qed.

Lemma check_name_blind seen ip : blind (check_name seen ip).
Proof. unfold check_name. blind_auto. Qed.
#[local] Hint Resolve check_name_blind : blind_db.

Lemma check_unique_plugin_names_blind plugins :
  blind (check_unique_plugin_names plugins).
Proof. unfold check_unique_plugin_names. blind_auto. Qed.
#[local] Hint Resolve validate_plugins_blind find_orphan_skills_blind
  check_unique_plugin_names_blind : blind_db.

Lemma later_checks_blind fs plugins : blind (later_checks fs plugins).
Proof. unfold later_checks. blind_auto. Qed.

Lemma ahead_init w : ahead w world_init = w.
Proof.
  destruct w as [[es ws [a b c d]] rs]. unfold ahead, stats_plus. simpl.
  rewrite !List.app_nil_r, !Nat.add_0_r. reflexivity.
Qed.

(** Without fix mode, what [verify] does after the structural check is
    [later_checks]. *)
Lemma verify_later fs d plugins w w1 :
  default (JArr []) (dict_get "plugins" d) = JArr plugins ->
  validate_marketplace_structure (JObj d) w = Ok tt w1 ->
  verify fs (Loaded (JObj d)) false w
  = match later_checks fs plugins w1 with
    | Ok _ w' => Ok [] w'
    | Raised => Raised
    end.
Proof.
  intros Hpl E1. unfold verify. rewrite (bind_run _ _ _ _ _ E1), Hpl.
  unfold later_checks, bind, get_report, ret.
  destruct (check_unique_plugin_names plugins w1) as [[] w2|]; [|reflexivity].
  destruct (validate_plugins fs plugins 0 ∅ w2) as [paths w3|]; [|reflexivity].
  destruct (find_orphan_skills fs paths w3) as [orphans w4|]; reflexivity.
Qed.


Lemma filter_map_length {A} (f : A -> string) (p : string) (l : list A) :
  List.length (filter (fun x => x = p) (map f l))
  = List.length (filter (fun c => f c = p) l).
Proof.
  induction l as [|c l IH]; [reflexivity|]. simpl.
  destruct (decide (f c = p)) as [Heq|Hne].
  - rewrite !filter_cons_True by exact Heq. simpl. now rewrite IH.
  - rewrite !filter_cons_False by exact Hne. exact IH.
Qed.

(** C5, as amended: in a run, the documents read are those of the
    references that resolve to an existing document, one read for each
    such reference, in the order of the manifest; a document is read as
    many times as references normalize to its path. *)
Theorem C5_one_read_per_reference fs (d : list (string * json)) (plugins : list json) :
  safe_fs fs ->
  default (JArr []) (dict_get "plugins" d) = JArr plugins ->
  forallb is_plain_plugin plugins = true ->
  forallb is_wf_plugin plugins = true ->
  exists w',
    verify fs (Loaded (JObj d)) false world_init = Ok [] w'
    /\ reads w' = map (fun c => normalize c.1) (claims_from fs 0 plugins)
    /\ forall p,
         List.length (filter (fun x => x = p) (reads w'))
         = List.length (filter (fun c => normalize c.1 = p)
                          (claims_from fs 0 plugins)).
Proof.
  intros Hsafe Hpl Hplain Hwf.
  destruct (verify_run fs d plugins Hsafe Hpl Hplain Hwf) as (w' & E & F).
  exists w'. split; [exact E|]. destruct F as [_ _ _ Hr _ _ _].
  split; [exact Hr|]. intros p. rewrite Hr. apply filter_map_length.
Qed.

(** ** Fix mode *)

Lemma dict_get_set_eq k v d : dict_get k (dict_set k v d) = Some v.
Proof.
  induction d as [|[k' v'] d IH]; simpl.
  - destruct (decide (k = k)); [reflexivity | contradiction].
  - destruct (decide (k = k')) as [->|Hne]; simpl.
    + destruct (decide (k' = k')); [reflexivity | contradiction].
    + destruct (decide (k = k')); [contradiction | exact IH].
Qed.

Lemma dict_set_idem k v d : dict_set k v (dict_set k v d) = dict_set k v d.
Proof.
  induction d as [|[k' v'] d IH]; simpl.
  - destruct (decide (k = k)); [reflexivity | contradiction].
  - destruct (decide (k = k')) as [->|Hne]; simpl.
    + destruct (decide (k' = k')); [reflexivity | contradiction].
    + destruct (decide (k = k')); [contradiction | now rewrite IH].
Qed.

(** The references [fix_skills] keeps are kept again, with no removal. *)
Lemma fix_skills_stable fs pn pn' (skills : list json) :
  forall valid ev,
    fix_skills fs pn skills = Some (valid, ev) ->
    fix_skills fs pn' valid = Some (valid, []).
Proof.
  induction skills as [|s skills IH]; intros valid ev H.
  - simpl in H. injection H as <- <-. reflexivity.
  - destruct s as [| | |sp| |]; try discriminate. simpl in H.
    destruct (fix_skills fs pn skills) as [[v0 e0]|] eqn:E; [|discriminate].
    simpl in H. specialize (IH v0 e0 eq_refl).
    destruct (is_file fs (normalize sp)) eqn:Ef; injection H as <- <-.
    + simpl. rewrite IH. simpl. rewrite Ef. reflexivity.
    + exact IH.
Qed.

Lemma fix_plugin_stable fs p p' ev :
  fix_plugin fs p = Some (p', ev) -> fix_plugin fs p' = Some (p', []).
Proof.
  destruct p as [| | | | |d]; try discriminate. unfold fix_plugin.
  destruct (py_iter (default (JArr []) (dict_get "skills" d))) as [skills|];
    [|discriminate].
  simpl. destruct (fix_skills fs _ skills) as [[valid e]|] eqn:E; [|discriminate].
  simpl. intros H. injection H as <- <-.
  rewrite dict_get_set_eq. simpl.
  rewrite (fix_skills_stable fs _ _ skills valid e E). simpl.
  now rewrite dict_set_idem.
Qed.

Lemma fix_plugins_stable fs (plugins : list json) :
  forall ps ev,
    fix_plugins fs plugins = Some (ps, ev) ->
    Forall (fun p => fix_plugin fs p = Some (p, [])) ps.
Proof.
  induction plugins as [|p plugins IH]; intros ps ev H.
  - simpl in H. injection H as <- <-. constructor.
  - simpl in H. destruct (fix_plugin fs p) as [[p' e1]|] eqn:E1; [|discriminate].
    simpl in H. destruct (fix_plugins fs plugins) as [[ps' e2]|] eqn:E2;
      [|discriminate].
    simpl in H. injection H as <- <-. constructor.
    + eapply fix_plugin_stable, E1.
    + eapply IH. reflexivity.
Qed.

Lemma fix_plugins_fixed fs (ps : list json) :
  Forall (fun p => fix_plugin fs p = Some (p, [])) ps ->
  fix_plugins fs ps = Some (ps, []).
Proof.
  induction 1 as [|p ps Hp _ IH]; [reflexivity|].
  simpl. rewrite Hp. simpl. rewrite IH. reflexivity.
Qed.

Lemma filter_filter_same {A} (f : A -> bool) (l : list A) :
  List.filter f (List.filter f l) = List.filter f l.
Proof.
  induction l as [|x l IH]; [reflexivity|]. simpl.
  destruct (f x) eqn:E; simpl; [rewrite E; now f_equal | exact IH].
Qed.

Lemma Forall_filter_bool {A} (P : A -> Prop) (f : A -> bool) (l : list A) :
  Forall P l -> Forall P (List.filter f l).
Proof.
  induction 1 as [|x l Hx _ IH]; [constructor|]. simpl.
  destruct (f x); [constructor; assumption | exact IH].
Qed.

(** The manifest [apply_fixes] writes is left alone by [apply_fixes]. *)
Lemma apply_fixes_fixed_point fs d (plugins : list json) r :
  fix_plugins fs plugins = Some r ->
  exists f2,
    apply_fixes fs (JObj (dict_set "plugins" (JArr (List.filter has_skills r.1)) d))
    = Some f2
    /\ fix_events f2 = [] /\ fixed f2 = false.
Proof.
  intros Hr. destruct r as [ps ev]. simpl.
  pose proof (fix_plugins_stable fs plugins ps ev Hr) as Hst.
  pose proof (fix_plugins_fixed fs _ (Forall_filter_bool _ has_skills _ Hst)) as Hfix.
  unfold apply_fixes. rewrite dict_get_set_eq. simpl. rewrite Hfix. simpl.
  rewrite filter_filter_same, Nat.ltb_irrefl. simpl.
  eexists. split; [reflexivity|]. split; reflexivity.
Qed.

(** What [apply_fixes] prints and writes: nothing at all, or removals
    followed by the write of the pruned manifest. *)
Lemma apply_fixes_events fs data f :
  apply_fixes fs data = Some f ->
  fix_events f = []
  \/ exists ev d plugins r,
       data = JObj d
       /\ fix_plugins fs plugins = Some r
       /\ fix_events f
          = ev ++ [Written (JObj (dict_set "plugins"
                                    (JArr (List.filter has_skills r.1)) d))].
Proof.
  destruct data as [| | | | |d]; try discriminate. unfold apply_fixes.
  destruct (py_iter (default (JArr []) (dict_get "plugins" d))) as [plugins|];
    [|discriminate].
  simpl. destruct (fix_plugins fs plugins) as [r|] eqn:Er; [|discriminate].
  simpl. destruct (dict_get "plugins" d) as [v|]; [|discriminate].
  simpl. intros H. injection H as <-. destruct r as [ps ev].
  cbn [fix_events fixed fst snd].
  destruct ev as [|e ev].
  - destruct (List.length (List.filter has_skills ps) <? List.length plugins)%nat.
    + right. eexists _, d, plugins, (ps, []). split; [reflexivity|].
      split; [exact Er | reflexivity].
    + left. reflexivity.
  - right. eexists _, d, plugins, (ps, e :: ev). split; [reflexivity|].
    split; [exact Er | reflexivity].
Qed.

Lemma last_written_snoc ev data src :
  last_written (ev ++ [Written data]) src = Loaded data.
Proof.
  revert src. induction ev as [|e ev IH]; intros src; [reflexivity|].
  simpl. destruct e; apply IH.
Qed.

(** What a run with [--fix] prints and writes is nothing, or what
    [apply_fixes] does on the manifest loaded. *)
Lemma verify_events fs src w evs w' :
  verify fs src true w = Ok evs w' ->
  evs = []
  \/ exists data f, src = Loaded data /\ apply_fixes fs data = Some f
                    /\ evs = fix_events f.
Proof.
  unfold verify. destruct src as [|e| |data].
  - intros H. left. unfold bind, error, on_report, ret in H. now injection H as <-.
  - intros H. left. unfold bind, error, on_report, ret in H. now injection H as <-.
  - discriminate.
  - unfold bind. destruct (validate_marketplace_structure data w) as [[] w1|];
      [|discriminate].
    destruct data as [| | | | |d]; try discriminate.
    destruct (default (JArr []) (dict_get "plugins" d)) as [| | | |plugins|];
      try (intros H; left; unfold ret in H; now injection H as <-).
    destruct (check_unique_plugin_names plugins w1) as [[] w2|]; [|discriminate].
    destruct (validate_plugins fs plugins 0 ∅ w2) as [paths w3|]; [|discriminate].
    destruct (find_orphan_skills fs paths w3) as [orphans w4|]; [|discriminate].
    destruct (apply_fixes fs (JObj d)) as [f|] eqn:Ef;
      unfold get_report, ret, raise; simpl;
      destruct (negb (passed (report w4))); try discriminate;
      intros H; injection H as <- _.
    + right. exists (JObj d), f. auto.
    + now left.
    + now left.
Qed.

(** C9: after a run with [--fix] that completes, a second run with
    [--fix] on the manifest the first one left, over the same file
    system, prints no removal, writes nothing and leaves the manifest
    file as it is. *)
Theorem C9_fix_idempotent fs src evs1 w1 :
  verify fs src true world_init = Ok evs1 w1 ->
  manifest_after fs (last_written evs1 src) true = last_written evs1 src
  /\ forall evs2 w2,
       verify fs (last_written evs1 src) true world_init = Ok evs2 w2 ->
       evs2 = [].
Proof.
  intros H1.
  assert (Hsecond : forall evs2 w2,
             verify fs (last_written evs1 src) true world_init = Ok evs2 w2 ->
             evs2 = []).
  { destruct (verify_events _ _ _ _ _ H1) as [->|(data & f & -> & Hf & ->)].
    - cbn [last_written]. intros evs2 w2 H2. rewrite H1 in H2.
      now injection H2 as <-.
    - destruct (apply_fixes_events _ _ _ Hf) as [Hnil|(ev & d & plugins & r & -> & Hr & Hev)].
      + rewrite Hnil in *. cbn [last_written]. intros evs2 w2 H2.
        rewrite H1 in H2. now injection H2 as <-.
      + rewrite Hev, last_written_snoc. intros evs2 w2 H2.
        destruct (verify_events _ _ _ _ _ H2) as [->|(data2 & f2 & Hd & Hf2 & ->)];
          [reflexivity|].
        injection Hd as <-.
        destruct (apply_fixes_fixed_point fs d plugins r Hr) as (f3 & Hf3 & Hnil & _).
        rewrite Hf3 in Hf2. injection Hf2 as <-. exact Hnil. }
  split; [|exact Hsecond].
  unfold manifest_after.
  destruct (verify fs (last_written evs1 src) true world_init) as [evs2 w2|] eqn:E2;
    [|reflexivity].
  rewrite (Hsecond evs2 w2 eq_refl). reflexivity.
Qed.

(** ** The properties on sample inputs *)

Lemma safe_fs_with present found : safe_fs (fs_with present found).
Proof. intros p. vm_compute. reflexivity. Qed.

(** C3 as stated fails: of three plugins that reference one document, the
    third is reported against the second, not the first, and the map ends
    with the third as owner. *)
Lemma C3_counterexample :
  (with_rule "duplicate-path" <$>
     (errors <$> (report <$>
        outcome (validate_plugins fs_one_skill three_claimers 0 ∅) world_init)))
  = Some [dup_path_entry "skills/writing-tests" (JStr "a") (JStr "b");
          dup_path_entry "./skills/writing-tests" (JStr "b") (JStr "c")]
  /\ match validate_plugins fs_one_skill three_claimers 0 ∅ world_init with
     | Ok paths w =>
         paths !! "skills/writing-tests" = Some (JStr "c")
         /\ ~ In (dup_path_entry "./skills/writing-tests" (JStr "a") (JStr "c"))
                 (errors (report w))
     | Raised => False
     end.
Proof.
  split; [vm_compute; reflexivity|].
  vm_compute. split; [reflexivity|]. intuition discriminate.
Qed.

Lemma C3_witness :
  exists paths' w',
    validate_plugins fs_one_skill three_claimers 0 ∅ world_init = Ok paths' w'
    /\ with_rule "duplicate-path" (errors (report w'))
       = with_rule "duplicate-path" (errors (report world_init))
         ++ dup_path_errors [] (claims_from fs_one_skill 0 three_claimers)
    /\ (forall n, paths' !! n
                  = latest (owners (claims_from fs_one_skill 0 three_claimers)) n).
Proof.
  apply (C3_latest_claimer fs_one_skill three_claimers world_init).
  - intros p. vm_compute. reflexivity.
  - vm_compute. reflexivity.
Defined.



(** C5 as stated fails: the one document three plugins reference is read
    three times in the run. *)
Lemma C5_counterexample :
  (reads <$> outcome (verify fs_one_skill (Loaded (manifest_of three_claimers)) false)
               world_init)
  = Some ["skills/writing-tests"; "skills/writing-tests"; "skills/writing-tests"].
Proof. vm_compute. reflexivity. Qed.

Lemma C5_witness :
  exists w',
    verify fs_one_skill (Loaded (JObj fields_of_three_claimers)) false world_init
    = Ok [] w'
    /\ reads w' = map (fun c => normalize c.1)
                    (claims_from fs_one_skill 0 three_claimers)
    /\ forall p,
         List.length (filter (fun x => x = p) (reads w'))
         = List.length (filter (fun c => normalize c.1 = p)
                          (claims_from fs_one_skill 0 three_claimers)).
Proof.
  apply (C5_one_read_per_reference fs_one_skill fields_of_three_claimers
           three_claimers).
  - intros p. vm_compute. reflexivity.
  - reflexivity.
  - vm_compute. reflexivity.
  - vm_compute. reflexivity.
Defined.

(** C6 as stated fails: of three plugins of one name, the third is
    reported against index 1, not index 0. *)
Lemma C6_counterexample :
  (errors <$> (report <$>
     outcome (check_unique_plugin_names three_same_name) world_init))
  = Some [dup_name_entry (JStr "p") 0 1; dup_name_entry (JStr "p") 1 2]
  /\ ~ In (dup_name_entry (JStr "p") 0 2)
          [dup_name_entry (JStr "p") 0 1; dup_name_entry (JStr "p") 1 2].
Proof. split; [vm_compute; reflexivity|]. simpl. intuition discriminate. Qed.

Lemma C6_witness :
  exists w',
    check_unique_plugin_names three_same_name world_init = Ok tt w'
    /\ errors (report w')
       = errors (report world_init) ++ dup_name_errors [] 0 three_same_name
    /\ warnings (report w') = warnings (report world_init)
    /\ stats (report w') = stats (report world_init).
Proof.
  apply (C6_duplicate_names three_same_name world_init). vm_compute. reflexivity.
Defined.

Lemma C7_witness :
  (exists w',
      validate_name (Scalar "writing-tests") "skills/writing-tests" world_init
      = Ok tt w'
      /\ errors (report w') = errors (report world_init))
  /\ (exists w',
         validate_name (Scalar "Writing") "skills/writing" world_init = Ok tt w'
         /\ In (invalid_name_format "Writing" "skills/writing") (errors (report w'))).
Proof.
  split.
  - destruct (parse_frontmatter good_doc) as [[m|] [e|]] eqn:E;
      try (vm_compute in E; discriminate E).
    assert (Hk : m !! "name" = Some (Scalar "writing-tests")).
    { vm_compute in E. injection E as <-. vm_compute. reflexivity. }
    apply (proj1 (C7_name_format good_doc m "writing-tests" "skills/writing-tests"
                    world_init E Hk)).
    + apply ReFacts.fullmatch_spec. vm_compute. reflexivity.
    + vm_compute. reflexivity.
    + vm_compute. lia.
  - destruct (parse_frontmatter upper_name_doc) as [[m|] [e|]] eqn:E;
      try (vm_compute in E; discriminate E).
    assert (Hk : m !! "name" = Some (Scalar "Writing")).
    { vm_compute in E. injection E as <-. vm_compute. reflexivity. }
    apply (proj2 (C7_name_format upper_name_doc m "Writing" "skills/writing"
                    world_init E Hk)).
    right. left. exists "W"%char. split; [left; reflexivity | reflexivity].
Defined.

Lemma C9_witness :
  exists evs1 w1,
    verify fs_one_skill (Loaded manifest_dangling) true world_init = Ok evs1 w1
    /\ manifest_after fs_one_skill (last_written evs1 (Loaded manifest_dangling)) true
       = last_written evs1 (Loaded manifest_dangling)
    /\ last_written evs1 (Loaded manifest_dangling)
       = Loaded (manifest_of [plugin_entry "a" ["./skills/writing-tests"]])
    /\ forall evs2 w2,
         verify fs_one_skill (last_written evs1 (Loaded manifest_dangling)) true
           world_init = Ok evs2 w2 ->
         evs2 = [].
Proof.
  destruct (verify fs_one_skill (Loaded manifest_dangling) true world_init)
    as [evs1 w1|] eqn:E.
  - exists evs1, w1. split; [reflexivity|].
    destruct (C9_fix_idempotent fs_one_skill (Loaded manifest_dangling) evs1 w1 E)
      as [Hm Hs].
    split; [exact Hm|]. split; [|exact Hs].
    vm_compute in E. injection E as <- _. vm_compute. reflexivity.
  - vm_compute in E. discriminate E.
Defined.

Lemma C10_witness :
  exists evs w,
    verify fs_one_skill (Loaded (manifest_of three_claimers)) false world_init
    = Ok evs w
    /\ forall e, In e (errors (report w) ++ warnings (report w)) ->
                 rule e <> "missing-frontmatter".
Proof.
  destruct (verify fs_one_skill (Loaded (manifest_of three_claimers)) false world_init)
    as [evs w|] eqn:E.
  - exists evs, w. split; [reflexivity|].
    exact (proj2 (proj2 C10_missing_frontmatter_unreachable) _ _ _ _ _ E).
  - vm_compute in E. discriminate E.
Defined.


(** ** The documented end-to-end scenarios *)

(** The referenced document is absent: one error, missing-skill, one
    skill counted missing, exit status 1. *)
Example scenario_missing_skill :
  (rules_of <$> (errors <$> (report <$>
     outcome (verify (fs_with [] []) (Loaded manifest_scenario) false) world_init)))
  = Some ["missing-skill"]
  /\ (skills_missing <$> (stats <$> (report <$>
        outcome (verify (fs_with [] []) (Loaded manifest_scenario) false)
          world_init))) = Some 1
  /\ main (fs_with [] []) (Loaded manifest_scenario) false = 1.
Proof. vm_compute. repeat split. Qed.

(** The document exists and is well formed: no error, no warning of the
    naming or description rules, exit status 0. *)
Example scenario_present_skill :
  (errors <$> (report <$>
     outcome (verify fs_one_skill (Loaded manifest_scenario) false) world_init))
  = Some []
  /\ (rules_of <$> (warnings <$> (report <$>
        outcome (verify fs_one_skill (Loaded manifest_scenario) false) world_init)))
     = Some ["recommended-field"; "recommended-field"]
  /\ main fs_one_skill (Loaded manifest_scenario) false = 0.
Proof. vm_compute. repeat split. Qed.

(** A document on disk that no plugin references: one orphan-skill
    warning, one orphan counted, and the report still passes. *)
Example scenario_orphan :
  (with_rule "orphan-skill" <$> (warnings <$> (report <$>
     outcome (verify (fs_with ["skills/writing-tests"]
                        ["skills/writing-tests"; "skills/unregistered-thing"])
                (Loaded manifest_scenario) false) world_init)))
  = Some [orphan_entry "skills/unregistered-thing"]
  /\ (orphans_found <$> (stats <$> (report <$>
        outcome (verify (fs_with ["skills/writing-tests"]
                           ["skills/writing-tests"; "skills/unregistered-thing"])
                   (Loaded manifest_scenario) false) world_init))) = Some 1
  /\ main (fs_with ["skills/writing-tests"]
             ["skills/writing-tests"; "skills/unregistered-thing"])
       (Loaded manifest_scenario) false = 0.
Proof. vm_compute. repeat split. Qed.

(** * Further properties of the script *)

(** ** Normalization *)

Lemma lstrip_with_idem p s : Py.lstrip_with p (Py.lstrip_with p s) = Py.lstrip_with p s.
Proof.
  induction s as [|c s IH]; [reflexivity|]. simpl.
  destruct (p c) eqn:E; [exact IH|]. simpl. now rewrite E.
Qed.

Lemma lstrip_with_split p s :
  exists pre, s = pre +:+ Py.lstrip_with p s
              /\ Forall (fun c => p c = true) (chars pre).
Proof.
  induction s as [|c s (pre & Hs & Hp)]; [exists ""; split; [reflexivity|constructor]|].
  simpl. destruct (p c) eqn:E.
  - exists (String c pre). rewrite append_cons, <- Hs. split; [reflexivity|].
    constructor; assumption.
  - exists "". split; [reflexivity | constructor].
Qed.

Lemma lstrip_with_head p s c rest :
  Py.lstrip_with p s = String c rest -> p c = false.
Proof.
  induction s as [|c' s IH]; [discriminate|]. simpl.
  destruct (p c') eqn:E; [exact IH|]. intros H. injection H as -> _. exact E.
Qed.

Lemma mem_dot_slash c : Py.mem_char c "./" = true <-> dot_or_slash c.
Proof.
  unfold dot_or_slash. simpl.
  destruct (decide (c = "."%char)); [tauto|].
  destruct (decide (c = "/"%char)); [tauto|]. split; [discriminate | tauto].
Qed.

(** X1: normalization removes the longest prefix made of dots and
    slashes and nothing else: the reference is that prefix followed by the
    normalized path, the normalized path starts with neither character,
    and normalizing again changes nothing. *)
Theorem X1_normalize_shape (p : string) :
  (exists pre, p = pre +:+ normalize p /\ Forall dot_or_slash (chars pre))
  /\ (forall c rest, normalize p = String c rest -> ~ dot_or_slash c)
  /\ normalize (normalize p) = normalize p.
Proof.
  unfold normalize, Py.lstrip. split; [|split].
  - destruct (lstrip_with_split (fun c => Py.mem_char c "./") p) as (pre & Hs & Hp).
    exists pre. split; [exact Hs|].
    eapply Forall_impl; [exact Hp|]. intros c Hc. now apply mem_dot_slash.
  - intros c rest H Hd. apply lstrip_with_head in H.
    apply mem_dot_slash in Hd. congruence.
  - apply lstrip_with_idem.
Qed.

(** ** Structural check *)

Lemma structure_errors_nil d :
  structure_errors d = []
  <-> dict_has "name" d = true /\ exists l, dict_get "plugins" d = Some (JArr l).
Proof.
  unfold structure_errors, dict_has.
  destruct (dict_get "name" d) as [vn|];
    destruct (dict_get "plugins" d) as [[| | | |l|]|]; simpl;
    (split;
     [ intros H; first [discriminate H | split; [reflexivity | eauto]]
     | intros [H1 (l0 & H2)];
       first [discriminate H1 | discriminate H2 | reflexivity] ]).
Qed.

(** X2: on a manifest object the structural check returns and leaves the
    report as it found it exactly when the object has a name and a
    plugins field that is a sequence; it never adds a warning nor touches
    the counters.  On a list or a str that holds "plugins" it raises, at
    [data["plugins"]]; on one that does not it returns, having reported
    plugins, and name unless the value holds it, as missing.  On a
    number, a boolean or None it raises.  On any value that is not an
    object the run of [verify] ends in an exception. *)
Theorem X2_structure_check (d : list (string * json)) (w : world) :
  (exists w',
      validate_marketplace_structure (JObj d) w = Ok tt w'
      /\ (errors (report w') = errors (report w)
          <-> dict_has "name" d = true
              /\ exists l, dict_get "plugins" d = Some (JArr l))
      /\ warnings (report w') = warnings (report w)
      /\ stats (report w') = stats (report w))
  /\ (forall data,
         (exists l, data = JArr l) \/ (exists s, data = JStr s) ->
         if member_of "plugins" data
         then validate_marketplace_structure data w = Raised
         else exists w' added,
                validate_marketplace_structure data w = Ok tt w'
                /\ errors (report w') = errors (report w) ++ added
                /\ Permutation added (missing_fields data)
                /\ warnings (report w') = warnings (report w)
                /\ stats (report w') = stats (report w))
  /\ (forall data,
         data = JNull \/ (exists b, data = JBool b) \/ (exists n, data = JNum n) ->
         validate_marketplace_structure data w = Raised)
  /\ (forall data fs fix_mode,
         (forall d', data <> JObj d') ->
         verify fs (Loaded data) fix_mode w = Raised).
Proof.
  split; [|split; [|split]].
  - destruct (validate_marketplace_structure_run d w) as (w' & E & He & Hw & Hs & _).
    exists w'. split; [exact E|]. split; [|split; assumption].
    rewrite He, <- structure_errors_nil. split.
    + intros H. apply (f_equal (@List.length entry)) in H.
      rewrite List.length_app in H.
      destruct (structure_errors d); [reflexivity | simpl in H; lia].
    + intros ->. now rewrite app_nil_r.
  - intros data Hdata.
    assert (Hrun : validate_marketplace_structure data
                   = (for_each REQUIRED_MARKETPLACE_FIELDS (fun field =>
                        when (negb (member_of field data))
                          (error "required-field"
                             [Lit "Missing required field: "; Str field]
                             None None)) ;;
                      if member_of "plugins" data then raise else ret tt)).
    { destruct Hdata as [[l ->]|[s ->]]; reflexivity. }
    rewrite Hrun. unfold missing_fields, REQUIRED_MARKETPLACE_FIELDS.
    cbn [for_each]. unfold bind, when.
    destruct (member_of "plugins" data); destruct (member_of "name" data);
      cbn [negb]; unfold error, on_report, ret, raise; try reflexivity;
      eexists _, _; (split; [reflexivity|]); simpl;
      (split; [rewrite <- ?List.app_assoc; reflexivity|]);
      (split; [apply Permutation_refl|]); split; reflexivity.
  - intros data [->|[[b ->]|[n ->]]]; reflexivity.
  - intros data fs fix_mode Hd. unfold verify, bind.
    destruct (validate_marketplace_structure data w) as [[] w1|]; [|reflexivity].
    destruct data; try reflexivity. exfalso. eapply Hd. reflexivity.
Qed.

(** ** Fatal conditions *)

Lemma verify_loaded_adds fs data fix_mode :
  keeps (adds (rule_in loaded_rules)) (verify fs (Loaded data) fix_mode).
Proof. unfold verify. adds_auto. Qed.

(** X3: the two fatal errors are reported for the fatal conditions only,
    and then alone.  After a run that returns, the report holds a
    file-not-found entry exactly when the manifest was not a file, and an
    invalid-json entry exactly when decoding it failed with
    [JSONDecodeError]; in both cases that error is the whole report, no
    check has run and fix mode has done nothing.  A manifest on which
    loading raises another exception gives no report. *)
Theorem X3_fatal_errors fs src fix_mode evs w :
  verify fs src fix_mode world_init = Ok evs w ->
  ((exists e, In e (errors (report w) ++ warnings (report w))
              /\ rule e = "file-not-found")
   <-> src = NotAFile)
  /\ ((exists e, In e (errors (report w) ++ warnings (report w))
                 /\ rule e = "invalid-json")
      <-> exists msg, src = InvalidJson msg)
  /\ (src = NotAFile ->
      errors (report w) = [file_not_found_entry] /\ warnings (report w) = []
      /\ stats (report w) = stats Report_init /\ reads w = [] /\ evs = [])
  /\ (forall msg, src = InvalidJson msg ->
      errors (report w) = [invalid_json_entry msg] /\ warnings (report w) = []
      /\ stats (report w) = stats Report_init /\ reads w = [] /\ evs = [])
  /\ src <> LoadFailed.
Proof.
  intros H. destruct src as [|msg| |data].
  - injection H as <- <-. simpl. repeat split; try reflexivity; try discriminate.
    + exists file_not_found_entry. split; [left|]; reflexivity.
    + intros (e & [<-|[]] & He). discriminate.
    + intros (msg & Hm). discriminate.
  - injection H as <- <-. simpl. repeat split; try reflexivity; try discriminate.
    + intros (e & [<-|[]] & He). discriminate.
    + intros _. exists msg. reflexivity.
    + exists (invalid_json_entry msg). split; [left|]; reflexivity.
    + injection H as <-. reflexivity.
  - discriminate.
  - apply verify_loaded_adds in H. destruct H as (es & ws & He & Hw & Pe & Pw).
    simpl in He, Hw. rewrite He, Hw.
    assert (Hall : Forall (rule_in loaded_rules) (es ++ ws))
      by (apply Forall_app; split; assumption).
    rewrite List.Forall_forall in Hall.
    repeat split; try discriminate.
    + intros (e & Hin & Hr). apply Hall in Hin. unfold rule_in in Hin.
      rewrite Hr in Hin. exfalso. cbv in Hin. intuition discriminate.
    + intros (e & Hin & Hr). apply Hall in Hin. unfold rule_in in Hin.
      rewrite Hr in Hin. exfalso. cbv in Hin. intuition discriminate.
    + intros (msg & Hm). discriminate.
Qed.

(** ** When fix mode acts *)

(** X4: fix mode acts only on a failed report: a run with [--fix] whose
    report passes prints no removal and writes nothing, and a run without
    [--fix] never does. *)
Theorem X4_fix_only_when_failed fs src fix_mode evs w :
  verify fs src fix_mode world_init = Ok evs w ->
  fix_mode = false \/ passed (report w) = true ->
  evs = [] /\ manifest_after fs src fix_mode = src.
Proof.
  intros H Hcond.
  assert (Hevs : evs = []).
  { revert H. unfold verify. destruct src as [|e| |data].
    - intros H. unfold bind, error, on_report, ret in H. now injection H as <-.
    - intros H. unfold bind, error, on_report, ret in H. now injection H as <-.
    - discriminate.
    - unfold bind. destruct (validate_marketplace_structure data world_init)
        as [[] w1|]; [|discriminate].
      destruct data as [| | | | |d]; try discriminate.
      destruct (default (JArr []) (dict_get "plugins" d)) as [| | | |plugins|];
        try (intros H; unfold ret in H; now injection H as <-).
      destruct (check_unique_plugin_names plugins w1) as [[] w2|]; [|discriminate].
      destruct (validate_plugins fs plugins 0 ∅ w2) as [paths w3|]; [|discriminate].
      destruct (find_orphan_skills fs paths w3) as [orphans w4|]; [|discriminate].
      destruct (apply_fixes fs (JObj d)) as [f|];
        unfold get_report, ret, raise; simpl;
        destruct fix_mode; simpl;
        destruct (passed (report w4)) eqn:Ep; simpl; try discriminate;
        intros H; injection H as <- <-; try reflexivity;
        destruct Hcond as [Hc|Hc]; congruence. }
  split; [exact Hevs|]. unfold manifest_after. rewrite H, Hevs. reflexivity.
Qed.

(** The last step of [verify], once the validators have returned. *)
Lemma verify_steps fs d plugins fix_mode w w1 w2 paths w3 orphans w4 :
  default (JArr []) (dict_get "plugins" d) = JArr plugins ->
  validate_marketplace_structure (JObj d) w = Ok tt w1 ->
  check_unique_plugin_names plugins w1 = Ok tt w2 ->
  validate_plugins fs plugins 0 ∅ w2 = Ok paths w3 ->
  find_orphan_skills fs paths w3 = Ok orphans w4 ->
  verify fs (Loaded (JObj d)) fix_mode w
  = if fix_mode && negb (passed (report w4))
    then match apply_fixes fs (JObj d) with
         | Some f => Ok (fix_events f) w4
         | None => Raised
         end
    else Ok [] w4.
Proof.
  intros Hpl E1 E2 E3 E4. unfold verify. rewrite Hpl.
  rewrite (bind_run _ _ _ _ _ E1), (bind_run _ _ _ _ _ E2),
    (bind_run _ _ _ _ _ E3), (bind_run _ _ _ _ _ E4).
  unfold bind, get_report.
  destruct (fix_mode && negb (passed (report w4))); [|reflexivity].
  destruct (apply_fixes fs (JObj d)); reflexivity.
Qed.

Lemma passed_false_of_in (r : Report) (e : entry) : In e (errors r) -> passed r = false.
Proof. unfold passed. destruct (errors r); [intros [] | reflexivity]. Qed.

(** X5: on a manifest object without a plugins field, a run without
    [--fix] reports the missing field and returns, while a run with
    [--fix] ends in an exception ([data["plugins"]] in [apply_fixes])
    before anything is written: exit status 1 and the file as it was. *)
Theorem X5_fix_without_plugins fs (d : list (string * json)) :
  dict_get "plugins" d = None ->
  verify fs (Loaded (JObj d)) true world_init = Raised
  /\ main fs (Loaded (JObj d)) true = 1
  /\ manifest_after fs (Loaded (JObj d)) true = Loaded (JObj d)
  /\ exists w',
       verify fs (Loaded (JObj d)) false world_init = Ok [] w'
       /\ In (required_field_entry "plugins") (errors (report w')).
Proof.
  intros Hnone.
  assert (Hpl : default (JArr []) (dict_get "plugins" d) = JArr []).
  { now rewrite Hnone. }
  destruct (validate_marketplace_structure_run d world_init)
    as (w1 & E1 & He1 & _).
  assert (Hin : In (required_field_entry "plugins") (errors (report w1))).
  { rewrite He1. apply in_or_app. right. unfold structure_errors, dict_has.
    rewrite Hnone. apply in_or_app. right. left. reflexivity. }
  destruct (find_orphan_skills_run fs [] ∅ w1) as (w4 & E4 & He4 & _).
  { intros n. rewrite lookup_empty. reflexivity. }
  assert (Hfail : passed (report w4) = false).
  { eapply passed_false_of_in. rewrite He4. exact Hin. }
  assert (Hfix : apply_fixes fs (JObj d) = None).
  { unfold apply_fixes. rewrite Hnone. reflexivity. }
  pose proof (verify_steps fs d [] true world_init w1 w1 ∅ w1 _ w4 Hpl E1
                eq_refl eq_refl E4) as Ht.
  pose proof (verify_steps fs d [] false world_init w1 w1 ∅ w1 _ w4 Hpl E1
                eq_refl eq_refl E4) as Hf.
  rewrite Hfail, Hfix in Ht. cbn [andb negb] in Ht, Hf.
  split; [exact Ht|]. split; [unfold main; now rewrite Ht|].
  split; [unfold manifest_after; now rewrite Ht|].
  exists w4. split; [exact Hf|]. rewrite He4. exact Hin.
Qed.

(** ** Renderings *)

Lemma join_lines_split first l1 line l2 :
  join_lines (first :: l1 ++ line :: l2)
  = (first ++ flat_map (fun x => Lit nl :: x) l1)
    ++ Lit nl :: line ++ flat_map (fun x => Lit nl :: x) l2.
Proof.
  unfold join_lines. rewrite flat_map_app. simpl.
  rewrite <- !List.app_assoc. reflexivity.
Qed.

(** A line that is not the first one follows a line break in the text. *)
Lemma join_lines_in first rest line :
  In line rest ->
  exists before after,
    join_lines (first :: rest) = before ++ Lit nl :: line ++ after.
Proof.
  intros H. apply in_split in H as (l1 & l2 & ->).
  eexists _, _. apply join_lines_split.
Qed.

Lemma join_lines_end first l1 l2 :
  join_lines (first :: l1 ++ l2)
  = join_lines (first :: l1) ++ flat_map (fun x => Lit nl :: x) l2.
Proof.
  unfold join_lines. rewrite flat_map_app, <- !List.app_assoc. reflexivity.
Qed.

Lemma table_section_in title l e :
  In e l -> In (entry_line e) (table_section title l).
Proof.
  intros H. destruct l as [|e0 l]; [destruct H|]. unfold table_section.
  right. apply in_or_app. left. now apply in_map.
Qed.

Lemma table_section_header title l :
  l <> [] ->
  In [Lit "### "; Lit title; Lit " ("; Num (List.length l); Lit ")"]
     (table_section title l).
Proof. intros H. destruct l as [|e0 l]; [contradiction|]. left. reflexivity. Qed.

(** X6: both renderings agree with the report.  The status of [to_dict]
    is PASS exactly when there is no error; the text of [to_table] opens
    with the title, an empty line and that status; every error and every
    warning has its line in the text, with its rule, path, message and
    fix; a non-empty list of errors or warnings has a heading with the
    number of its entries; and the text ends with the numbers of errors
    and of warnings. *)
Theorem X6_renderings (r : Report) :
  (status (to_dict r) = "PASS" <-> errors r = [])
  /\ (status (to_dict r) = "FAIL" <-> errors r <> [])
  /\ (exists rest,
        to_table r
        = [Lit "## Marketplace Validation Report"; Lit nl; Lit ""; Lit nl;
           Lit "Status: "; Str (status (to_dict r))] ++ rest)
  /\ (forall e, In e (errors r) \/ In e (warnings r) ->
        exists before after,
          to_table r = before ++ Lit nl :: entry_line e ++ after)
  /\ (errors r <> [] ->
      exists before after,
        to_table r
        = before ++ Lit nl :: [Lit "### "; Lit "Errors"; Lit " (";
                               Num (List.length (errors r)); Lit ")"] ++ after)
  /\ (warnings r <> [] ->
      exists before after,
        to_table r
        = before ++ Lit nl :: [Lit "### "; Lit "Warnings"; Lit " (";
                               Num (List.length (warnings r)); Lit ")"] ++ after)
  /\ (exists before,
        to_table r
        = before ++ [Lit nl; Lit "- Errors: "; Num (List.length (errors r));
                     Lit nl; Lit "- Warnings: "; Num (List.length (warnings r))]).
Proof.
  split; [|split; [|split; [|split; [|split; [|split]]]]].
  - unfold to_dict. simpl. rewrite <- passed_true_iff.
    destruct (passed r); split; intros; try reflexivity; discriminate.
  - unfold to_dict, passed. simpl.
    destruct (errors r); simpl; split; intros H; try reflexivity;
      try discriminate; contradiction.
  - eexists. unfold to_table, table_lines, join_lines. simpl. reflexivity.
  - intros e He. unfold to_table, table_lines. cbn [app].
    apply join_lines_in. right. right. right. destruct He as [He|He].
    + apply in_or_app. left. now apply table_section_in.
    + apply in_or_app. right. apply in_or_app. left. now apply table_section_in.
  - intros He. unfold to_table, table_lines.
    apply (join_lines_in _ _ [Lit "### "; Lit "Errors"; Lit " (";
                              Num (List.length (errors r)); Lit ")"]).
    right. right. right.
    apply in_or_app. left. now apply table_section_header.
  - intros Hw. unfold to_table, table_lines.
    apply (join_lines_in _ _ [Lit "### "; Lit "Warnings"; Lit " (";
                              Num (List.length (warnings r)); Lit ")"]).
    right. right. right.
    apply in_or_app. right. apply in_or_app. left. now apply table_section_header.
  - set (l1 := [[Lit ""]; [Lit "Status: "; Str (status (to_dict r))]; [Lit ""]]
               ++ table_section "Errors" (errors r)
               ++ table_section "Warnings" (warnings r)
               ++ [[Lit "### Summary"];
                   [Lit "- Plugins checked: "; Num (plugins_checked (stats r))];
                   [Lit "- Skills checked: "; Num (skills_checked (stats r))];
                   [Lit "- Skills missing: "; Num (skills_missing (stats r))];
                   [Lit "- Orphans found: "; Num (orphans_found (stats r))]]).
    set (l2 := [[Lit "- Errors: "; Num (List.length (errors r))];
                [Lit "- Warnings: "; Num (List.length (warnings r))]]).
    exists (join_lines ([Lit "## Marketplace Validation Report"] :: l1)).
    transitivity (join_lines ([Lit "## Marketplace Validation Report"] :: l1 ++ l2)).
    + unfold to_table. f_equal. unfold table_lines, l1, l2. simpl.
      rewrite <- !List.app_assoc. reflexivity.
    + rewrite join_lines_end. reflexivity.
Qed.

(** ** Documents with list-valued fields *)

Lemma required_fields_total (m : gmap string fmval) p :
  total (grows skill_md_rules)
    (for_each REQUIRED_FRONTMATTER_FIELDS (fun field =>
       when (bool_decide (m !! field = None))
         (error "missing-frontmatter-field"
            [Lit "Missing required frontmatter field: "; Str field]
            (Some (SkillMd p)) None))).
Proof. total_auto. Qed.

Lemma check_frontmatter_unsafe content p w :
  safe_doc content = false -> check_frontmatter content p w = Raised.
Proof.
  unfold safe_doc, check_frontmatter.
  destruct (parse_frontmatter_cases content) as [(m & ->)|(e & -> & He)];
    [|discriminate].
  simpl. intros Hs.
  destruct (required_fields_total m p w) as ([] & w1 & E1 & _).
  rewrite (bind_run _ _ _ _ _ E1).
  destruct (m !! "name") as [[s|[|x l]]|] eqn:En.
  - destruct (total_when (grows name_rules) (grows_refl _) (Py.nonempty s)
                (validate_name (Scalar s) p) (validate_name_total s p) w1)
      as ([] & w2 & E2 & _).
    simpl fm_truthy. rewrite (bind_run _ _ _ _ _ E2).
    destruct (m !! "description") as [[s'|[|x l]]|]; try discriminate.
    reflexivity.
  - simpl fm_truthy. unfold when at 1. unfold bind at 1. simpl.
    destruct (m !! "description") as [[s'|[|x l]]|]; try discriminate.
    reflexivity.
  - reflexivity.
  - unfold bind at 1. simpl.
    destruct (m !! "description") as [[s'|[|x l]]|]; try discriminate.
    reflexivity.
Qed.

Lemma validate_skill_md_safe fs p w content :
  read_text fs p = inl content -> safe_doc content = true ->
  exists w', validate_skill_md fs p w = Ok tt w'.
Proof.
  intros Hr Hs. unfold validate_skill_md, bind, do_read. rewrite Hr.
  set (w1 := {| report := report w; reads := reads w ++ [p] |}).
  assert (Hbody : total (grows skill_md_rules)
            (when (MAX_SKILL_LINES <? line_count content)%nat
               (warning "skill-too-large"
                  [Lit "SKILL.md is "; Num (line_count content);
                   Lit " lines (max "; Num MAX_SKILL_LINES; Lit ")"]
                  (Some (SkillMd p)) None) ;;
             check_frontmatter content p)).
  { apply total_bind; [apply grows_trans | total_auto |intros _].
    now apply check_frontmatter_total. }
  destruct (Hbody w1) as ([] & w' & E & _). exists w'. exact E.
Qed.

(** X7: [validate_skill_md] ends in an exception exactly on a readable
    document whose frontmatter gives [name] or [description] as a
    non-empty list ([NAME_PATTERN.match] and [desc.lower()] do not take a
    list); on every other document, and on an unreadable one, it
    returns. *)
Theorem X7_list_valued_fields_raise fs p w content :
  read_text fs p = inl content ->
  (safe_doc content = false <-> validate_skill_md fs p w = Raised)
  /\ (safe_doc content = true <-> exists w', validate_skill_md fs p w = Ok tt w').
Proof.
  intros Hr.
  assert (Hunsafe : safe_doc content = false -> validate_skill_md fs p w = Raised).
  { intros Hs. unfold validate_skill_md, bind, do_read. rewrite Hr.
    destruct (when _ _ _) as [[] w2|]; [|reflexivity].
    now apply check_frontmatter_unsafe. }
  split; split.
  - exact Hunsafe.
  - intros H. destruct (safe_doc content) eqn:Hs; [|reflexivity].
    destruct (validate_skill_md_safe fs p w content Hr Hs) as (w' & E). congruence.
  - now apply validate_skill_md_safe.
  - intros (w' & E). destruct (safe_doc content) eqn:Hs; [reflexivity|].
    rewrite (Hunsafe eq_refl) in E. discriminate.
Qed.

(** ** Description conventions *)

Lemma lower_app a b : Py.lower (a +:+ b) = Py.lower a +:+ Py.lower b.
Proof.
  induction a as [|c a IH]; [reflexivity|].
  rewrite append_cons. simpl. rewrite append_cons. now rewrite IH.
Qed.

Lemma startswith_app u s : Py.startswith u (u +:+ s) = true.
Proof.
  induction u as [|c u IH]; [reflexivity|]. rewrite append_cons. simpl.
  destruct (decide (c = c)); [exact IH | contradiction].
Qed.

Lemma contains_startswith u s : Py.startswith u s = true -> Py.contains u s = true.
Proof. intros H. destruct s; simpl; rewrite H; reflexivity. Qed.

Lemma contains_cons u c s : Py.contains u s = true -> Py.contains u (String c s) = true.
Proof. intros H. simpl. rewrite H. apply orb_true_r. Qed.

Lemma contains_app u a b : Py.contains u (a +:+ u +:+ b) = true.
Proof.
  induction a as [|c a IH].
  - rewrite append_nil_l. apply contains_startswith, startswith_app.
  - rewrite append_cons. now apply contains_cons.
Qed.

Lemma contains_lstrip p u s :
  (forall c rest, u = String c rest -> p c = false) -> u <> "" ->
  Py.contains u s = true -> Py.contains u (Py.lstrip_with p s) = true.
Proof.
  intros Hhead Hne. induction s as [|c s IH]; intros H; [exact H|].
  simpl. destruct (p c) eqn:Ep; [|exact H].
  apply IH. simpl in H. apply orb_true_iff in H as [H|H]; [|exact H].
  destruct u as [|a u]; [contradiction|]. simpl in H.
  destruct (decide (a = c)) as [->|]; [|discriminate].
  rewrite (Hhead c u eq_refl) in Ep. discriminate.
Qed.

Lemma rstrip_nonempty p u s :
  last_not p u = true -> Py.startswith u s = true -> Py.rstrip_with p s <> "".
Proof.
  revert s. induction u as [|a u IH]; intros s Hl H; [discriminate|].
  destruct s as [|b s]; [discriminate|]. simpl in H.
  destruct (decide (a = b)) as [<-|]; [|discriminate].
  simpl. destruct u as [|a' u].
  - simpl in Hl. apply negb_true_iff in Hl.
    destruct (Py.rstrip_with p s); [rewrite Hl|]; discriminate.
  - specialize (IH s Hl H). destruct (Py.rstrip_with p s); [contradiction|].
    discriminate.
Qed.

Lemma startswith_rstrip p u s :
  last_not p u = true -> Py.startswith u s = true ->
  Py.startswith u (Py.rstrip_with p s) = true.
Proof.
  revert s. induction u as [|a u IH]; intros s Hl H; [discriminate|].
  destruct s as [|b s]; [discriminate|]. simpl in H.
  destruct (decide (a = b)) as [<-|]; [|discriminate].
  destruct u as [|a' u].
  - simpl in Hl. apply negb_true_iff in Hl. simpl.
    destruct (Py.rstrip_with p s); [rewrite Hl|]; simpl;
      destruct (decide (a = a)); try reflexivity; contradiction.
  - pose proof (IH s Hl H) as Hs.
    pose proof (rstrip_nonempty p (String a' u) s Hl H) as Hne.
    simpl. destruct (Py.rstrip_with p s) as [|c r]; [contradiction|].
    cbn [Py.startswith]. destruct (decide (a = a)); [exact Hs | contradiction].
Qed.

Lemma contains_rstrip p u s :
  last_not p u = true ->
  Py.contains u s = true -> Py.contains u (Py.rstrip_with p s) = true.
Proof.
  intros Hl. induction s as [|c s IH]; intros H.
  - simpl in H. rewrite orb_false_r in H. destruct u; discriminate.
  - simpl in H. apply orb_true_iff in H as [H|H].
    + apply contains_startswith. now apply startswith_rstrip.
    + specialize (IH H). simpl. destruct (Py.rstrip_with p s) as [|c' r].
      * simpl in IH. rewrite orb_false_r in IH. destruct u; discriminate.
      * now apply contains_cons.
Qed.

(** The entries one call of [validate_description] appends. *)
Lemma validate_description_entries desc p w :
  exists w',
    validate_description (Scalar desc) p w = Ok tt w'
    /\ errors (report w') =
       errors (report w)
       ++ (if (MAX_DESCRIPTION_LENGTH <? Py.len desc)%nat
           then [description_too_long desc p] else [])
    /\ warnings (report w') =
       warnings (report w)
       ++ (if existsb (fun s => Py.startswith s (Py.strip (Py.lower desc)))
                FIRST_PERSON_STARTS
           then [first_person_description p] else [])
       ++ (if Py.contains "use when" (Py.strip (Py.lower desc)) then []
           else [missing_use_when p]).
Proof.
  unfold validate_description, bind, when.
  destruct (MAX_DESCRIPTION_LENGTH <? Py.len desc)%nat;
    destruct (existsb _ FIRST_PERSON_STARTS);
    destruct (Py.contains "use when" (Py.strip (Py.lower desc)));
    (eexists; split; [reflexivity|]); simpl;
    rewrite <- ?List.app_assoc, ?List.app_nil_r; split; reflexivity.
Qed.

(** X8: a description that contains "use when" in any letter case, with
    anything around it, is validated without a missing-use-when warning
    being added; if it has at most 1024 characters, no error is added
    either. *)
Theorem X8_use_when_accepted (before u after p : string) (w : world) :
  Py.lower u = "use when" ->
  exists w',
    validate_description (Scalar (before +:+ u +:+ after)) p w = Ok tt w'
    /\ with_rule "missing-use-when" (warnings (report w'))
       = with_rule "missing-use-when" (warnings (report w))
    /\ (Py.len (before +:+ u +:+ after) <= MAX_DESCRIPTION_LENGTH ->
        errors (report w') = errors (report w)).
Proof.
  intros Hu.
  destruct (validate_description_entries (before +:+ u +:+ after) p w)
    as (w' & E & He & Hw).
  exists w'. split; [exact E|].
  assert (Hc : Py.contains "use when"
                 (Py.strip (Py.lower (before +:+ u +:+ after))) = true).
  { rewrite !lower_app, Hu. unfold Py.strip.
    apply contains_rstrip; [reflexivity|].
    apply contains_lstrip; [| discriminate | apply contains_app].
    intros c rest Heq. injection Heq as <- _. reflexivity. }
  rewrite Hc in Hw. split.
  - rewrite Hw, List.app_nil_r, with_rule_app.
    destruct (existsb _ FIRST_PERSON_STARTS); simpl; now rewrite List.app_nil_r.
  - intros Hlen. rewrite He.
    destruct (MAX_DESCRIPTION_LENGTH <? Py.len (before +:+ u +:+ after))%nat eqn:El.
    + apply Nat.ltb_lt in El. lia.
    + now rewrite app_nil_r.
Qed.

(** ** The counters agree with the entries *)

Lemma steady_refl w : steady w w.
Proof. repeat split. Qed.

Lemma steady_trans a b c : steady a b -> steady b c -> steady a c.
Proof.
  intros (A1 & A2 & A3 & A4 & A5 & A6) (B1 & B2 & B3 & B4 & B5 & B6).
  repeat split; congruence.
Qed.

Lemma agreement_kept_refl w : agreement_kept w w.
Proof. intros H. exact H. Qed.

Lemma agreement_kept_trans a b c :
  agreement_kept a b -> agreement_kept b c -> agreement_kept a c.
Proof. intros H1 H2 H. auto. Qed.

Lemma steady_agreement w w' : steady w w' -> agreement_kept w w'.
Proof.
  intros (A1 & A2 & A3 & A4 & A5 & A6) (I1 & I2 & I3).
  unfold counters_agree. rewrite A1, A2, A3, A4, A5, A6. auto.
Qed.

Lemma keeps_steady_agreement {A} (m : M A) :
  keeps steady m -> keeps agreement_kept m.
Proof. intros H w a w' E. apply steady_agreement. eapply H, E. Qed.

Lemma error_steady rl m p f :
  rl <> "missing-skill" -> keeps steady (error rl m p f).
Proof.
  intros Hne w a w' H. injection H as _ <-. unfold steady. simpl.
  rewrite with_rule_app. unfold with_rule at 2. simpl.
  rewrite bool_decide_eq_false_2 by exact Hne. rewrite app_nil_r.
  repeat split.
Qed.

Lemma warning_steady rl m p f :
  rl <> "orphan-skill" -> keeps steady (warning rl m p f).
Proof.
  intros Hne w a w' H. injection H as _ <-. unfold steady. simpl.
  rewrite with_rule_app. unfold with_rule at 2. simpl.
  rewrite bool_decide_eq_false_2 by exact Hne. rewrite app_nil_r.
  repeat split.
Qed.

Lemma count_plugins_steady : keeps steady (count incr_plugins_checked).
Proof. intros w a w' H. injection H as _ <-. repeat split. Qed.

Create HintDb steady_db.

Ltac steady_step :=
  lazymatch goal with
  | |- keeps _ (ret _) => apply keeps_ret; apply steady_refl
  | |- keeps _ raise => apply keeps_raise
  | |- keeps _ get_report => apply keeps_get_report; apply steady_refl
  | |- keeps _ (error _ _ _ _) => apply error_steady; discriminate
  | |- keeps _ (warning _ _ _ _) => apply warning_steady; discriminate
  | |- keeps _ (count incr_plugins_checked) => apply count_plugins_steady
  | |- keeps _ (when _ _) => apply keeps_when; [apply steady_refl|]
  | |- keeps _ (for_each _ _) =>
      apply keeps_for_each; [apply steady_refl | apply steady_trans | intros ?]
  | |- keeps _ (fold_each _ _ _) =>
      apply keeps_fold_each; [apply steady_refl | apply steady_trans | intros ? ?]
  | |- keeps _ (bind _ _) => apply keeps_bind; [apply steady_trans | | intros ?]
  | |- keeps _ (match ?x with _ => _ end) => destruct x
  | |- keeps _ _ => solve [eauto 2 with steady_db nocore]
  end.

Ltac steady_auto := repeat steady_step.

Lemma validate_name_steady name p : keeps steady (validate_name name p).
Proof. unfold validate_name. steady_auto. Qed.

Lemma validate_description_steady desc p : keeps steady (validate_description desc p).
Proof. unfold validate_description. steady_auto. Qed.
#[local] Hint Resolve validate_name_steady validate_description_steady : steady_db.

Lemma check_frontmatter_steady content p : keeps steady (check_frontmatter content p).
Proof.
  unfold check_frontmatter. destruct (parse_frontmatter content) as [m err].
  steady_auto.
Qed.

Lemma check_name_steady seen ip : keeps steady (check_name seen ip).
Proof. unfold check_name. steady_auto. Qed.
#[local] Hint Resolve check_frontmatter_steady check_name_steady : steady_db.

Lemma check_unique_plugin_names_steady plugins :
  keeps steady (check_unique_plugin_names plugins).
Proof. unfold check_unique_plugin_names. steady_auto. Qed.

Lemma validate_marketplace_structure_steady data :
  keeps steady (validate_marketplace_structure data).
Proof. unfold validate_marketplace_structure. steady_auto. Qed.

(** A document validated: read once, nothing else counted. *)
Lemma validate_skill_md_effect fs p w w' :
  validate_skill_md fs p w = Ok tt w' ->
  steady {| report := report w; reads := reads w ++ [p] |} w'.
Proof.
  unfold validate_skill_md. unfold bind at 1. unfold do_read.
  assert (Hk : forall r : string + string,
             keeps steady
               (match r with
                | inl content =>
                    when (MAX_SKILL_LINES <? line_count content)%nat
                      (warning "skill-too-large"
                         [Lit "SKILL.md is "; Num (line_count content);
                          Lit " lines (max "; Num MAX_SKILL_LINES; Lit ")"]
                         (Some (SkillMd p)) None) ;;
                    check_frontmatter content p
                | inr e =>
                    error "read-error"
                      [Lit "Cannot read "; PathOf (SkillMd p); Lit ": "; Str e]
                      (Some (SkillMd p)) None
                end)).
  { intros r. steady_auto. }
  intros H. eapply Hk, H.
Qed.

Lemma validate_skill_agreement fs pn paths sp :
  keeps agreement_kept (validate_skill fs pn paths sp).
Proof.
  intros w paths' w' H (I1 & I2 & I3). unfold validate_skill in H.
  rewrite count_bind in H. destruct sp as [| | |sp| |]; try discriminate.
  destruct (is_file fs (normalize sp)) eqn:Ef; simpl in H.
  - unfold bind in H.
    match type of H with
    | match ?m ?w0 with _ => _ end = _ => destruct (m w0) as [[] w1|] eqn:E1
    end; [|discriminate].
    assert (S1 : steady {| report := with_stats incr_skills_checked (report w);
                           reads := reads w |} w1).
    { revert E1. destruct (paths !! normalize sp).
      - apply error_steady. discriminate.
      - apply keeps_ret. apply steady_refl. }
    destruct (validate_skill_md fs (normalize sp) w1) as [[] w2|] eqn:E2;
      [|discriminate].
    injection H as _ <-.
    apply validate_skill_md_effect in E2.
    destruct S1 as (A1 & A2 & A3 & A4 & A5 & A6).
    destruct E2 as (B1 & B2 & B3 & B4 & B5 & B6). simpl in *.
    unfold counters_agree.
    rewrite B1, B2, B3, B4, B5, B6, A1, A2, A3, A4, A5, A6, List.length_app.
    simpl. repeat split; try assumption. lia.
  - unfold bind in H. simpl in H. injection H as _ <-.
    unfold counters_agree. simpl. rewrite with_rule_app, List.length_app.
    simpl. repeat split; try assumption; lia.
Qed.

Lemma validate_plugin_agreement fs plugin idx paths :
  keeps agreement_kept (validate_plugin fs plugin idx paths).
Proof.
  unfold validate_plugin.
  apply keeps_bind; [apply agreement_kept_trans | |intros _].
  { apply keeps_steady_agreement, count_plugins_steady. }
  destruct plugin as [| | | | |d]; try apply keeps_raise.
  apply keeps_bind; [apply agreement_kept_trans | |intros _].
  { apply keeps_steady_agreement. steady_auto. }
  apply keeps_bind; [apply agreement_kept_trans | |intros _].
  { apply keeps_steady_agreement. steady_auto. }
  destruct (default (JArr []) (dict_get "skills" d));
    try (apply keeps_steady_agreement; steady_auto; fail).
  apply keeps_fold_each;
    [apply agreement_kept_refl | apply agreement_kept_trans |].
  intros s x. apply validate_skill_agreement.
Qed.

Lemma validate_plugins_agreement fs plugins :
  forall idx paths, keeps agreement_kept (validate_plugins fs plugins idx paths).
Proof.
  induction plugins as [|p ps IH]; intros idx paths; simpl.
  - apply keeps_ret, agreement_kept_refl.
  - apply keeps_bind; [apply agreement_kept_trans | |intros paths'].
    + apply validate_plugin_agreement.
    + apply IH.
Qed.

Lemma find_orphan_skills_agreement fs registered :
  keeps agreement_kept (find_orphan_skills fs registered).
Proof.
  unfold find_orphan_skills.
  destruct (negb (skills_is_dir fs)); [apply keeps_ret, agreement_kept_refl|].
  apply keeps_fold_each; [apply agreement_kept_refl | apply agreement_kept_trans |].
  intros orphans n. destruct (registered !! n).
  - apply keeps_ret, agreement_kept_refl.
  - intros w a w' H (I1 & I2 & I3). injection H as _ <-.
    unfold counters_agree. simpl. rewrite with_rule_app, List.length_app.
    simpl. repeat split; try assumption; lia.
Qed.

Lemma verify_agreement fs src fix_mode : keeps agreement_kept (verify fs src fix_mode).
Proof.
  unfold verify. destruct src as [|e| |data].
  - apply keeps_steady_agreement. steady_auto.
  - apply keeps_steady_agreement. steady_auto.
  - apply keeps_raise.
  - apply keeps_bind; [apply agreement_kept_trans | |intros _].
    { apply keeps_steady_agreement, validate_marketplace_structure_steady. }
    destruct data as [| | | | |d]; try apply keeps_raise.
    destruct (default (JArr []) (dict_get "plugins" d));
      try (apply keeps_ret, agreement_kept_refl).
    apply keeps_bind; [apply agreement_kept_trans | |intros _].
    { apply keeps_steady_agreement, check_unique_plugin_names_steady. }
    apply keeps_bind; [apply agreement_kept_trans | |intros paths].
    { apply validate_plugins_agreement. }
    apply keeps_bind; [apply agreement_kept_trans | |intros _].
    { apply find_orphan_skills_agreement. }
    apply keeps_bind; [apply agreement_kept_trans | |intros r].
    { apply keeps_get_report, agreement_kept_refl. }
    destruct (fix_mode && negb (passed r));
      [|apply keeps_ret, agreement_kept_refl].
    destruct (apply_fixes fs (JObj d));
      [apply keeps_ret, agreement_kept_refl | apply keeps_raise].
Qed.

(** X9: in the report of every run that returns, the counters agree with
    what happened: the skills checked are those counted missing plus
    those whose document was read, the skills counted missing are as many
    as the missing-skill errors, and the orphans counted are as many as
    the orphan-skill warnings. *)
Theorem X9_counters_agree fs src fix_mode evs w :
  verify fs src fix_mode world_init = Ok evs w -> counters_agree w.
Proof.
  intros H. eapply verify_agreement; [exact H|]. repeat split.
Qed.

(** ** Duplicates are reported exactly when there are some *)

Lemma latest_None_keys {K V : Type} `{EqDecision K} (history : list (K * V)) (k : K) :
  latest history k = None <-> k ∉ map fst history.
Proof.
  induction history as [|[k' v] history IH] using rev_ind.
  - split; [intros _; apply not_elem_of_nil | reflexivity].
  - rewrite latest_snoc, List.map_app. simpl. rewrite not_elem_of_app.
    destruct (decide (k' = k)) as [->|Hne].
    + split; [discriminate|]. intros [_ H]. exfalso. apply H. now left.
    + rewrite IH. split.
      * intros H. split; [exact H|]. intros Hin.
        apply list_elem_of_singleton in Hin. congruence.
      * intros [H _]. exact H.
Qed.

Lemma app_eq_nil_iff {A} (l1 l2 : list A) : l1 ++ l2 = [] <-> l1 = [] /\ l2 = [].
Proof.
  split; [apply List.app_eq_nil | intros [-> ->]; reflexivity].
Qed.

Lemma dup_name_errors_nil (rest : list json) :
  forall history i,
    dup_name_errors history i rest = []
    <-> NoDup (omap plugin_key rest)
        /\ forall k, k ∈ omap plugin_key rest -> k ∉ map fst history.
Proof.
  induction rest as [|p rest IH]; intros history i; simpl.
  - split; [intros _; split; [constructor | intros k Hk; inversion Hk] | reflexivity].
  - destruct (plugin_key p) as [k|]; [|apply IH].
    rewrite app_eq_nil_iff, IH, NoDup_cons, List.map_app. simpl.
    assert (Hl : match latest history k with
                 | Some j => [dup_name_entry (plugin_name_val p) j i]
                 | None => []
                 end = [] <-> k ∉ map fst history).
    { rewrite <- latest_None_keys. destruct (latest history k); split;
        intros; try reflexivity; discriminate. }
    rewrite Hl. split.
    + intros (Hk & Hnd & Hall). split; [split; [|exact Hnd]|].
      * intros Hin. specialize (Hall k Hin). apply Hall.
        apply elem_of_app. right. now left.
      * intros k' Hk'. apply elem_of_cons in Hk' as [->|Hk']; [exact Hk|].
        specialize (Hall k' Hk'). rewrite not_elem_of_app in Hall. apply Hall.
    + intros ((Hnin & Hnd) & Hall). split; [|split; [exact Hnd|]].
      * apply Hall. now left.
      * intros k' Hk'. rewrite not_elem_of_app. split.
        -- apply Hall. now right.
        -- intros Hin. apply list_elem_of_singleton in Hin. subst k'. contradiction.
Qed.

Lemma app_self_nil {A} (l es : list A) : l ++ es = l <-> es = [].
Proof.
  split; [|intros ->; apply app_nil_r].
  intros H. apply (f_equal (@List.length A)) in H. rewrite List.length_app in H.
  destruct es; [reflexivity | simpl in H; lia].
Qed.

(** X10: on plugin entries that are objects with hashable names, the
    uniqueness check adds no error exactly when the names that are
    looked up (the non-empty ones) are pairwise distinct. *)
Theorem X10_names_unique_iff_no_error (plugins : list json) (w : world) :
  forallb is_plain_plugin plugins = true ->
  exists w',
    check_unique_plugin_names plugins w = Ok tt w'
    /\ (errors (report w') = errors (report w)
        <-> NoDup (omap plugin_key plugins)).
Proof.
  intros Hplain.
  destruct (check_unique_plugin_names_run plugins w Hplain) as (w' & E & He & _).
  exists w'. split; [exact E|].
  rewrite He, app_self_nil, dup_name_errors_nil. split.
  - intros [H _]. exact H.
  - intros H. split; [exact H|]. intros k _. apply not_elem_of_nil.
Qed.

Lemma dup_path_errors_nil (claims : list (string * json)) :
  forall history,
    dup_path_errors history claims = []
    <-> NoDup (map (fun c => normalize c.1) claims)
        /\ forall n, n ∈ map (fun c => normalize c.1) claims -> n ∉ map fst history.
Proof.
  induction claims as [|c claims IH]; intros history; simpl.
  - split; [intros _; split; [constructor | intros k Hk; inversion Hk] | reflexivity].
  - rewrite app_eq_nil_iff, IH, NoDup_cons, List.map_app. simpl.
    assert (Hl : match latest history (normalize c.1) with
                 | Some owner => [dup_path_entry c.1 owner c.2]
                 | None => []
                 end = [] <-> normalize c.1 ∉ map fst history).
    { rewrite <- latest_None_keys. destruct (latest history (normalize c.1)); split;
        intros; try reflexivity; discriminate. }
    rewrite Hl. split.
    + intros (Hk & Hnd & Hall). split; [split; [|exact Hnd]|].
      * intros Hin. specialize (Hall _ Hin). apply Hall.
        apply elem_of_app. right. now left.
      * intros k' Hk'. apply elem_of_cons in Hk' as [->|Hk']; [exact Hk|].
        specialize (Hall k' Hk'). rewrite not_elem_of_app in Hall. apply Hall.
    + intros ((Hnin & Hnd) & Hall). split; [|split; [exact Hnd|]].
      * apply Hall. now left.
      * intros k' Hk'. rewrite not_elem_of_app. split.
        -- apply Hall. now right.
        -- intros Hin. apply list_elem_of_singleton in Hin. subst k'. contradiction.
Qed.

(** X11: on well-formed plugins the plugin loop adds no duplicate-path
    error exactly when the references that resolve to a document have
    pairwise distinct normalized paths, within one plugin and across
    plugins. *)
Theorem X11_paths_unique_iff_no_error fs (plugins : list json) (w : world) :
  safe_fs fs ->
  forallb is_wf_plugin plugins = true ->
  exists paths' w',
    validate_plugins fs plugins 0 ∅ w = Ok paths' w'
    /\ (with_rule "duplicate-path" (errors (report w'))
        = with_rule "duplicate-path" (errors (report w))
        <-> NoDup (map (fun c => normalize c.1) (claims_from fs 0 plugins))).
Proof.
  intros Hsafe Hwf.
  destruct (validate_plugins_run fs plugins 0 [] ∅ w Hsafe) as (paths & w' & E & T).
  - intros n. rewrite lookup_empty. reflexivity.
  - exact Hwf.
  - exists paths, w'. split; [exact E|]. destruct T as (_ & D & _).
    rewrite D, app_self_nil, dup_path_errors_nil. split.
    + intros [H _]. exact H.
    + intros H. split; [exact H|]. intros k _. apply not_elem_of_nil.
Qed.

(** ** What fix mode leaves *)

Lemma dict_get_set_ne k k' v d : k' <> k -> dict_get k' (dict_set k v d) = dict_get k' d.
Proof.
  intros Hne. induction d as [|[k0 v0] d IH]; simpl.
  - destruct (decide (k' = k)); [contradiction | reflexivity].
  - destruct (decide (k = k0)) as [->|Hk]; simpl.
    + destruct (decide (k' = k0)); [contradiction | reflexivity].
    + destruct (decide (k' = k0)); [reflexivity | exact IH].
Qed.

Lemma fix_skills_filter fs pn (skills : list json) :
  forall valid ev,
    fix_skills fs pn skills = Some (valid, ev) ->
    valid = List.filter (resolves fs) skills
    /\ (ev = [] <-> forallb (resolves fs) skills = true)
    /\ forallb (fun e => negb (is_written e)) ev = true.
Proof.
  induction skills as [|s skills IH]; intros valid ev H.
  - simpl in H. injection H as <- <-. repeat split.
  - destruct s as [| | |sp| |]; try discriminate. simpl in H.
    destruct (fix_skills fs pn skills) as [[v0 e0]|]; [|discriminate].
    destruct (IH v0 e0 eq_refl) as (Hv & Hev & Hw). simpl in H |- *.
    destruct (is_file fs (normalize sp)); injection H as <- <-.
    + split; [now rewrite Hv|]. split; [exact Hev | exact Hw].
    + split; [exact Hv|]. split; [split; discriminate | exact Hw].
Qed.

Lemma fix_plugin_pruned fs p p' ev :
  fix_plugin fs p = Some (p', ev) ->
  p' = pruned fs p
  /\ (ev = [] <-> forallb (resolves fs) (skills_of p) = true)
  /\ forallb (fun e => negb (is_written e)) ev = true.
Proof.
  destruct p as [| | | | |d]; try discriminate. unfold fix_plugin, pruned, skills_of.
  destruct (py_iter (default (JArr []) (dict_get "skills" d))) as [skills|];
    [|discriminate].
  simpl. destruct (fix_skills fs _ skills) as [[valid e]|] eqn:E; [|discriminate].
  simpl. intros H. injection H as <- <-.
  destruct (fix_skills_filter fs _ skills valid e E) as (-> & He & Hw).
  auto.
Qed.

Lemma fix_plugins_pruned fs (plugins : list json) :
  forall ps ev,
    fix_plugins fs plugins = Some (ps, ev) ->
    ps = map (pruned fs) plugins
    /\ (ev = [] <-> Forall (fun p => forallb (resolves fs) (skills_of p) = true) plugins)
    /\ forallb (fun e => negb (is_written e)) ev = true.
Proof.
  induction plugins as [|p plugins IH]; intros ps ev H.
  - simpl in H. injection H as <- <-. repeat split. constructor.
  - simpl in H. destruct (fix_plugin fs p) as [[p' e1]|] eqn:E1; [|discriminate].
    simpl in H. destruct (fix_plugins fs plugins) as [[ps' e2]|] eqn:E2;
      [|discriminate].
    simpl in H. injection H as <- <-.
    destruct (fix_plugin_pruned fs p p' e1 E1) as (-> & He1 & Hw1).
    destruct (IH ps' e2 eq_refl) as (-> & He2 & Hw2).
    split; [reflexivity|]. split.
    + rewrite app_eq_nil_iff, He1, He2, Forall_cons. reflexivity.
    + rewrite forallb_app, Hw1, Hw2. reflexivity.
Qed.

Lemma filter_length_all {A} (f : A -> bool) (l : list A) :
  (List.length (List.filter f l) <? List.length l)%nat = false
  <-> Forall (fun x => f x = true) l.
Proof.
  rewrite Nat.ltb_ge. induction l as [|x l IH]; simpl.
  - split; [constructor | lia].
  - pose proof (List.filter_length_le f l) as Hle. rewrite Forall_cons.
    destruct (f x); simpl.
    + rewrite <- IH. split; [intros H; split; [reflexivity | lia] | intros [_ H]; lia].
    + split; [intros H; lia | intros [H _]; discriminate].
Qed.

Lemma has_skills_pruned fs p :
  forallb (resolves fs) (skills_of p) = true ->
  (exists d, p = JObj d) ->
  has_skills (pruned fs p) = true <-> skills_of p <> [].
Proof.
  intros Hall (d & ->). unfold pruned, has_skills.
  rewrite dict_get_set_eq.
  set (l := skills_of (JObj d)) in *. clearbody l.
  assert (Hf : List.filter (resolves fs) l = l).
  { induction l as [|x l IH]; [reflexivity|]. simpl in Hall |- *.
    apply andb_true_iff in Hall as [Hx Hl]. rewrite Hx. now rewrite IH. }
  rewrite Hf. destruct l; simpl; split; intros;
    first [reflexivity | discriminate | congruence].
Qed.

Lemma fix_plugins_objects fs (plugins : list json) r :
  fix_plugins fs plugins = Some r -> Forall (fun p => exists d, p = JObj d) plugins.
Proof.
  revert r. induction plugins as [|p plugins IH]; intros r H; [constructor|].
  simpl in H. destruct (fix_plugin fs p) as [r1|] eqn:E1; [|discriminate].
  simpl in H. destruct (fix_plugins fs plugins) as [r2|] eqn:E2; [|discriminate].
  constructor; [|eapply IH; reflexivity].
  destruct p; try discriminate. eauto.
Qed.

(** X12: when [apply_fixes] returns on a manifest whose plugins are a
    list, the manifest it leaves is the original with every plugin's
    skills replaced by its references that resolve, the plugins left
    without skills dropped, and everything else kept; it reports no
    change exactly when every reference of every plugin resolves and no
    plugin is without skills, and then prints nothing; otherwise what it
    prints ends with the one write, of that manifest. *)
Theorem X12_apply_fixes_result fs (d : list (string * json)) (plugins : list json) f :
  dict_get "plugins" d = Some (JArr plugins) ->
  apply_fixes fs (JObj d) = Some f ->
  fix_data f
  = JObj (dict_set "plugins"
            (JArr (List.filter has_skills (map (pruned fs) plugins))) d)
  /\ (fixed f = false
      <-> Forall (fun p => forallb (resolves fs) (skills_of p) = true
                           /\ skills_of p <> []) plugins)
  /\ (fixed f = false -> fix_events f = [])
  /\ (fixed f = true ->
      exists ev, fix_events f = ev ++ [Written (fix_data f)]
                 /\ forallb (fun e => negb (is_written e)) ev = true)
  /\ (forall k, k <> "plugins" ->
        match fix_data f with
        | JObj d' => dict_get k d' = dict_get k d
        | _ => False
        end)
  /\ (forall d0 k, k <> "skills" ->
        match pruned fs (JObj d0) with
        | JObj d1 => dict_get k d1 = dict_get k d0
        | _ => False
        end).
Proof.
  intros Hpl H. unfold apply_fixes in H. rewrite Hpl in H. simpl in H.
  destruct (fix_plugins fs plugins) as [[ps ev]|] eqn:Er; [|discriminate].
  simpl in H. injection H as <-. cbn [fix_data fixed fix_events fst snd].
  destruct (fix_plugins_pruned fs plugins ps ev Er) as (-> & Hev & Hw).
  pose proof (fix_plugins_objects fs plugins _ Er) as Hobj.
  assert (Hmaplen : List.length (map (pruned fs) plugins) = List.length plugins)
    by apply List.length_map.
  assert (Hsame : (ev = [] /\ Forall (fun x => has_skills x = true)
                                 (map (pruned fs) plugins))
                  <-> Forall (fun p => forallb (resolves fs) (skills_of p) = true
                                       /\ skills_of p <> []) plugins).
  { rewrite Hev. clear -Hobj. induction plugins as [|p plugins IH]; simpl.
    - split; [constructor | split; constructor].
    - apply Forall_cons in Hobj as [Hp Hobj]. specialize (IH Hobj).
      rewrite !Forall_cons. split.
      + intros [[Hr Hall] [Hs Hrest]]. split.
        * split; [exact Hr|]. now apply (has_skills_pruned fs p Hr Hp).
        * apply IH. split; assumption.
      + intros [[Hr Hne] Hrest]. apply IH in Hrest as [Hall Hhas].
        split; split; try assumption. now apply (has_skills_pruned fs p Hr Hp). }
  split; [reflexivity|]. split; [|split; [|split; [|split]]].
  - rewrite <- Hsame, <- filter_length_all, Hmaplen.
    destruct ev; [|split; [discriminate | intros [? _]; discriminate]].
    split; [intros ->; auto | intros [_ ->]; reflexivity].
  - destruct ev; [|discriminate]. intros ->. reflexivity.
  - intros Hfx. rewrite Hfx. eexists. split; [reflexivity|].
    rewrite forallb_app, Hw.
    destruct (_ <? _)%nat; reflexivity.
  - intros k Hk. apply dict_get_set_ne, Hk.
  - intros d0 k Hk. simpl. apply dict_get_set_ne, Hk.
Qed.

(** ** Orphan scan *)

(** X13: the orphan scan always returns; with no skills directory it
    does nothing, and otherwise it returns, in the order found, the
    directories found that are not keys of the ownership map, adds one
    orphan-skill warning and one to the orphan counter for each, and adds
    no error, so that it never turns a passing report into a failing
    one. *)
Theorem X13_orphan_scan fs (registered : gmap string json) (w : world) :
  let orphans :=
    if skills_is_dir fs
    then filter (fun n => registered !! n = None) (rglob_skill_md fs)
    else [] in
  exists w',
    find_orphan_skills fs registered w = Ok orphans w'
    /\ errors (report w') = errors (report w)
    /\ passed (report w') = passed (report w)
    /\ warnings (report w') = warnings (report w) ++ map orphan_entry orphans
    /\ orphans_found (stats (report w'))
       = orphans_found (stats (report w)) + List.length orphans
    /\ reads w' = reads w.
Proof.
  unfold find_orphan_skills. destruct (skills_is_dir fs); simpl.
  - destruct (orphan_loop_run registered (rglob_skill_md fs) [] w)
      as (w' & E & He & Hw & Ho & _ & Hr).
    exists w'. simpl in E. unfold passed. rewrite He. repeat split; assumption.
  - exists w. simpl. rewrite app_nil_r, Nat.add_0_r. repeat split; reflexivity.
Qed.

(** ** Frontmatter: which documents parse, and what is looked at *)

Lemma until_delimiter_None (ls : list string) :
  until_delimiter ls = None <-> Forall (fun l => ~ is_delimiter l) ls.
Proof.
  unfold is_delimiter. induction ls as [|l ls IH]; simpl.
  - split; [constructor | reflexivity].
  - rewrite Forall_cons. destruct (decide (Py.strip l = "---")) as [Hd|Hd].
    + split; [discriminate | intros [H _]; contradiction].
    + destruct (until_delimiter ls).
      * split; [discriminate|]. intros [_ H]. apply IH in H. discriminate.
      * split; [intros _; split; [exact Hd | now apply IH] | reflexivity].
Qed.

Lemma split_cons (sep : ascii) (s : string) :
  exists first rest, Py.split sep s = first :: rest.
Proof.
  induction s as [|c s (f & r & IH)]; simpl; [eauto|].
  destruct (decide (c = sep)); [eauto|]. rewrite IH. eauto.
Qed.

(** X14: with [first] the first line of a document and [rest] the other
    lines, the parser returns a mapping exactly when [first] is a
    delimiter (spaces around it aside) and so is some line of [rest];
    it reports the missing opening delimiter exactly when [first] is not
    one, and the unclosed frontmatter exactly when [first] is one and no
    line of [rest] is. *)
Theorem X14_parse_outcomes (content : string) :
  exists first rest,
    Py.split Py.NL content = first :: rest
    /\ ((exists m, parse_frontmatter content = (Some m, None))
        <-> is_delimiter first /\ ~ Forall (fun l => ~ is_delimiter l) rest)
    /\ (parse_frontmatter content = (None, Some NO_OPENING)
        <-> ~ is_delimiter first)
    /\ (parse_frontmatter content = (None, Some UNCLOSED)
        <-> is_delimiter first /\ Forall (fun l => ~ is_delimiter l) rest).
Proof.
  destruct (split_cons Py.NL content) as (first & rest & Hs).
  exists first, rest. split; [exact Hs|].
  unfold parse_frontmatter, is_delimiter. rewrite Hs.
  rewrite <- until_delimiter_None.
  destruct (decide (Py.strip first = "---")) as [Hd|Hd].
  - destruct (until_delimiter rest) as [body|].
    + split; [|split].
      * split; [intros _; split; [exact Hd | discriminate] | intros _; eauto].
      * split; [discriminate | contradiction].
      * split; [discriminate | intros [_ H]; discriminate].
    + split; [|split].
      * split; [intros (m & H); discriminate | intros [_ H]; contradiction].
      * split; [discriminate | contradiction].
      * split; [intros _; auto | reflexivity].
  - split; [|split].
    + split; [intros (m & H); discriminate | intros [H _]; contradiction].
    + split; [intros _; exact Hd | reflexivity].
    + split; [discriminate | intros [H _]; contradiction].
Qed.

Lemma until_delimiter_tail (body : list string) d t1 t2 :
  is_delimiter d ->
  until_delimiter (body ++ d :: t1) = until_delimiter (body ++ d :: t2).
Proof.
  unfold is_delimiter. intros Hd. induction body as [|l body IH]; simpl.
  - destruct (decide (Py.strip d = "---")); [reflexivity | contradiction].
  - destruct (decide (Py.strip l = "---")); [reflexivity|]. now rewrite IH.
Qed.

(** X15: the parser looks at nothing after the closing delimiter: two
    documents whose lines agree up to and including a delimiter line
    after the first line have the same result. *)
Theorem X15_parse_ignores_body (c1 c2 first : string) (body : list string)
    (d : string) (t1 t2 : list string) :
  Py.split Py.NL c1 = first :: body ++ d :: t1 ->
  Py.split Py.NL c2 = first :: body ++ d :: t2 ->
  is_delimiter d ->
  parse_frontmatter c1 = parse_frontmatter c2.
Proof.
  intros H1 H2 Hd. unfold parse_frontmatter. rewrite H1, H2.
  now rewrite (until_delimiter_tail body d t1 t2 Hd).
Qed.

Lemma fm_line_skipped st l : is_skipped l -> fm_line st l = st.
Proof.
  unfold is_skipped, fm_line. intros [H|H].
  - rewrite H. reflexivity.
  - rewrite H. now rewrite orb_true_r.
Qed.

Lemma skipped_not_delimiter l : is_skipped l -> ~ is_delimiter l.
Proof.
  unfold is_skipped, is_delimiter. intros [H|H] Hd; rewrite Hd in H; discriminate.
Qed.

Lemma until_delimiter_skip (b1 : list string) l b2 :
  ~ is_delimiter l ->
  (until_delimiter (b1 ++ l :: b2) = None /\ until_delimiter (b1 ++ b2) = None)
  \/ (exists body, until_delimiter (b1 ++ l :: b2) = Some body
                   /\ until_delimiter (b1 ++ b2) = Some body)
  \/ (exists x y, until_delimiter (b1 ++ l :: b2) = Some (x ++ l :: y)
                  /\ until_delimiter (b1 ++ b2) = Some (x ++ y)).
Proof.
  unfold is_delimiter. intros Hl. induction b1 as [|a b1 IH]; simpl.
  - destruct (decide (Py.strip l = "---")); [contradiction|].
    destruct (until_delimiter b2) as [body|].
    + right. right. exists [], body. split; reflexivity.
    + left. split; reflexivity.
  - destruct (decide (Py.strip a = "---")).
    + right. left. exists []. split; reflexivity.
    + destruct IH as [[-> ->]|[(body & -> & ->)|(x & y & -> & ->)]].
      * left. split; reflexivity.
      * right. left. eexists. split; reflexivity.
      * right. right. exists (a :: x), y. split; reflexivity.
Qed.

(** X16: blank lines and comment lines are invisible to the parser:
    removing one such line from the lines after the first leaves the
    result as it is. *)
Theorem X16_parse_skips_blank_and_comment (c1 c2 first : string)
    (b1 : list string) (l : string) (b2 : list string) :
  Py.split Py.NL c1 = first :: b1 ++ l :: b2 ->
  Py.split Py.NL c2 = first :: b1 ++ b2 ->
  is_skipped l ->
  parse_frontmatter c1 = parse_frontmatter c2.
Proof.
  intros H1 H2 Hl. unfold parse_frontmatter. rewrite H1, H2.
  destruct (decide (Py.strip first = "---")); [|reflexivity].
  destruct (until_delimiter_skip b1 l b2 (skipped_not_delimiter l Hl))
    as [[-> ->]|[(body & -> & ->)|(x & y & -> & ->)]]; try reflexivity.
  rewrite !fold_left_app. simpl. rewrite (fm_line_skipped _ l Hl). reflexivity.
Qed.

(** ** Frontmatter: what the mapping holds *)

Lemma nonempty_true s : Py.nonempty s = true <-> s <> "".
Proof. destruct s; simpl; split; intros; congruence. Qed.

Lemma save_list_well_valued st : well_valued (fm st) -> well_valued (save_list st).
Proof.
  unfold save_list, open_list. intros [Hs Hi].
  destruct (current_key st) as [k|]; [|split; assumption].
  destruct (current_list st) as [l|]; [|split; assumption].
  destruct (Py.nonempty k) eqn:Ek; [|split; assumption].
  apply nonempty_true in Ek. split.
  - intros k' v Hk. destruct (decide (k = k')) as [->|Hne].
    + rewrite lookup_insert_eq in Hk. discriminate.
    + rewrite lookup_insert_ne in Hk by exact Hne. eapply Hs, Hk.
  - intros k' l' Hk. destruct (decide (k = k')) as [<-|Hne]; [exact Ek|].
    rewrite lookup_insert_ne in Hk by exact Hne. eapply Hi, Hk.
Qed.

Lemma fm_line_well_valued st line :
  well_valued (fm st) -> well_valued (fm (fm_line st line)).
Proof.
  intros Hst. unfold fm_line.
  destruct (negb (Py.nonempty (Py.strip line)) || Py.startswith "#" (Py.strip line));
    [exact Hst|].
  destruct (Py.startswith "- " (Py.strip line)).
  { destruct (open_list st) as [[k l]|]; exact Hst. }
  destruct (Py.contains ":" (Py.strip line)); [|exact Hst].
  destruct (Py.partition ":" (Py.strip line)) as [key value].
  pose proof (save_list_well_valued st Hst) as [Hs Hi].
  destruct (Py.nonempty (Py.strip value)) eqn:Ev; simpl; [|split; assumption].
  apply nonempty_true in Ev. split.
  - intros k v Hk. destruct (decide (Py.strip key = k)) as [Heq|Hne].
    + rewrite Heq, lookup_insert_eq in Hk. injection Hk as <-. exact Ev.
    + rewrite lookup_insert_ne in Hk by exact Hne. eapply Hs, Hk.
  - intros k l Hk. destruct (decide (Py.strip key = k)) as [Heq|Hne].
    + rewrite Heq, lookup_insert_eq in Hk. discriminate.
    + rewrite lookup_insert_ne in Hk by exact Hne. eapply Hi, Hk.
Qed.

Lemma fold_fm_line_well_valued (body : list string) :
  forall st, well_valued (fm st) -> well_valued (fm (fold_left fm_line body st)).
Proof.
  induction body as [|l body IH]; intros st Hst; [exact Hst|].
  simpl. apply IH. now apply fm_line_well_valued.
Qed.

(** X17: in every mapping the parser returns, a scalar value is never
    empty and holds no line break, and a list is never stored under the
    empty key; so the truth test on a scalar name or description never
    fails. *)
Theorem X17_parsed_values content m :
  parse_frontmatter content = (Some m, None) ->
  (forall k v, m !! k = Some (Scalar v) ->
               v <> "" /\ clean v /\ fm_truthy (Scalar v) = true)
  /\ (forall k l, m !! k = Some (Items l) -> k <> "").
Proof.
  intros H. pose proof (parse_frontmatter_clean content m H) as Hclean.
  assert (Hwv : well_valued m).
  { revert H. unfold parse_frontmatter.
    destruct (Py.split Py.NL content) as [|first rest]; [discriminate|].
    destruct (decide (Py.strip first = "---")); [|discriminate].
    destruct (until_delimiter rest) as [body|]; [|discriminate].
    intros H. injection H as <-.
    apply save_list_well_valued, fold_fm_line_well_valued.
    split; intros k v Hk; simpl in Hk; rewrite lookup_empty in Hk; discriminate. }
  destruct Hwv as [Hs Hi]. split; [|exact Hi].
  intros k v Hk. split; [eapply Hs, Hk|]. split; [eapply Hclean, Hk|].
  simpl. apply nonempty_true. eapply Hs, Hk.
Qed.

Lemma until_delimiter_found (body : list string) d tail :
  Forall (fun l => ~ is_delimiter l) body -> is_delimiter d ->
  until_delimiter (body ++ d :: tail) = Some body.
Proof.
  unfold is_delimiter. intros Hb Hd. induction Hb as [|l body Hl _ IH]; simpl.
  - destruct (decide (Py.strip d = "---")); [reflexivity | contradiction].
  - destruct (decide (Py.strip l = "---")); [contradiction|]. now rewrite IH.
Qed.

Lemma fm_line_opens key line st :
  opens_list key line ->
  fm_line st line
  = {| fm := save_list st; current_key := Some key; current_list := Some [] |}.
Proof.
  intros (H1 & H2 & H3 & H4 & H5 & H6 & _). unfold fm_line.
  rewrite H1, H2, H3, H4. simpl.
  destruct (Py.partition ":" (Py.strip line)) as [k v]. simpl in H5, H6.
  rewrite H5, H6. reflexivity.
Qed.

Lemma fm_line_sets key value line st :
  sets_scalar key value line ->
  fm_line st line
  = {| fm := <[key := Scalar value]> (save_list st); current_key := Some key;
       current_list := None |}.
Proof.
  intros (H1 & H2 & H3 & H4 & H5 & H6 & H7). unfold fm_line.
  rewrite H1, H2, H3, H4. simpl.
  destruct (Py.partition ":" (Py.strip line)) as [k v]. simpl in H5, H6.
  rewrite H5, H6. apply nonempty_true in H7. rewrite H7. reflexivity.
Qed.

Lemma fold_items key (items : list string) :
  forall m acc,
    key <> "" -> Forall is_item items ->
    fold_left fm_line items
      {| fm := m; current_key := Some key; current_list := Some acc |}
    = {| fm := m; current_key := Some key;
         current_list := Some (acc ++ map item_text items) |}.
Proof.
  induction items as [|l items IH]; intros m acc Hk Hi; simpl.
  - now rewrite app_nil_r.
  - apply Forall_cons in Hi as [Hl Hi]. unfold is_item in Hl.
    assert (Hstep : fm_line {| fm := m; current_key := Some key;
                               current_list := Some acc |} l
                    = {| fm := m; current_key := Some key;
                         current_list := Some (acc ++ [item_text l]) |}).
    { unfold fm_line. rewrite Hl.
      assert (Hne : Py.nonempty (Py.strip l) = true).
      { destruct (Py.strip l); [discriminate | reflexivity]. }
      assert (Hc : Py.startswith "#" (Py.strip l) = false).
      { destruct (Py.strip l) as [|c s]; [reflexivity|]. simpl in Hl |- *.
        destruct (decide ("-"%char = c)) as [<-|]; [reflexivity | discriminate]. }
      rewrite Hne, Hc. simpl. unfold open_list. simpl.
      apply nonempty_true in Hk. rewrite Hk. reflexivity. }
    rewrite Hstep, IH by assumption. now rewrite <- List.app_assoc.
Qed.

Lemma item_not_delimiter l : is_item l -> ~ is_delimiter l.
Proof. unfold is_item, is_delimiter. intros H Hd. rewrite Hd in H. discriminate. Qed.

Lemma colon_not_delimiter l : Py.contains ":" (Py.strip l) = true -> ~ is_delimiter l.
Proof. unfold is_delimiter. intros H Hd. rewrite Hd in H. discriminate. Qed.

(** X18: a line [key:] with nothing after the colon, followed by list
    items up to the closing delimiter, gives the key the list of the
    items, each without its marker and surrounding spaces, in the order
    of the lines; whatever precedes the key line does not matter. *)
Theorem X18_list_accumulation (content first : string) (pre : list string)
    (key kline : string) (items : list string) (d : string) (tail : list string) :
  Py.split Py.NL content = first :: pre ++ kline :: items ++ d :: tail ->
  is_delimiter first ->
  Forall (fun l => ~ is_delimiter l) pre ->
  opens_list key kline ->
  Forall is_item items ->
  is_delimiter d ->
  exists m,
    parse_frontmatter content = (Some m, None)
    /\ m !! key = Some (Items (map item_text items)).
Proof.
  intros Hs Hf Hpre Hk Hi Hd. unfold parse_frontmatter. rewrite Hs.
  unfold is_delimiter in Hf. destruct (decide (Py.strip first = "---"));
    [|contradiction].
  assert (Hbody : Forall (fun l => ~ is_delimiter l) (pre ++ kline :: items)).
  { apply Forall_app. split; [exact Hpre|]. constructor.
    - apply colon_not_delimiter. apply Hk.
    - eapply Forall_impl; [exact Hi|]. apply item_not_delimiter. }
  replace (pre ++ kline :: items ++ d :: tail)
    with ((pre ++ kline :: items) ++ d :: tail)
    by (rewrite <- List.app_assoc; reflexivity).
  rewrite (until_delimiter_found _ d tail Hbody Hd).
  eexists. split; [reflexivity|].
  rewrite fold_left_app. simpl. rewrite (fm_line_opens key kline _ Hk).
  rewrite (fold_items key items _ [] (proj2 (proj2 (proj2 (proj2 (proj2 (proj2 Hk))))))
             Hi).
  unfold save_list at 1, open_list. simpl.
  destruct Hk as (_ & _ & _ & _ & _ & _ & Hne). apply nonempty_true in Hne.
  rewrite Hne. apply lookup_insert_eq.
Qed.

(** X19: a line [key: value] stores the value under the key, replacing
    whatever the key held, also a list: when only skipped lines separate
    it from the closing delimiter, the mapping returned gives the key
    that value. *)
Theorem X19_last_scalar_wins (content first : string) (pre : list string)
    (key value kline : string) (skipped : list string) (d : string)
    (tail : list string) :
  Py.split Py.NL content = first :: pre ++ kline :: skipped ++ d :: tail ->
  is_delimiter first ->
  Forall (fun l => ~ is_delimiter l) pre ->
  sets_scalar key value kline ->
  Forall is_skipped skipped ->
  is_delimiter d ->
  exists m,
    parse_frontmatter content = (Some m, None)
    /\ m !! key = Some (Scalar value).
Proof.
  intros Hs Hf Hpre Hk Hsk Hd. unfold parse_frontmatter. rewrite Hs.
  unfold is_delimiter in Hf. destruct (decide (Py.strip first = "---"));
    [|contradiction].
  assert (Hbody : Forall (fun l => ~ is_delimiter l) (pre ++ kline :: skipped)).
  { apply Forall_app. split; [exact Hpre|]. constructor.
    - apply colon_not_delimiter. apply Hk.
    - eapply Forall_impl; [exact Hsk|]. apply skipped_not_delimiter. }
  replace (pre ++ kline :: skipped ++ d :: tail)
    with ((pre ++ kline :: skipped) ++ d :: tail)
    by (rewrite <- List.app_assoc; reflexivity).
  rewrite (until_delimiter_found _ d tail Hbody Hd).
  eexists. split; [reflexivity|].
  rewrite fold_left_app. simpl. rewrite (fm_line_sets key value kline _ Hk).
  assert (Hfold : forall st, fold_left fm_line skipped st = st).
  { clear -Hsk. induction Hsk as [|l ls Hl _ IH]; intros st; [reflexivity|].
    simpl. rewrite (fm_line_skipped st l Hl). apply IH. }
  rewrite Hfold. unfold save_list at 1, open_list. simpl.
  apply lookup_insert_eq.
Qed.

(** ** Consecutive hyphens *)

Lemma is_hyphen_true c : is_hyphen c = true <-> c = "-"%char.
Proof. unfold is_hyphen. apply bool_decide_eq_true. Qed.

Lemma no_double_hyphen_contains s :
  forall prev, no_double_hyphen prev s = true -> Py.contains "--" s = false.
Proof.
  induction s as [|c s IH]; intros prev H; [reflexivity|].
  simpl in H. cbn [Py.contains]. apply orb_false_iff.
  destruct (is_hyphen c) eqn:Ec.
  - destruct prev; [discriminate|]. split; [|eapply IH, H].
    cbn [Py.startswith]. destruct (decide ("-"%char = c)); [|reflexivity].
    destruct s as [|c' s]; [reflexivity|]. cbn [Py.startswith].
    destruct (decide ("-"%char = c')) as [<-|]; [|reflexivity].
    simpl in H. discriminate.
  - split; [|eapply IH, H]. cbn [Py.startswith].
    destruct (decide ("-"%char = c)) as [<-|]; [|reflexivity].
    discriminate.
Qed.

Lemma no_double_hyphen_app a b :
  forall prev,
    no_double_hyphen prev (a +:+ b)
    = no_double_hyphen prev a && no_double_hyphen (ends_on_hyphen prev a) b.
Proof.
  induction a as [|c a IH]; intros prev; [reflexivity|].
  rewrite append_cons. simpl. destruct (is_hyphen c).
  - destruct prev; [reflexivity | apply IH].
  - apply IH.
Qed.

Lemma ends_on_hyphen_app a b :
  forall prev, ends_on_hyphen prev (a +:+ b) = ends_on_hyphen (ends_on_hyphen prev a) b.
Proof.
  induction a as [|c a IH]; intros prev; [reflexivity|].
  rewrite append_cons. simpl. apply IH.
Qed.

(** A string without hyphens. *)
Lemma hyphen_free s :
  Forall (fun c => is_lower_digit c = true) (chars s) ->
  forall prev,
    no_double_hyphen prev s = true
    /\ ends_on_hyphen prev s = (if Py.nonempty s then false else prev).
Proof.
  induction s as [|c s IH]; intros H prev; [split; reflexivity|].
  simpl in H. apply Forall_cons in H as [Hc Hs].
  assert (Hh : is_hyphen c = false).
  { destruct (is_hyphen c) eqn:E; [|reflexivity].
    apply is_hyphen_true in E. subst c. discriminate. }
  simpl. rewrite Hh. destruct (IH Hs false) as [H1 H2]. split; [exact H1|].
  rewrite H2. destruct s; reflexivity.
Qed.

Lemma lower_digit_chars r s :
  r = Re.Cls is_lower_digit \/ r = Re.Star (Re.Cls is_lower_digit) ->
  Re.lang r s -> Forall (fun c => is_lower_digit c = true) (chars s).
Proof.
  intros [->| ->] H.
  - eapply lang_cls_chars; [|exact H]. auto.
  - eapply lang_star_chars; [|exact H]. intros t Ht.
    eapply lang_cls_chars; [|exact Ht]. auto.
Qed.

(** One segment [-[a-z0-9]+], read after a character that is no hyphen. *)
Lemma segment_hyphens t :
  Re.lang (Re.Cat (Re.Cls is_hyphen) (Re.Plus (Re.Cls is_lower_digit))) t ->
  no_double_hyphen false t = true /\ ends_on_hyphen false t = false.
Proof.
  intros H. apply ReFacts.lang_cat_inv in H as (h & u & -> & Hh & Hu).
  apply ReFacts.lang_cls_inv in Hh as (c & -> & Hc).
  unfold Re.Plus in Hu. apply ReFacts.lang_cat_inv in Hu as (u1 & u2 & -> & H1 & H2).
  pose proof (lower_digit_chars _ _ (or_introl eq_refl) H1) as C1.
  pose proof (lower_digit_chars _ _ (or_intror eq_refl) H2) as C2.
  apply ReFacts.lang_cls_inv in H1 as (c1 & -> & Hc1).
  assert (Cu : Forall (fun c => is_lower_digit c = true)
                 (chars (String c1 "" +:+ u2))).
  { rewrite chars_app. apply Forall_app. split; assumption. }
  destruct (hyphen_free _ Cu true) as [N E].
  rewrite append_cons, append_nil_l. simpl. rewrite Hc.
  split; [exact N|].
  change (ends_on_hyphen true (String c1 "" +:+ u2) = false).
  rewrite E. reflexivity.
Qed.

Lemma segments_hyphens s :
  Re.lang (Re.Star (Re.Cat (Re.Cls is_hyphen) (Re.Plus (Re.Cls is_lower_digit)))) s ->
  no_double_hyphen false s = true /\ ends_on_hyphen false s = false.
Proof.
  intros H.
  remember (Re.Star (Re.Cat (Re.Cls is_hyphen) (Re.Plus (Re.Cls is_lower_digit))))
    as r eqn:Er.
  induction H as [| | | | | |r0 u1 u2 H1 _ H2 IH2]; try discriminate.
  - split; reflexivity.
  - injection Er as ->. destruct (segment_hyphens _ H1) as [N1 E1].
    destruct (IH2 eq_refl) as [N2 E2].
    rewrite no_double_hyphen_app, ends_on_hyphen_app, N1, E1, N2, E2.
    split; reflexivity.
Qed.

(** A string of the language of the pattern has no two hyphens in a row. *)
Lemma name_pattern_no_double_hyphen s :
  Re.lang NAME_PATTERN s ->
  no_double_hyphen false s = true /\ ends_on_hyphen false s = false.
Proof.
  unfold NAME_PATTERN. intros H.
  apply ReFacts.lang_cat_inv in H as (s1 & s23 & -> & H1 & H23).
  apply ReFacts.lang_cat_inv in H23 as (s2 & s3 & -> & H2 & H3).
  apply ReFacts.lang_cls_inv in H1 as (c & -> & Hc).
  assert (Hh : is_hyphen c = false).
  { destruct (is_hyphen c) eqn:E; [|reflexivity].
    apply is_hyphen_true in E. subst c. discriminate. }
  pose proof (lower_digit_chars _ _ (or_intror eq_refl) H2) as C2.
  destruct (hyphen_free _ C2 false) as [N2 E2].
  assert (E2' : ends_on_hyphen false s2 = false).
  { rewrite E2. destruct (Py.nonempty s2); reflexivity. }
  destruct (segments_hyphens _ H3) as [N3 E3].
  rewrite append_cons, append_nil_l. simpl. rewrite Hh.
  rewrite no_double_hyphen_app, ends_on_hyphen_app, N2, E2', N3, E3.
  split; reflexivity.
Qed.

Lemma match_anchored_no_double_hyphen name :
  Re.match_anchored NAME_PATTERN name = true -> Py.contains "--" name = false.
Proof.
  intros H. apply ReFacts.match_anchored_spec in H as [H|(body & -> & H)];
    apply name_pattern_no_double_hyphen in H as [N E].
  - eapply no_double_hyphen_contains, N.
  - apply (no_double_hyphen_contains _ false).
    rewrite no_double_hyphen_app, N, E. reflexivity.
Qed.

(** X20: a name with two hyphens in a row never matches the pattern, so
    the consecutive-hyphens error is never reported on its own: the same
    call reports invalid-name-format just before it. *)
Theorem X20_consecutive_hyphens_not_alone (name p : string) (w : world) :
  Py.contains "--" name = true ->
  Re.match_anchored NAME_PATTERN name = false
  /\ exists w' before,
       validate_name (Scalar name) p w = Ok tt w'
       /\ errors (report w')
          = before ++ [invalid_name_format name p; consecutive_hyphens name p].
Proof.
  intros Hc.
  assert (Hm : Re.match_anchored NAME_PATTERN name = false).
  { destruct (Re.match_anchored NAME_PATTERN name) eqn:E; [|reflexivity].
    apply match_anchored_no_double_hyphen in E. congruence. }
  split; [exact Hm|].
  destruct (validate_name_errors name p w) as (w' & Hrun & Herr).
  rewrite Hm, Hc in Herr. exists w'. eexists. split; [exact Hrun|].
  rewrite Herr. rewrite List.app_assoc. reflexivity.
Qed.

(** ** A skills field that is not a list *)

(** X21: when a plugin entry has a skills field that is not a list,
    [validate_plugin] counts the plugin, reports invalid-type as its last
    error and stops there: no reference is counted or looked up, no
    document is read and the ownership map is returned as it came. *)
Theorem X21_skills_not_a_list fs (d : list (string * json)) (idx : nat)
    (paths : gmap string json) (w : world) (v : json) :
  dict_get "skills" d = Some v ->
  (forall l, v <> JArr l) ->
  exists w' before,
    validate_plugin fs (JObj d) idx paths w = Ok paths w'
    /\ errors (report w') = before ++ [invalid_skills_entry (plugin_name_of d idx)]
    /\ reads w' = reads w
    /\ skills_checked (stats (report w')) = skills_checked (stats (report w))
    /\ skills_missing (stats (report w')) = skills_missing (stats (report w))
    /\ plugins_checked (stats (report w')) = plugins_checked (stats (report w)) + 1.
Proof.
  intros Hv Hnot. unfold validate_plugin. rewrite count_bind.
  set (w0 := {| report := with_stats incr_plugins_checked (report w);
                reads := reads w |}).
  destruct (plugin_fields_total d (plugin_name_of d idx) w0)
    as ([] & w1 & E1 & _ & Hs1 & Hr1).
  rewrite (seq_run _ _ _ _ _ E1), Hv. simpl.
  destruct v as [| | | |l|]; try (exfalso; eapply Hnot; reflexivity);
    (eexists _, (errors (report w1)); split; [reflexivity|]; simpl;
     rewrite Hs1, Hr1; simpl; repeat split; reflexivity).
Qed.

(** ** The further properties on sample inputs *)

Lemma X1_witness :
  (exists pre, hidden_ref = pre +:+ normalize hidden_ref
               /\ Forall dot_or_slash (chars pre))
  /\ normalize (normalize hidden_ref) = normalize hidden_ref.
Proof.
  split.
  - exact (proj1 (X1_normalize_shape hidden_ref)).
  - exact (proj2 (proj2 (X1_normalize_shape hidden_ref))).
Defined.

Lemma X2_witness :
  (exists w' added,
      validate_marketplace_structure (JArr [JStr "name"]) world_init = Ok tt w'
      /\ errors (report w') = errors (report world_init) ++ added
      /\ Permutation added (missing_fields (JArr [JStr "name"]))
      /\ warnings (report w') = warnings (report world_init)
      /\ stats (report w') = stats (report world_init))
  /\ verify fs_one_skill (Loaded (JArr [JStr "name"])) false world_init = Raised.
Proof.
  split.
  - exact (proj1 (proj2 (X2_structure_check [] world_init)) (JArr [JStr "name"])
             (or_introl (ex_intro _ [JStr "name"] eq_refl))).
  - apply (proj2 (proj2 (proj2 (X2_structure_check [] world_init)))). discriminate.
Defined.

Lemma X3_witness :
  exists evs w,
    verify fs_one_skill (Loaded (JObj manifest_simple)) false world_init = Ok evs w
    /\ ~ (exists e, In e (errors (report w) ++ warnings (report w))
                    /\ rule e = "file-not-found").
Proof.
  destruct (verify fs_one_skill (Loaded (JObj manifest_simple)) false world_init)
    as [evs w|] eqn:E.
  - exists evs, w. split; [reflexivity|]. intros H.
    apply (proj1 (X3_fatal_errors _ _ _ _ _ E)) in H. discriminate H.
  - vm_compute in E. discriminate E.
Defined.

Lemma X4_witness :
  exists evs w,
    verify fs_one_skill (Loaded (JObj manifest_simple)) true world_init = Ok evs w
    /\ evs = []
    /\ manifest_after fs_one_skill (Loaded (JObj manifest_simple)) true
       = Loaded (JObj manifest_simple).
Proof.
  destruct (verify fs_one_skill (Loaded (JObj manifest_simple)) true world_init)
    as [evs w|] eqn:E.
  - exists evs, w. split; [reflexivity|].
    apply (X4_fix_only_when_failed fs_one_skill (Loaded (JObj manifest_simple))
             true evs w E).
    right. vm_compute in E. injection E as _ <-. vm_compute. reflexivity.
  - vm_compute in E. discriminate E.
Defined.

Lemma X5_witness :
  verify fs_one_skill (Loaded (JObj manifest_no_plugins)) true world_init = Raised.
Proof.
  apply (X5_fix_without_plugins fs_one_skill manifest_no_plugins). reflexivity.
Defined.

Lemma X6_witness :
  exists before after,
    to_table (Report_error "file-not-found" [Lit "File not found: "; ManifestPath]
                None None Report_init)
    = before ++ Lit nl :: entry_line file_not_found_entry ++ after.
Proof.
  apply (proj1 (proj2 (proj2 (proj2 (X6_renderings _))))). left. left. reflexivity.
Defined.

Lemma X7_witness :
  validate_skill_md fs_list_name "skills/writing-tests" world_init = Raised.
Proof.
  apply (proj1 (X7_list_valued_fields_raise fs_list_name "skills/writing-tests"
                  world_init list_name_doc eq_refl)).
  vm_compute. reflexivity.
Defined.

Lemma X8_witness :
  exists w',
    validate_description (Scalar ("Guides testing. " +:+ "USE When" +:+ " writing tests."))
      "skills/writing-tests" world_init = Ok tt w'
    /\ with_rule "missing-use-when" (warnings (report w'))
       = with_rule "missing-use-when" (warnings (report world_init))
    /\ (Py.len ("Guides testing. " +:+ "USE When" +:+ " writing tests.")
        <= MAX_DESCRIPTION_LENGTH ->
        errors (report w') = errors (report world_init)).
Proof.
  apply (X8_use_when_accepted "Guides testing. " "USE When" " writing tests."
           "skills/writing-tests" world_init).
  vm_compute. reflexivity.
Defined.

Lemma X9_witness :
  exists evs w,
    verify fs_one_skill (Loaded manifest_dangling) false world_init = Ok evs w
    /\ counters_agree w.
Proof.
  destruct (verify fs_one_skill (Loaded manifest_dangling) false world_init)
    as [evs w|] eqn:E.
  - exists evs, w. split; [reflexivity|].
    exact (X9_counters_agree _ _ _ _ _ E).
  - vm_compute in E. discriminate E.
Defined.

Lemma X10_witness :
  exists w',
    check_unique_plugin_names three_claimers world_init = Ok tt w'
    /\ (errors (report w') = errors (report world_init)
        <-> NoDup (omap plugin_key three_claimers)).
Proof.
  apply (X10_names_unique_iff_no_error three_claimers world_init).
  vm_compute. reflexivity.
Defined.

Lemma X11_witness :
  exists paths' w',
    validate_plugins fs_one_skill three_claimers 0 ∅ world_init = Ok paths' w'
    /\ (with_rule "duplicate-path" (errors (report w'))
        = with_rule "duplicate-path" (errors (report world_init))
        <-> NoDup (map (fun c => normalize c.1)
                     (claims_from fs_one_skill 0 three_claimers))).
Proof.
  apply (X11_paths_unique_iff_no_error fs_one_skill three_claimers world_init).
  - intros p. vm_compute. reflexivity.
  - vm_compute. reflexivity.
Defined.

Lemma X12_witness :
  exists f,
    apply_fixes fs_one_skill manifest_dangling = Some f
    /\ fix_data f = manifest_of [plugin_entry "a" ["./skills/writing-tests"]]
    /\ fixed f = true.
Proof.
  destruct (apply_fixes fs_one_skill manifest_dangling) as [f|] eqn:E.
  - exists f. split; [reflexivity|].
    destruct (X12_apply_fixes_result fs_one_skill
                [("name", JStr "m");
                 ("plugins",
                  JArr [plugin_entry "a" ["./skills/writing-tests"; "./skills/gone"];
                        plugin_entry "b" ["./skills/nothing"]])]
                [plugin_entry "a" ["./skills/writing-tests"; "./skills/gone"];
                 plugin_entry "b" ["./skills/nothing"]] f eq_refl E)
      as (Hd & _).
    split; [rewrite Hd; vm_compute; reflexivity|].
    vm_compute in E. injection E as <-. reflexivity.
  - vm_compute in E. discriminate E.
Defined.

Lemma X15_witness :
  parse_frontmatter (good_doc +:+ "body one") = parse_frontmatter (good_doc +:+ "other").
Proof.
  apply (X15_parse_ignores_body (good_doc +:+ "body one") (good_doc +:+ "other")
           "---" ["name: writing-tests"; "description: Use when writing tests."]
           "---" ["body one"] ["other"]).
  - vm_compute. reflexivity.
  - vm_compute. reflexivity.
  - vm_compute. reflexivity.
Defined.

Lemma X16_witness :
  parse_frontmatter repeated_key_doc
  = parse_frontmatter (unlines ["---"; "name: first"; "name:   second  "; "---"]).
Proof.
  apply (X16_parse_skips_blank_and_comment repeated_key_doc
           (unlines ["---"; "name: first"; "name:   second  "; "---"])
           "---" ["name: first"] "# note" ["name:   second  "; "---"; ""]).
  - vm_compute. reflexivity.
  - vm_compute. reflexivity.
  - right. vm_compute. reflexivity.
Defined.

Lemma X17_witness :
  exists m,
    parse_frontmatter tags_doc = (Some m, None)
    /\ m !! "name" = Some (Scalar "writing-tests")
    /\ "writing-tests" <> ""
    /\ clean "writing-tests"
    /\ fm_truthy (Scalar "writing-tests") = true.
Proof.
  destruct (parse_frontmatter tags_doc) as [[m|] [e|]] eqn:E;
    try (vm_compute in E; discriminate E).
  exists m. split; [reflexivity|].
  assert (Hk : m !! "name" = Some (Scalar "writing-tests")).
  { vm_compute in E. injection E as <-. vm_compute. reflexivity. }
  split; [exact Hk|].
  exact (proj1 (X17_parsed_values tags_doc m E) "name" "writing-tests" Hk).
Defined.

Lemma X18_witness :
  exists m,
    parse_frontmatter tags_doc = (Some m, None)
    /\ m !! "tags" = Some (Items ["alpha"; "beta"]).
Proof.
  apply (X18_list_accumulation tags_doc "---" ["name: writing-tests"] "tags" "tags:"
           ["  - alpha"; "- beta  "] "---" ["body"; ""]).
  - vm_compute. reflexivity.
  - vm_compute. reflexivity.
  - repeat constructor. vm_compute. discriminate.
  - vm_compute. repeat split; try reflexivity. discriminate.
  - repeat constructor; vm_compute; reflexivity.
  - vm_compute. reflexivity.
Defined.

Lemma X19_witness :
  exists m,
    parse_frontmatter repeated_key_doc = (Some m, None)
    /\ m !! "name" = Some (Scalar "second").
Proof.
  apply (X19_last_scalar_wins repeated_key_doc "---" ["name: first"; "# note"]
           "name" "second" "name:   second  " [] "---" [""]).
  - vm_compute. reflexivity.
  - vm_compute. reflexivity.
  - repeat constructor; vm_compute; discriminate.
  - vm_compute. repeat split; try reflexivity. discriminate.
  - constructor.
  - vm_compute. reflexivity.
Defined.

Lemma X20_witness :
  Re.match_anchored NAME_PATTERN "writing--tests" = false.
Proof.
  apply (X20_consecutive_hyphens_not_alone "writing--tests" "skills/writing--tests"
           world_init).
  vm_compute. reflexivity.
Defined.

Lemma X21_witness :
  exists w' before,
    validate_plugin fs_one_skill (JObj plugin_skills_string) 0 ∅ world_init
    = Ok ∅ w'
    /\ errors (report w')
       = before ++ [invalid_skills_entry (plugin_name_of plugin_skills_string 0)]
    /\ reads w' = reads world_init
    /\ skills_checked (stats (report w')) = skills_checked (stats (report world_init))
    /\ skills_missing (stats (report w')) = skills_missing (stats (report world_init))
    /\ plugins_checked (stats (report w'))
       = plugins_checked (stats (report world_init)) + 1.
Proof.
  apply (X21_skills_not_a_list fs_one_skill plugin_skills_string 0 ∅ world_init
           (JStr "skills/writing-tests")).
  - reflexivity.
  - discriminate.
Defined.

Lemma X14_witness :
  parse_frontmatter "no front matter" = (None, Some NO_OPENING).
Proof.
  destruct (X14_parse_outcomes "no front matter")
    as (first & rest & Hs & _ & [_ H] & _).
  apply H. vm_compute in Hs. injection Hs as <- _. vm_compute. discriminate.
Defined.
